(** * JustTimelockUpgradeable: the threat-tiered timelock, embedded and verified

    A shallow embedding of [contracts/JustTimelockUpgradeable.sol]
    (Solidity 0.8.20).  Storage is a record, every external function is a
    computation in a state-and-revert monad, and a transaction is run by
    [call], which commits the storage on success and rolls it back on
    revert, as the EVM does.

    Conventions.
    - [uint256] and [address] values are integers in [Z]; arithmetic is the
      checked arithmetic of Solidity 0.8 ([Uint256.add] has no result on
      overflow, which the contract observes as [Panic 0x11]).
    - [bytes] is [list byte]; [bytes4] keys are kept the way the EVM keeps
      them, as a 256-bit word whose four leading bytes carry the value.
    - [keccak256] is an interface ([Keccak]); lemmas that need distinct
      inputs to have distinct digests assume [CollisionFree].
    - The callee of a low-level [call] is described by its outcome
      ([external_call]) and by the calls it makes back into the timelock
      while it runs ([reentrant_calls]); those run on the storage as the
      calling function has left it, and are undone when the callee fails.
    - The token's [balanceOf] is described by its answer ([balanceOf]),
      which may be one that the [try] statement does not catch. *)

From Stdlib Require Import String ZArith List Bool Lia Permutation.
From Stdlib.Strings Require Import Byte.
Import ListNotations.
Open Scope Z_scope.

(** ** Machine integers *)

Module Uint256.

Definition max : Z := 2 ^ 256 - 1.

Definition in_range (x : Z) : Prop := 0 <= x <= max.

(** Checked addition: [None] is the overflow panic. *)
Definition add (a b : Z) : option Z :=
  if a + b <=? max then Some (a + b) else None.

End Uint256.

Definition address := Z.
Definition bytes := list byte.

Definition address_in_range (a : address) : Prop := 0 <= a < 2 ^ 160.

(** ** Bytes and words *)

Definition byte_of_Z (z : Z) : byte :=
  match Byte.of_N (Z.to_N (z mod 256)) with
  | Some b => b
  | None => x00
  end.

Definition Z_of_byte (b : byte) : Z := Z.of_N (Byte.to_N b).

(** Big-endian value of a byte string. *)
Definition be_to_Z (bs : bytes) : Z :=
  fold_left (fun acc b => acc * 256 + Z_of_byte b) bs 0.

(** The [n] low-order bytes of [z], most significant first. *)
Fixpoint be_bytes (n : nat) (z : Z) : bytes :=
  match n with
  | O => []
  | S k => be_bytes k (z / 256) ++ [byte_of_Z z]
  end.

Definition word (z : Z) : bytes := be_bytes 32 z.

(** [mload(add(data, 32))]: the 32 bytes that start the contents of [data];
    what lies behind a short [data] is taken to be zero here, and
    [selector_ignores_tail] shows that the mask makes it irrelevant. *)
Definition mload_contents (data : bytes) : Z :=
  be_to_Z (firstn 32 (data ++ repeat x00 32)).

Definition selector_mask : Z :=
  0xFFFFFFFF00000000000000000000000000000000000000000000000000000000.

(** The spec's "leading selector": the first four bytes, as a [bytes4]. *)
Definition leading_selector (data : bytes) : Z :=
  be_to_Z (firstn 4 data) * 2 ^ 224.

(** Zero padding that brings [n] bytes to a multiple of 32. *)
Definition padding (n : nat) : nat := ((32 - n mod 32) mod 32)%nat.

(** [abi.encode(address, uint256, bytes, uint256)]: four head words (the
    third is the offset of the dynamic part), then the length-prefixed,
    zero-padded payload. *)
Definition abi_encode (target : address) (value : Z) (data : bytes) (eta : Z)
  : bytes :=
  word target ++ word value ++ word 128 ++ word eta
    ++ word (Z.of_nat (length data)) ++ data
    ++ repeat x00 (padding (length data)).

(** The four leading bytes of a [bytes4] kept as a left-aligned word. *)
Definition selector_bytes (sel : Z) : bytes := firstn 4 (word sel).

(** [abi.encodeWithSelector(sel, a, b, ...)] for [uint256] arguments. *)
Definition abi_encodeWithSelector (sel : Z) (args : list Z) : bytes :=
  selector_bytes sel ++ flat_map word args.

(** ** The hash *)

Class Keccak := {
  bytes32 : Type;
  bytes32_eqb : bytes32 -> bytes32 -> bool;
  bytes32_eqb_eq : forall a b, bytes32_eqb a b = true <-> a = b;
  keccak256 : bytes -> bytes32;
  (** [bytes4(h)]: the four leading bytes of a digest, left-aligned. *)
  bytes4_of : bytes32 -> Z
}.

Definition CollisionFree `{Keccak} : Prop :=
  forall x y : bytes, keccak256 x = keccak256 y -> x = y.

(** A reference instance in which a digest is its own preimage. *)
Definition preimage_eqb (a b : bytes) : bool :=
  if list_eq_dec Byte.byte_eq_dec a b then true else false.

Definition preimage_eqb_eq (a b : bytes) :
  preimage_eqb a b = true <-> a = b.
Proof.
  unfold preimage_eqb.
  destruct (list_eq_dec Byte.byte_eq_dec a b); split; congruence.
Defined.

Definition PreimageKeccak : Keccak := {|
  bytes32 := bytes;
  bytes32_eqb := preimage_eqb;
  bytes32_eqb_eq := preimage_eqb_eq;
  keccak256 := fun b => b;
  bytes4_of := fun b => leading_selector b
|}.

(** ** Enumerations *)

Inductive ThreatLevel := LOW | MEDIUM | HIGH | CRITICAL.

Definition level_index (l : ThreatLevel) : Z :=
  match l with LOW => 0 | MEDIUM => 1 | HIGH => 2 | CRITICAL => 3 end.

Definition level_eqb (a b : ThreatLevel) : bool :=
  level_index a =? level_index b.

Definition level_lt (a b : ThreatLevel) : Prop :=
  level_index a < level_index b.

(** Role identifiers.  In the contract they are 32-byte constants: the zero
    word for [DEFAULT_ADMIN_ROLE] and the digests of the role names for the
    others; [OTHER_ROLE] stands for any other 32-byte value. *)
Inductive Role :=
| DEFAULT_ADMIN_ROLE
| ADMIN_ROLE
| PROPOSER_ROLE
| EXECUTOR_ROLE
| CANCELLER_ROLE
| GUARDIAN_ROLE
| GOVERNANCE_ROLE
| MINTER_ROLE
| TIMELOCK_ADMIN_ROLE
| OTHER_ROLE (tag : Z).

Definition role_eqb (a b : Role) : bool :=
  match a, b with
  | DEFAULT_ADMIN_ROLE, DEFAULT_ADMIN_ROLE
  | ADMIN_ROLE, ADMIN_ROLE
  | PROPOSER_ROLE, PROPOSER_ROLE
  | EXECUTOR_ROLE, EXECUTOR_ROLE
  | CANCELLER_ROLE, CANCELLER_ROLE
  | GUARDIAN_ROLE, GUARDIAN_ROLE
  | GOVERNANCE_ROLE, GOVERNANCE_ROLE
  | MINTER_ROLE, MINTER_ROLE
  | TIMELOCK_ADMIN_ROLE, TIMELOCK_ADMIN_ROLE => true
  | OTHER_ROLE x, OTHER_ROLE y => x =? y
  | _, _ => false
  end.

Inductive GuardStatus := NOT_ENTERED | ENTERED.

Section Model.

Context `{Keccak}.

(** ** Errors and events *)

Inductive Error :=
| ZeroAddress (param : string)
| ZeroDelay
| DelayTooShort (provided minimum : Z)
| DelayTooLong (provided maximum : Z)
| TxNotQueued (txHash : bytes32)
| TxAlreadyQueued (txHash : bytes32)
| TxAlreadyExecuted (txHash : bytes32)
| TxNotReady (txHash : bytes32) (eta currentTime : Z)
| TxExpired (txHash : bytes32) (eta gracePeriod currentTime : Z)
| CallFailed (target : address) (data : bytes)
| NotAuthorized (caller : address) (role : Role)
| InvalidParams
| NoTokenHolding (caller : address)
| AlreadyCanceled (txHash : bytes32)
| DelayHierarchyViolation
| TransactionNotExpired (txHash : bytes32) (eta gracePeriod currentTime : Z)
| TransactionNotPreviouslyFailed (txHash : bytes32)
(** Arithmetic overflow of checked arithmetic is [Panic 0x11]. *)
| Panic (code : Z)
(** [revert("...")] and the [require] messages of the inherited contracts. *)
| ErrorString (reason : string)
(** The [onlyRole] modifier of the inherited access control. *)
| MissingRole (account : address) (role : Role)
(** A revert that carries no data. *)
| RevertWithoutData.

(** What a transaction leaves behind besides storage: the events it emits
    and the low-level calls it makes, in order. *)
Inductive Effect :=
| TransactionQueued (txHash : bytes32) (target : address) (value : Z)
    (data : bytes) (eta : Z) (threatLevel : ThreatLevel)
| TransactionExecuted (txHash : bytes32) (target : address) (value : Z)
    (data : bytes)
| TransactionCanceled (txHash : bytes32)
| DelaysUpdated (newMinDelay newMaxDelay newGracePeriod : Z)
| GovernanceRoleTransferred (oldGovernance newGovernance : address)
| GovernanceRoleChanged (account : address) (isGranted : bool)
| JustTokenSet (tokenAddress : address)
| ThreatLevelDelaysUpdated (lowDelay mediumDelay highDelay criticalDelay : Z)
| FunctionThreatLevelSet (selector : Z) (level : ThreatLevel)
| AddressThreatLevelSet (target : address) (level : ThreatLevel)
| RoleGranted (role : Role) (account : address)
| RoleRevoked (role : Role) (account : address)
| ContractPaused (guardian : address)
| ContractUnpaused (guardian : address)
| ContractInitialized (admin : address) (minDelay : Z)
| TransactionExecutionFailed (txHash : bytes32) (target : address)
    (reason : bytes)
| TransactionSubmitted (txHash : bytes32) (proposer : address)
| ExecutorThresholdUpdated (newThreshold : Z)
| ExpiredTransactionExecuted (txHash : bytes32) (target : address)
    (value : Z) (data : bytes)
| FailedTransactionRetried (txHash : bytes32) (target : address)
    (value : Z) (data : bytes)
(** Events of the inherited contracts. *)
| DirectoryRoleGranted (role : Role) (account sender : address)
| DirectoryRoleRevoked (role : Role) (account sender : address)
| Paused (account : address)
| Unpaused (account : address)
| Initialized
(** [target.call{value: value}(data)]. *)
| ExternalCall (target : address) (value : Z) (data : bytes).

(** ** Storage *)

Record TimelockTransaction := {
  target : address;
  value : Z;
  data : bytes;
  eta : Z;
  executed : bool;
  canceled : bool
}.

Record Storage := {
  minDelay : Z;
  maxDelay : Z;
  gracePeriod : Z;
  minExecutorTokenThreshold : Z;
  lowThreatDelay : Z;
  mediumThreatDelay : Z;
  highThreatDelay : Z;
  criticalThreatDelay : Z;
  functionThreatLevels : Z -> ThreatLevel;
  addressThreatLevels : address -> ThreatLevel;
  justToken : address;
  _timelockTransactions : bytes32 -> TimelockTransaction;
  queuedTransactions : bytes32 -> bool;
  _failedTransactions : bytes32 -> bool;
  (** Inherited state: the role directory, the pause switch, the
      reentrancy guard and the initializer flag. *)
  _roleMembers : Role -> list address;
  _paused : bool;
  _status : GuardStatus;
  _initialized : bool
}.

(** Storage before the initializer has run: every slot is zero. *)
Definition zero_storage : Storage := {|
  minDelay := 0; maxDelay := 0; gracePeriod := 0;
  minExecutorTokenThreshold := 0;
  lowThreatDelay := 0; mediumThreatDelay := 0;
  highThreatDelay := 0; criticalThreatDelay := 0;
  functionThreatLevels := fun _ => LOW;
  addressThreatLevels := fun _ => LOW;
  justToken := 0;
  _timelockTransactions := fun _ =>
    {| target := 0; value := 0; data := []; eta := 0;
       executed := false; canceled := false |};
  queuedTransactions := fun _ => false;
  _failedTransactions := fun _ => false;
  _roleMembers := fun _ => [];
  _paused := false;
  _status := NOT_ENTERED;
  _initialized := false
|}.

(** Mapping writes. *)
Definition write_hash {A} (m : bytes32 -> A) (k : bytes32) (v : A)
  : bytes32 -> A :=
  fun k' => if bytes32_eqb k' k then v else m k'.

Definition write_Z {A} (m : Z -> A) (k : Z) (v : A) : Z -> A :=
  fun k' => if k' =? k then v else m k'.

Definition write_role {A} (m : Role -> A) (k : Role) (v : A) : Role -> A :=
  fun k' => if role_eqb k' k then v else m k'.

(** Storage writes, one per slot. *)
Definition set_minDelay (v : Z) (s : Storage) : Storage :=
  {| minDelay := v; maxDelay := maxDelay s; gracePeriod := gracePeriod s;
     minExecutorTokenThreshold := minExecutorTokenThreshold s;
     lowThreatDelay := lowThreatDelay s;
     mediumThreatDelay := mediumThreatDelay s;
     highThreatDelay := highThreatDelay s;
     criticalThreatDelay := criticalThreatDelay s;
     functionThreatLevels := functionThreatLevels s;
     addressThreatLevels := addressThreatLevels s; justToken := justToken s;
     _timelockTransactions := _timelockTransactions s;
     queuedTransactions := queuedTransactions s;
     _failedTransactions := _failedTransactions s;
     _roleMembers := _roleMembers s; _paused := _paused s;
     _status := _status s; _initialized := _initialized s |}.

Definition set_maxDelay (v : Z) (s : Storage) : Storage :=
  {| minDelay := minDelay s; maxDelay := v; gracePeriod := gracePeriod s;
     minExecutorTokenThreshold := minExecutorTokenThreshold s;
     lowThreatDelay := lowThreatDelay s;
     mediumThreatDelay := mediumThreatDelay s;
     highThreatDelay := highThreatDelay s;
     criticalThreatDelay := criticalThreatDelay s;
     functionThreatLevels := functionThreatLevels s;
     addressThreatLevels := addressThreatLevels s; justToken := justToken s;
     _timelockTransactions := _timelockTransactions s;
     queuedTransactions := queuedTransactions s;
     _failedTransactions := _failedTransactions s;
     _roleMembers := _roleMembers s; _paused := _paused s;
     _status := _status s; _initialized := _initialized s |}.

Definition set_gracePeriod (v : Z) (s : Storage) : Storage :=
  {| minDelay := minDelay s; maxDelay := maxDelay s; gracePeriod := v;
     minExecutorTokenThreshold := minExecutorTokenThreshold s;
     lowThreatDelay := lowThreatDelay s;
     mediumThreatDelay := mediumThreatDelay s;
     highThreatDelay := highThreatDelay s;
     criticalThreatDelay := criticalThreatDelay s;
     functionThreatLevels := functionThreatLevels s;
     addressThreatLevels := addressThreatLevels s; justToken := justToken s;
     _timelockTransactions := _timelockTransactions s;
     queuedTransactions := queuedTransactions s;
     _failedTransactions := _failedTransactions s;
     _roleMembers := _roleMembers s; _paused := _paused s;
     _status := _status s; _initialized := _initialized s |}.

Definition set_minExecutorTokenThreshold (v : Z) (s : Storage) : Storage :=
  {| minDelay := minDelay s; maxDelay := maxDelay s;
     gracePeriod := gracePeriod s; minExecutorTokenThreshold := v;
     lowThreatDelay := lowThreatDelay s;
     mediumThreatDelay := mediumThreatDelay s;
     highThreatDelay := highThreatDelay s;
     criticalThreatDelay := criticalThreatDelay s;
     functionThreatLevels := functionThreatLevels s;
     addressThreatLevels := addressThreatLevels s; justToken := justToken s;
     _timelockTransactions := _timelockTransactions s;
     queuedTransactions := queuedTransactions s;
     _failedTransactions := _failedTransactions s;
     _roleMembers := _roleMembers s; _paused := _paused s;
     _status := _status s; _initialized := _initialized s |}.

Definition set_lowThreatDelay (v : Z) (s : Storage) : Storage :=
  {| minDelay := minDelay s; maxDelay := maxDelay s;
     gracePeriod := gracePeriod s;
     minExecutorTokenThreshold := minExecutorTokenThreshold s;
     lowThreatDelay := v; mediumThreatDelay := mediumThreatDelay s;
     highThreatDelay := highThreatDelay s;
     criticalThreatDelay := criticalThreatDelay s;
     functionThreatLevels := functionThreatLevels s;
     addressThreatLevels := addressThreatLevels s; justToken := justToken s;
     _timelockTransactions := _timelockTransactions s;
     queuedTransactions := queuedTransactions s;
     _failedTransactions := _failedTransactions s;
     _roleMembers := _roleMembers s; _paused := _paused s;
     _status := _status s; _initialized := _initialized s |}.

Definition set_mediumThreatDelay (v : Z) (s : Storage) : Storage :=
  {| minDelay := minDelay s; maxDelay := maxDelay s;
     gracePeriod := gracePeriod s;
     minExecutorTokenThreshold := minExecutorTokenThreshold s;
     lowThreatDelay := lowThreatDelay s; mediumThreatDelay := v;
     highThreatDelay := highThreatDelay s;
     criticalThreatDelay := criticalThreatDelay s;
     functionThreatLevels := functionThreatLevels s;
     addressThreatLevels := addressThreatLevels s; justToken := justToken s;
     _timelockTransactions := _timelockTransactions s;
     queuedTransactions := queuedTransactions s;
     _failedTransactions := _failedTransactions s;
     _roleMembers := _roleMembers s; _paused := _paused s;
     _status := _status s; _initialized := _initialized s |}.

Definition set_highThreatDelay (v : Z) (s : Storage) : Storage :=
  {| minDelay := minDelay s; maxDelay := maxDelay s;
     gracePeriod := gracePeriod s;
     minExecutorTokenThreshold := minExecutorTokenThreshold s;
     lowThreatDelay := lowThreatDelay s;
     mediumThreatDelay := mediumThreatDelay s; highThreatDelay := v;
     criticalThreatDelay := criticalThreatDelay s;
     functionThreatLevels := functionThreatLevels s;
     addressThreatLevels := addressThreatLevels s; justToken := justToken s;
     _timelockTransactions := _timelockTransactions s;
     queuedTransactions := queuedTransactions s;
     _failedTransactions := _failedTransactions s;
     _roleMembers := _roleMembers s; _paused := _paused s;
     _status := _status s; _initialized := _initialized s |}.

Definition set_criticalThreatDelay (v : Z) (s : Storage) : Storage :=
  {| minDelay := minDelay s; maxDelay := maxDelay s;
     gracePeriod := gracePeriod s;
     minExecutorTokenThreshold := minExecutorTokenThreshold s;
     lowThreatDelay := lowThreatDelay s;
     mediumThreatDelay := mediumThreatDelay s;
     highThreatDelay := highThreatDelay s; criticalThreatDelay := v;
     functionThreatLevels := functionThreatLevels s;
     addressThreatLevels := addressThreatLevels s; justToken := justToken s;
     _timelockTransactions := _timelockTransactions s;
     queuedTransactions := queuedTransactions s;
     _failedTransactions := _failedTransactions s;
     _roleMembers := _roleMembers s; _paused := _paused s;
     _status := _status s; _initialized := _initialized s |}.

Definition set_functionThreatLevels (v : Z -> ThreatLevel) (s : Storage) : Storage :=
  {| minDelay := minDelay s; maxDelay := maxDelay s;
     gracePeriod := gracePeriod s;
     minExecutorTokenThreshold := minExecutorTokenThreshold s;
     lowThreatDelay := lowThreatDelay s;
     mediumThreatDelay := mediumThreatDelay s;
     highThreatDelay := highThreatDelay s;
     criticalThreatDelay := criticalThreatDelay s; functionThreatLevels := v;
     addressThreatLevels := addressThreatLevels s; justToken := justToken s;
     _timelockTransactions := _timelockTransactions s;
     queuedTransactions := queuedTransactions s;
     _failedTransactions := _failedTransactions s;
     _roleMembers := _roleMembers s; _paused := _paused s;
     _status := _status s; _initialized := _initialized s |}.

Definition set_addressThreatLevels (v : address -> ThreatLevel) (s : Storage) : Storage :=
  {| minDelay := minDelay s; maxDelay := maxDelay s;
     gracePeriod := gracePeriod s;
     minExecutorTokenThreshold := minExecutorTokenThreshold s;
     lowThreatDelay := lowThreatDelay s;
     mediumThreatDelay := mediumThreatDelay s;
     highThreatDelay := highThreatDelay s;
     criticalThreatDelay := criticalThreatDelay s;
     functionThreatLevels := functionThreatLevels s;
     addressThreatLevels := v; justToken := justToken s;
     _timelockTransactions := _timelockTransactions s;
     queuedTransactions := queuedTransactions s;
     _failedTransactions := _failedTransactions s;
     _roleMembers := _roleMembers s; _paused := _paused s;
     _status := _status s; _initialized := _initialized s |}.

Definition set_justToken (v : address) (s : Storage) : Storage :=
  {| minDelay := minDelay s; maxDelay := maxDelay s;
     gracePeriod := gracePeriod s;
     minExecutorTokenThreshold := minExecutorTokenThreshold s;
     lowThreatDelay := lowThreatDelay s;
     mediumThreatDelay := mediumThreatDelay s;
     highThreatDelay := highThreatDelay s;
     criticalThreatDelay := criticalThreatDelay s;
     functionThreatLevels := functionThreatLevels s;
     addressThreatLevels := addressThreatLevels s; justToken := v;
     _timelockTransactions := _timelockTransactions s;
     queuedTransactions := queuedTransactions s;
     _failedTransactions := _failedTransactions s;
     _roleMembers := _roleMembers s; _paused := _paused s;
     _status := _status s; _initialized := _initialized s |}.

Definition set_timelockTransactions (v : bytes32 -> TimelockTransaction) (s : Storage) : Storage :=
  {| minDelay := minDelay s; maxDelay := maxDelay s;
     gracePeriod := gracePeriod s;
     minExecutorTokenThreshold := minExecutorTokenThreshold s;
     lowThreatDelay := lowThreatDelay s;
     mediumThreatDelay := mediumThreatDelay s;
     highThreatDelay := highThreatDelay s;
     criticalThreatDelay := criticalThreatDelay s;
     functionThreatLevels := functionThreatLevels s;
     addressThreatLevels := addressThreatLevels s; justToken := justToken s;
     _timelockTransactions := v; queuedTransactions := queuedTransactions s;
     _failedTransactions := _failedTransactions s;
     _roleMembers := _roleMembers s; _paused := _paused s;
     _status := _status s; _initialized := _initialized s |}.

Definition set_queuedTransactions (v : bytes32 -> bool) (s : Storage) : Storage :=
  {| minDelay := minDelay s; maxDelay := maxDelay s;
     gracePeriod := gracePeriod s;
     minExecutorTokenThreshold := minExecutorTokenThreshold s;
     lowThreatDelay := lowThreatDelay s;
     mediumThreatDelay := mediumThreatDelay s;
     highThreatDelay := highThreatDelay s;
     criticalThreatDelay := criticalThreatDelay s;
     functionThreatLevels := functionThreatLevels s;
     addressThreatLevels := addressThreatLevels s; justToken := justToken s;
     _timelockTransactions := _timelockTransactions s;
     queuedTransactions := v; _failedTransactions := _failedTransactions s;
     _roleMembers := _roleMembers s; _paused := _paused s;
     _status := _status s; _initialized := _initialized s |}.

Definition set_failedTransactions (v : bytes32 -> bool) (s : Storage) : Storage :=
  {| minDelay := minDelay s; maxDelay := maxDelay s;
     gracePeriod := gracePeriod s;
     minExecutorTokenThreshold := minExecutorTokenThreshold s;
     lowThreatDelay := lowThreatDelay s;
     mediumThreatDelay := mediumThreatDelay s;
     highThreatDelay := highThreatDelay s;
     criticalThreatDelay := criticalThreatDelay s;
     functionThreatLevels := functionThreatLevels s;
     addressThreatLevels := addressThreatLevels s; justToken := justToken s;
     _timelockTransactions := _timelockTransactions s;
     queuedTransactions := queuedTransactions s; _failedTransactions := v;
     _roleMembers := _roleMembers s; _paused := _paused s;
     _status := _status s; _initialized := _initialized s |}.

Definition set_roleMembers (v : Role -> list address) (s : Storage) : Storage :=
  {| minDelay := minDelay s; maxDelay := maxDelay s;
     gracePeriod := gracePeriod s;
     minExecutorTokenThreshold := minExecutorTokenThreshold s;
     lowThreatDelay := lowThreatDelay s;
     mediumThreatDelay := mediumThreatDelay s;
     highThreatDelay := highThreatDelay s;
     criticalThreatDelay := criticalThreatDelay s;
     functionThreatLevels := functionThreatLevels s;
     addressThreatLevels := addressThreatLevels s; justToken := justToken s;
     _timelockTransactions := _timelockTransactions s;
     queuedTransactions := queuedTransactions s;
     _failedTransactions := _failedTransactions s; _roleMembers := v;
     _paused := _paused s; _status := _status s;
     _initialized := _initialized s |}.

Definition set_paused (v : bool) (s : Storage) : Storage :=
  {| minDelay := minDelay s; maxDelay := maxDelay s;
     gracePeriod := gracePeriod s;
     minExecutorTokenThreshold := minExecutorTokenThreshold s;
     lowThreatDelay := lowThreatDelay s;
     mediumThreatDelay := mediumThreatDelay s;
     highThreatDelay := highThreatDelay s;
     criticalThreatDelay := criticalThreatDelay s;
     functionThreatLevels := functionThreatLevels s;
     addressThreatLevels := addressThreatLevels s; justToken := justToken s;
     _timelockTransactions := _timelockTransactions s;
     queuedTransactions := queuedTransactions s;
     _failedTransactions := _failedTransactions s;
     _roleMembers := _roleMembers s; _paused := v; _status := _status s;
     _initialized := _initialized s |}.

Definition set_status (v : GuardStatus) (s : Storage) : Storage :=
  {| minDelay := minDelay s; maxDelay := maxDelay s;
     gracePeriod := gracePeriod s;
     minExecutorTokenThreshold := minExecutorTokenThreshold s;
     lowThreatDelay := lowThreatDelay s;
     mediumThreatDelay := mediumThreatDelay s;
     highThreatDelay := highThreatDelay s;
     criticalThreatDelay := criticalThreatDelay s;
     functionThreatLevels := functionThreatLevels s;
     addressThreatLevels := addressThreatLevels s; justToken := justToken s;
     _timelockTransactions := _timelockTransactions s;
     queuedTransactions := queuedTransactions s;
     _failedTransactions := _failedTransactions s;
     _roleMembers := _roleMembers s; _paused := _paused s; _status := v;
     _initialized := _initialized s |}.

Definition set_initialized (v : bool) (s : Storage) : Storage :=
  {| minDelay := minDelay s; maxDelay := maxDelay s;
     gracePeriod := gracePeriod s;
     minExecutorTokenThreshold := minExecutorTokenThreshold s;
     lowThreatDelay := lowThreatDelay s;
     mediumThreatDelay := mediumThreatDelay s;
     highThreatDelay := highThreatDelay s;
     criticalThreatDelay := criticalThreatDelay s;
     functionThreatLevels := functionThreatLevels s;
     addressThreatLevels := addressThreatLevels s; justToken := justToken s;
     _timelockTransactions := _timelockTransactions s;
     queuedTransactions := queuedTransactions s;
     _failedTransactions := _failedTransactions s;
     _roleMembers := _roleMembers s; _paused := _paused s;
     _status := _status s; _initialized := v |}.

(** ** The transaction environment *)

(** The external functions that write storage.  The upgrade entry points of
    the proxy pattern replace the code and are left out. *)
Inductive Call :=
| Call_setJustToken (tokenAddress : address)
| Call_executeExpiredTransaction (txHash : bytes32)
| Call_updateExecutorTokenThreshold (newThreshold : Z)
| Call_revokeContractRole (role : Role) (account : address)
| Call_grantContractRole (role : Role) (account : address)
| Call_queueTransactionWithThreatLevel (target : address) (value : Z)
    (data : bytes)
| Call_queueTransaction (target : address) (value : Z) (data : bytes)
    (delay : Z)
| Call_executeTransaction (txHash : bytes32)
| Call_markTransactionAsFailed (txHash : bytes32)
| Call_executeFailedTransaction (txHash : bytes32)
| Call_cancelTransaction (txHash : bytes32)
| Call_updateDelays (newMinDelay newMaxDelay newGracePeriod : Z)
| Call_updateThreatLevelDelays
    (newLowDelay newMediumDelay newHighDelay newCriticalDelay : Z)
| Call_setFunctionThreatLevel (selector : Z) (level : ThreatLevel)
| Call_setBatchFunctionThreatLevels (selectors : list Z)
    (levels : list ThreatLevel)
| Call_setAddressThreatLevel (target : address) (level : ThreatLevel)
| Call_setBatchAddressThreatLevels (targets : list address)
    (levels : list ThreatLevel)
| Call_queueDelayUpdate (newMinDelay newMaxDelay newGracePeriod : Z)
| Call_queueThreatLevelDelaysUpdate
    (newLowDelay newMediumDelay newHighDelay newCriticalDelay : Z)
| Call_setPaused (isPaused : bool)
| Call_initialize (initialMinDelay : Z) (proposers executors : list address)
    (admin : address)
| Call_grantRole (role : Role) (account : address)
| Call_revokeRole (role : Role) (account : address)
| Call_renounceRole (role : Role) (account : address).

(** What [justToken.balanceOf(user)], called inside [try], comes to. *)
Inductive TokenAnswer :=
(** The call returns a [uint256]. *)
| Balance (balance : Z)
(** The call reverts: the [catch] clause runs. *)
| CallReverts
(** There is no contract at the address, or what it returns is no
    [uint256]: the calling function itself reverts, without data, and the
    [catch] clause does not run. *)
| NoAnswer.

(** A call that comes back into the timelock while a callee runs: who makes
    it, what the token answers at that moment, and the function called. *)
Record Reentry := {
  caller : address;
  balances : address -> address -> TokenAnswer;
  request : Call
}.

Record Env := {
  msg_sender : address;
  block_timestamp : Z;
  (** [address(this)]. *)
  this : address;
  (** Outcome [(success, returnData)] of [target.call{value: value}(data)]. *)
  external_call : address -> Z -> bytes -> bool * bytes;
  (** The calls that the callee of [target.call{value: value}(data)] makes
      back into the timelock, in order. *)
  reentrant_calls : address -> Z -> bytes -> list Reentry;
  (** [balanceOf] of the token at the first address. *)
  balanceOf : address -> address -> TokenAnswer
}.

(** ** The state-and-revert monad *)

Record World := { st : Storage; effects : list Effect }.

(** A reverting computation still carries the world it had built up when it
    reverted; [call] is what discards it. *)
Inductive Res (A : Type) :=
| Ok (a : A) (w : World)
| Revert (e : Error) (w : World).

Arguments Ok {A} a w.
Arguments Revert {A} e w.

Definition M (A : Type) : Type := World -> Res A.

Definition ret {A} (a : A) : M A := fun w => Ok a w.

Definition bind {A B} (m : M A) (k : A -> M B) : M B :=
  fun w => match m w with
           | Ok a w' => k a w'
           | Revert e w' => Revert e w'
           end.

Definition revert {A} (e : Error) : M A := fun w => Revert e w.

Definition sload {A} (f : Storage -> A) : M A := fun w => Ok (f (st w)) w.

Definition sstore (f : Storage -> Storage) : M unit :=
  fun w => Ok tt {| st := f (st w); effects := effects w |}.

Definition emit (e : Effect) : M unit :=
  fun w => Ok tt {| st := st w; effects := effects w ++ [e] |}.

(** [if (b) revert e;] *)
Definition revert_if (b : bool) (e : Error) : M unit :=
  if b then revert e else ret tt.

Definition checked_add (a b : Z) : M Z :=
  match Uint256.add a b with
  | Some c => ret c
  | None => revert (Panic 0x11)
  end.

Notation "x <- c1 ;; c2" := (bind c1 (fun x => c2))
  (at level 61, c1 at next level, right associativity).
Notation "c1 ;; c2" := (bind c1 (fun _ => c2))
  (at level 61, right associativity).

Fixpoint for_each {A} (l : list A) (body : A -> M unit) : M unit :=
  match l with
  | [] => ret tt
  | x :: rest => body x ;; for_each rest body
  end.

(** How a transaction ends. *)
Inductive Outcome (A : Type) :=
| Success (result : A) (trace : list Effect)
| Reverted (e : Error).

Arguments Success {A} result trace.
Arguments Reverted {A} e.

(** Running an external function as a transaction on storage [s]: a revert
    restores [s] and drops every effect. *)
Definition call {A} (f : M A) (s : Storage) : Outcome A * Storage :=
  match f {| st := s; effects := [] |} with
  | Ok a w => (Success a (effects w), st w)
  | Revert e _ => (Reverted e, s)
  end.

(** ** The role directory

    Modelled from the spec: the contract inherits its role directory
    ([hasRole], [grantRole]/[revokeRole], [getRoleMemberCount],
    [getRoleMember]) from an access-control library whose source is not
    part of the repository.  Members of a role are kept in insertion order;
    removal moves the last member into the freed position; granting and
    revoking through the directory require the caller to administer the
    role, and every role is administered by [DEFAULT_ADMIN_ROLE]. *)

Definition hasRole (s : Storage) (role : Role) (account : address) : bool :=
  existsb (Z.eqb account) (_roleMembers s role).

Definition getRoleMemberCount (s : Storage) (role : Role) : Z :=
  Z.of_nat (length (_roleMembers s role)).

Definition getRoleMember (s : Storage) (role : Role) (index : nat)
  : option address :=
  nth_error (_roleMembers s role) index.

Fixpoint position (a : address) (l : list address) : option nat :=
  match l with
  | [] => None
  | x :: rest => if x =? a then Some O else option_map S (position a rest)
  end.

Fixpoint replace_at (i : nat) (v : address) (l : list address)
  : list address :=
  match l, i with
  | [], _ => []
  | _ :: rest, O => v :: rest
  | x :: rest, S j => x :: replace_at j v rest
  end.

Definition swap_and_pop (a : address) (l : list address) : list address :=
  match position a l with
  | None => l
  | Some i => removelast (replace_at i (last l 0) l)
  end.

Definition _grantRole (env : Env) (role : Role) (account : address) : M unit :=
  has <- sload (fun s => hasRole s role account) ;;
  if has then ret tt
  else
    sstore (fun s => set_roleMembers
      (write_role (_roleMembers s) role (_roleMembers s role ++ [account])) s) ;;
    emit (DirectoryRoleGranted role account (msg_sender env)).

Definition _revokeRole (env : Env) (role : Role) (account : address)
  : M unit :=
  has <- sload (fun s => hasRole s role account) ;;
  if has then
    sstore (fun s => set_roleMembers
      (write_role (_roleMembers s) role
         (swap_and_pop account (_roleMembers s role))) s) ;;
    emit (DirectoryRoleRevoked role account (msg_sender env))
  else ret tt.

Definition _setupRole := _grantRole.

Definition getRoleAdmin (role : Role) : Role := DEFAULT_ADMIN_ROLE.

(** The [onlyRole(role)] modifier. *)
Definition onlyRole {A} (env : Env) (role : Role) (body : M A) : M A :=
  has <- sload (fun s => hasRole s role (msg_sender env)) ;;
  revert_if (negb has) (MissingRole (msg_sender env) role) ;;
  body.

Definition grantRole (env : Env) (role : Role) (account : address) : M unit :=
  onlyRole env (getRoleAdmin role) (_grantRole env role account).

Definition revokeRole (env : Env) (role : Role) (account : address)
  : M unit :=
  onlyRole env (getRoleAdmin role) (_revokeRole env role account).

Definition renounceRole (env : Env) (role : Role) (account : address)
  : M unit :=
  revert_if (negb (account =? msg_sender env))
    (ErrorString "AccessControl: can only renounce roles for self") ;;
  _revokeRole env role account.

(** ** Pause switch, reentrancy guard, initializer *)

Definition whenNotPaused {A} (body : M A) : M A :=
  paused <- sload _paused ;;
  revert_if paused (ErrorString "Pausable: paused") ;;
  body.

Definition whenPaused {A} (body : M A) : M A :=
  paused <- sload _paused ;;
  revert_if (negb paused) (ErrorString "Pausable: not paused") ;;
  body.

Definition _pause (env : Env) : M unit :=
  whenNotPaused (sstore (set_paused true) ;; emit (Paused (msg_sender env))).

Definition _unpause (env : Env) : M unit :=
  whenPaused (sstore (set_paused false) ;; emit (Unpaused (msg_sender env))).

Definition nonReentrant {A} (body : M A) : M A :=
  status <- sload _status ;;
  revert_if (match status with ENTERED => true | NOT_ENTERED => false end)
    (ErrorString "ReentrancyGuard: reentrant call") ;;
  sstore (set_status ENTERED) ;;
  r <- body ;;
  sstore (set_status NOT_ENTERED) ;;
  ret r.

Definition initializer (body : M unit) : M unit :=
  done <- sload _initialized ;;
  revert_if done
    (ErrorString "Initializable: contract is already initialized") ;;
  sstore (set_initialized true) ;;
  body ;;
  emit Initialized.

(** ** The contract *)

Section Contract.

(** [target.call{value: value}(data)].  The three functions that make such
    a call, and [dispatch_with], are written over what the call does;
    [low_level_call] below is what it does. *)
Variable external : Env -> address -> Z -> bytes -> M (bool * bytes).

(** [bytes4(keccak256(signature))] *)
Definition selector_of (signature : string) : Z :=
  bytes4_of (keccak256 (list_byte_of_string signature)).

Definition write_executed (txHash : bytes32) (b : bool) (s : Storage)
  : Storage :=
  let t := _timelockTransactions s txHash in
  set_timelockTransactions
    (write_hash (_timelockTransactions s) txHash
       {| target := target t; value := value t; data := data t;
          eta := eta t; executed := b; canceled := canceled t |}) s.

Definition write_canceled (txHash : bytes32) (b : bool) (s : Storage)
  : Storage :=
  let t := _timelockTransactions s txHash in
  set_timelockTransactions
    (write_hash (_timelockTransactions s) txHash
       {| target := target t; value := value t; data := data t;
          eta := eta t; executed := executed t; canceled := b |}) s.

Definition write_failed (txHash : bytes32) (b : bool) (s : Storage)
  : Storage :=
  set_failedTransactions (write_hash (_failedTransactions s) txHash b) s.

Definition write_queued (txHash : bytes32) (b : bool) (s : Storage)
  : Storage :=
  set_queuedTransactions (write_hash (queuedTransactions s) txHash b) s.

Definition set_function_level (selector : Z) (level : ThreatLevel)
  (s : Storage) : Storage :=
  set_functionThreatLevels
    (write_Z (functionThreatLevels s) selector level) s.

Definition set_address_level (a : address) (level : ThreatLevel)
  (s : Storage) : Storage :=
  set_addressThreatLevels (write_Z (addressThreatLevels s) a level) s.

Definition days : Z := 86400.

Definition initialize (env : Env) (initialMinDelay : Z)
  (proposers executors : list address) (admin : address) : M unit :=
  initializer (
    revert_if (initialMinDelay =? 0) ZeroDelay ;;
    revert_if (admin =? 0) (ZeroAddress "admin") ;;
    sstore (set_paused false) ;;
    sstore (set_status NOT_ENTERED) ;;
    sstore (set_minDelay initialMinDelay) ;;
    sstore (set_maxDelay 2592000) ;;
    sstore (set_gracePeriod (14 * days)) ;;
    sstore (set_lowThreatDelay (1 * days)) ;;
    sstore (set_mediumThreatDelay (3 * days)) ;;
    sstore (set_highThreatDelay (7 * days)) ;;
    sstore (set_criticalThreatDelay (14 * days)) ;;
    sstore (set_minExecutorTokenThreshold (10 ^ 16)) ;;
    sstore (set_function_level
              (selector_of "transfer(address,uint256)") LOW) ;;
    sstore (set_function_level
              (selector_of "approve(address,uint256)") LOW) ;;
    sstore (set_function_level
              (selector_of "updateDelays(uint256,uint256,uint256)") MEDIUM) ;;
    sstore (set_function_level
              (selector_of
                 "updateThreatLevelDelays(uint256,uint256,uint256,uint256)")
              MEDIUM) ;;
    sstore (set_function_level
              (selector_of "updateGovParam(uint8,uint256)") MEDIUM) ;;
    sstore (set_function_level
              (selector_of "grantContractRole(bytes32,address)") HIGH) ;;
    sstore (set_function_level
              (selector_of "revokeContractRole(bytes32,address)") HIGH) ;;
    sstore (set_function_level (selector_of "upgradeTo(address)") CRITICAL) ;;
    sstore (set_function_level
              (selector_of "upgradeToAndCall(address,bytes)") CRITICAL) ;;
    sstore (set_function_level
              (selector_of "governanceMint(address,uint256)") HIGH) ;;
    sstore (set_function_level
              (selector_of "governanceBurn(address,uint256)") HIGH) ;;
    _setupRole env DEFAULT_ADMIN_ROLE admin ;;
    _setupRole env ADMIN_ROLE admin ;;
    _setupRole env TIMELOCK_ADMIN_ROLE admin ;;
    for_each proposers (fun p =>
      if negb (p =? 0) then _setupRole env PROPOSER_ROLE p else ret tt) ;;
    for_each executors (fun e =>
      if negb (e =? 0) then _setupRole env EXECUTOR_ROLE e else ret tt) ;;
    _setupRole env CANCELLER_ROLE admin ;;
    _setupRole env GUARDIAN_ROLE admin ;;
    _setupRole env GOVERNANCE_ROLE admin ;;
    emit (ContractInitialized admin initialMinDelay)).

Definition setJustToken (env : Env) (tokenAddress : address) : M unit :=
  onlyRole env ADMIN_ROLE (
    revert_if (tokenAddress =? 0) (ZeroAddress "tokenAddress") ;;
    sstore (set_justToken tokenAddress) ;;
    emit (JustTokenSet tokenAddress)).

Definition executeExpiredTransaction_with (env : Env) (txHash : bytes32)
  : M bytes :=
  whenNotPaused (nonReentrant (
    queued <- sload (fun s => queuedTransactions s txHash) ;;
    revert_if (negb queued) (TxNotQueued txHash) ;;
    transaction <- sload (fun s => _timelockTransactions s txHash) ;;
    revert_if (executed transaction) (TxAlreadyExecuted txHash) ;;
    revert_if (canceled transaction) (AlreadyCanceled txHash) ;;
    grace <- sload gracePeriod ;;
    deadline <- checked_add (eta transaction) grace ;;
    revert_if (block_timestamp env <=? deadline)
      (TransactionNotExpired txHash (eta transaction) grace
         (block_timestamp env)) ;;
    isAdmin <- sload (fun s => hasRole s ADMIN_ROLE (msg_sender env)) ;;
    isGovernance <-
      sload (fun s => hasRole s GOVERNANCE_ROLE (msg_sender env)) ;;
    revert_if (negb isAdmin && negb isGovernance)
      (NotAuthorized (msg_sender env) DEFAULT_ADMIN_ROLE) ;;
    let target := target transaction in
    let value := value transaction in
    let data := data transaction in
    sstore (write_executed txHash true) ;;
    emit (ExpiredTransactionExecuted txHash target value data) ;;
    r <- external env target value data ;;
    let (success, returnData) := r in
    (if negb success then
       sstore (write_failed txHash true) ;;
       emit (TransactionExecutionFailed txHash target returnData)
     else ret tt) ;;
    ret returnData)).

Definition updateExecutorTokenThreshold (env : Env) (newThreshold : Z)
  : M unit :=
  isAdmin <- sload (fun s => hasRole s ADMIN_ROLE (msg_sender env)) ;;
  isGovernance <-
    sload (fun s => hasRole s GOVERNANCE_ROLE (msg_sender env)) ;;
  revert_if (negb isAdmin && negb isGovernance
             && negb (msg_sender env =? this env))
    (NotAuthorized (msg_sender env) DEFAULT_ADMIN_ROLE) ;;
  sstore (set_minExecutorTokenThreshold newThreshold) ;;
  emit (ExecutorThresholdUpdated newThreshold).

(** The loop of [revokeContractRole]: walk the members in index order and
    stop at the first one that is not [account]; the zero address when
    there is none. *)
Fixpoint first_other_member (members : list address) (account : address)
  : address :=
  match members with
  | [] => 0
  | member :: rest =>
      if negb (member =? account) then member
      else first_other_member rest account
  end.

Definition revokeContractRole (env : Env) (role : Role) (account : address)
  : M unit :=
  onlyRole env ADMIN_ROLE (
    revert_if (account =? 0) (ZeroAddress "account") ;;
    (if role_eqb role ADMIN_ROLE then
       count <- sload (fun s => getRoleMemberCount s ADMIN_ROLE) ;;
       revert_if (negb ((1 <? count) || negb (account =? msg_sender env)))
         (NotAuthorized (msg_sender env) role)
     else ret tt) ;;
    (if role_eqb role GOVERNANCE_ROLE then
       count <- sload (fun s => getRoleMemberCount s GOVERNANCE_ROLE) ;;
       revert_if (count <=? 1) (NotAuthorized (msg_sender env) role) ;;
       members <- sload (fun s => _roleMembers s GOVERNANCE_ROLE) ;;
       let newGovernance := first_other_member members account in
       emit (GovernanceRoleTransferred account newGovernance)
     else ret tt) ;;
    (if role_eqb role PROPOSER_ROLE || role_eqb role EXECUTOR_ROLE then
       count <- sload (fun s => getRoleMemberCount s role) ;;
       revert_if (count <=? 1) (NotAuthorized (msg_sender env) role)
     else ret tt) ;;
    revokeRole env role account ;;
    emit (RoleRevoked role account)).

Definition grantContractRole (env : Env) (role : Role) (account : address)
  : M unit :=
  onlyRole env ADMIN_ROLE (
    revert_if (account =? 0) (ZeroAddress "account") ;;
    grantRole env role account ;;
    emit (RoleGranted role account) ;;
    if role_eqb role GOVERNANCE_ROLE
    then emit (GovernanceRoleChanged account true)
    else ret tt).

Definition getThreatLevel (s : Storage) (target : address) (data : bytes)
  : ThreatLevel :=
  let addressLevel := addressThreatLevels s target in
  if negb (level_eqb addressLevel LOW) then addressLevel
  else
    if 4 <=? Z.of_nat (length data) then
      let selector := Z.land (mload_contents data) selector_mask in
      let functionLevel := functionThreatLevels s selector in
      if negb (level_eqb functionLevel LOW) then functionLevel else LOW
    else LOW.

Definition getDelayForThreatLevel (s : Storage) (level : ThreatLevel) : Z :=
  if level_eqb level CRITICAL then criticalThreatDelay s
  else if level_eqb level HIGH then highThreatDelay s
  else if level_eqb level MEDIUM then mediumThreatDelay s
  else lowThreatDelay s.

Definition isAuthorizedByTokens (env : Env) (user : address) : M bool :=
  token <- sload justToken ;;
  if token =? 0 then ret false
  else
    match balanceOf env token user with
    | Balance balance =>
        threshold <- sload minExecutorTokenThreshold ;;
        ret (threshold <=? balance)
    | CallReverts => ret false
    | NoAnswer => revert RevertWithoutData
    end.

Definition _queueTransaction (env : Env) (target : address) (value : Z)
  (data : bytes) (delay : Z) (level : ThreatLevel) : M bytes32 :=
  revert_if (target =? 0) (ZeroAddress "target") ;;
  lo <- sload minDelay ;;
  revert_if (delay <? lo) (DelayTooShort delay lo) ;;
  hi <- sload maxDelay ;;
  revert_if (hi <? delay) (DelayTooLong delay hi) ;;
  when <- checked_add (block_timestamp env) delay ;;
  let txHash := keccak256 (abi_encode target value data when) in
  eta <- checked_add (block_timestamp env) delay ;;
  queued <- sload (fun s => queuedTransactions s txHash) ;;
  revert_if queued (TxAlreadyQueued txHash) ;;
  sstore (fun s => set_timelockTransactions
    (write_hash (_timelockTransactions s) txHash
       {| target := target; value := value; data := data; eta := eta;
          executed := false; canceled := false |}) s) ;;
  sstore (write_queued txHash true) ;;
  emit (TransactionQueued txHash target value data eta level) ;;
  emit (TransactionSubmitted txHash (msg_sender env)) ;;
  ret txHash.

Definition queueTransactionWithThreatLevel (env : Env) (target : address)
  (value : Z) (data : bytes) : M bytes32 :=
  whenNotPaused (
    isAuthorizedByTokens <- isAuthorizedByTokens env (msg_sender env) ;;
    isAuthorizedByRole <-
      sload (fun s => hasRole s PROPOSER_ROLE (msg_sender env)) ;;
    revert_if (negb isAuthorizedByTokens && negb isAuthorizedByRole)
      (NotAuthorized (msg_sender env) PROPOSER_ROLE) ;;
    level <- sload (fun s => getThreatLevel s target data) ;;
    delay <- sload (fun s => getDelayForThreatLevel s level) ;;
    _queueTransaction env target value data delay level).

Definition queueTransaction (env : Env) (target : address) (value : Z)
  (data : bytes) (delay : Z) : M bytes32 :=
  whenNotPaused (
    revert_if (target =? 0) (ZeroAddress "target") ;;
    lo <- sload minDelay ;;
    revert_if (delay <? lo) (DelayTooShort delay lo) ;;
    hi <- sload maxDelay ;;
    revert_if (hi <? delay) (DelayTooLong delay hi) ;;
    isProposer <- sload (fun s => hasRole s PROPOSER_ROLE (msg_sender env)) ;;
    revert_if (negb isProposer)
      (NotAuthorized (msg_sender env) PROPOSER_ROLE) ;;
    level <- sload (fun s => getThreatLevel s target data) ;;
    _queueTransaction env target value data delay level).

Definition _markTransactionAsFailed (txHash : bytes32) : M unit :=
  sstore (write_failed txHash true).

Definition executeTransaction_with (env : Env) (txHash : bytes32)
  : M bytes :=
  whenNotPaused (nonReentrant (
    queued <- sload (fun s => queuedTransactions s txHash) ;;
    revert_if (negb queued) (TxNotQueued txHash) ;;
    transaction <- sload (fun s => _timelockTransactions s txHash) ;;
    revert_if (executed transaction) (TxAlreadyExecuted txHash) ;;
    revert_if (canceled transaction) (AlreadyCanceled txHash) ;;
    revert_if (block_timestamp env <? eta transaction)
      (TxNotReady txHash (eta transaction) (block_timestamp env)) ;;
    grace <- sload gracePeriod ;;
    deadline <- checked_add (eta transaction) grace ;;
    revert_if (deadline <? block_timestamp env)
      (TxExpired txHash (eta transaction) grace (block_timestamp env)) ;;
    isAuthorized <- isAuthorizedByTokens env (msg_sender env) ;;
    (if negb isAuthorized then
       isExecutor <-
         sload (fun s => hasRole s EXECUTOR_ROLE (msg_sender env)) ;;
       revert_if (negb isExecutor)
         (NotAuthorized (msg_sender env) EXECUTOR_ROLE)
     else ret tt) ;;
    let target := target transaction in
    let value := value transaction in
    let data := data transaction in
    sstore (write_executed txHash true) ;;
    emit (TransactionExecuted txHash target value data) ;;
    r <- external env target value data ;;
    let (success, returnData) := r in
    (if negb success then
       _markTransactionAsFailed txHash ;;
       emit (TransactionExecutionFailed txHash target returnData) ;;
       revert (CallFailed target data)
     else ret tt) ;;
    ret returnData)).

Definition markTransactionAsFailed (env : Env) (txHash : bytes32) : M unit :=
  isAdmin <- sload (fun s => hasRole s ADMIN_ROLE (msg_sender env)) ;;
  isGovernance <-
    sload (fun s => hasRole s GOVERNANCE_ROLE (msg_sender env)) ;;
  revert_if (negb isAdmin && negb isGovernance)
    (NotAuthorized (msg_sender env) DEFAULT_ADMIN_ROLE) ;;
  queued <- sload (fun s => queuedTransactions s txHash) ;;
  revert_if (negb queued) (TxNotQueued txHash) ;;
  transaction <- sload (fun s => _timelockTransactions s txHash) ;;
  revert_if (negb (executed transaction))
    (ErrorString "Transaction not executed yet") ;;
  revert_if (canceled transaction) (AlreadyCanceled txHash) ;;
  _markTransactionAsFailed txHash ;;
  emit (TransactionExecutionFailed txHash (target transaction)
          (list_byte_of_string "Manually marked as failed")).

Definition executeFailedTransaction_with (env : Env) (txHash : bytes32)
  : M bytes :=
  whenNotPaused (nonReentrant (
    queued <- sload (fun s => queuedTransactions s txHash) ;;
    revert_if (negb queued) (TxNotQueued txHash) ;;
    transaction <- sload (fun s => _timelockTransactions s txHash) ;;
    revert_if (negb (executed transaction))
      (TransactionNotPreviouslyFailed txHash) ;;
    revert_if (canceled transaction) (AlreadyCanceled txHash) ;;
    failed <- sload (fun s => _failedTransactions s txHash) ;;
    revert_if (negb failed) (TransactionNotPreviouslyFailed txHash) ;;
    grace <- sload gracePeriod ;;
    deadline <- checked_add (eta transaction) grace ;;
    revert_if (deadline <? block_timestamp env)
      (TxExpired txHash (eta transaction) grace (block_timestamp env)) ;;
    isAdmin <- sload (fun s => hasRole s ADMIN_ROLE (msg_sender env)) ;;
    isGovernance <-
      sload (fun s => hasRole s GOVERNANCE_ROLE (msg_sender env)) ;;
    let isAuthorized := isAdmin || isGovernance in
    revert_if (negb isAuthorized)
      (NotAuthorized (msg_sender env) DEFAULT_ADMIN_ROLE) ;;
    let target := target transaction in
    let value := value transaction in
    let data := data transaction in
    sstore (write_failed txHash false) ;;
    emit (FailedTransactionRetried txHash target value data) ;;
    r <- external env target value data ;;
    let (success, returnData) := r in
    (if negb success then
       _markTransactionAsFailed txHash ;;
       emit (TransactionExecutionFailed txHash target returnData) ;;
       revert (CallFailed target data)
     else emit (TransactionExecuted txHash target value data)) ;;
    ret returnData)).

Definition wasTransactionFailed (s : Storage) (txHash : bytes32) : bool :=
  _failedTransactions s txHash.

Definition cancelTransaction (env : Env) (txHash : bytes32) : M unit :=
  whenNotPaused (
    queued <- sload (fun s => queuedTransactions s txHash) ;;
    revert_if (negb queued) (TxNotQueued txHash) ;;
    transaction <- sload (fun s => _timelockTransactions s txHash) ;;
    revert_if (executed transaction) (TxAlreadyExecuted txHash) ;;
    revert_if (canceled transaction) (AlreadyCanceled txHash) ;;
    isGuardian <- sload (fun s => hasRole s GUARDIAN_ROLE (msg_sender env)) ;;
    isCanceller <-
      sload (fun s => hasRole s CANCELLER_ROLE (msg_sender env)) ;;
    isProposer <- sload (fun s => hasRole s PROPOSER_ROLE (msg_sender env)) ;;
    revert_if (negb isGuardian && negb isCanceller && negb isProposer)
      (NotAuthorized (msg_sender env) DEFAULT_ADMIN_ROLE) ;;
    sstore (write_canceled txHash true) ;;
    sstore (write_queued txHash false) ;;
    emit (TransactionCanceled txHash)).

Definition getTransaction (s : Storage) (txHash : bytes32)
  : address * Z * bytes * Z * bool :=
  let txn := _timelockTransactions s txHash in
  (target txn, value txn, data txn, eta txn, executed txn).

Definition updateDelays (env : Env)
  (newMinDelay newMaxDelay newGracePeriod : Z) : M unit :=
  isAdmin <- sload (fun s => hasRole s ADMIN_ROLE (msg_sender env)) ;;
  isGovernance <-
    sload (fun s => hasRole s GOVERNANCE_ROLE (msg_sender env)) ;;
  revert_if (negb isAdmin && negb isGovernance
             && negb (msg_sender env =? this env))
    (NotAuthorized (msg_sender env) DEFAULT_ADMIN_ROLE) ;;
  revert_if (newMinDelay =? 0) ZeroDelay ;;
  revert_if (newMaxDelay <? newMinDelay) InvalidParams ;;
  revert_if (newGracePeriod =? 0) InvalidParams ;;
  sstore (set_minDelay newMinDelay) ;;
  sstore (set_maxDelay newMaxDelay) ;;
  sstore (set_gracePeriod newGracePeriod) ;;
  emit (DelaysUpdated newMinDelay newMaxDelay newGracePeriod).

Definition updateThreatLevelDelays (env : Env)
  (newLowDelay newMediumDelay newHighDelay newCriticalDelay : Z) : M unit :=
  isAdmin <- sload (fun s => hasRole s ADMIN_ROLE (msg_sender env)) ;;
  isGovernance <-
    sload (fun s => hasRole s GOVERNANCE_ROLE (msg_sender env)) ;;
  revert_if (negb isAdmin && negb isGovernance
             && negb (msg_sender env =? this env))
    (NotAuthorized (msg_sender env) DEFAULT_ADMIN_ROLE) ;;
  lo <- sload minDelay ;;
  revert_if (newLowDelay <? lo) (DelayTooShort newLowDelay lo) ;;
  revert_if (newMediumDelay <? newLowDelay) DelayHierarchyViolation ;;
  revert_if (newHighDelay <? newMediumDelay) DelayHierarchyViolation ;;
  revert_if (newCriticalDelay <? newHighDelay) DelayHierarchyViolation ;;
  hi <- sload maxDelay ;;
  revert_if (hi <? newCriticalDelay) (DelayTooLong newCriticalDelay hi) ;;
  sstore (set_lowThreatDelay newLowDelay) ;;
  sstore (set_mediumThreatDelay newMediumDelay) ;;
  sstore (set_highThreatDelay newHighDelay) ;;
  sstore (set_criticalThreatDelay newCriticalDelay) ;;
  emit (ThreatLevelDelaysUpdated newLowDelay newMediumDelay newHighDelay
          newCriticalDelay).

Definition setFunctionThreatLevel (env : Env) (selector : Z)
  (level : ThreatLevel) : M unit :=
  onlyRole env ADMIN_ROLE (
    sstore (set_function_level selector level) ;;
    emit (FunctionThreatLevelSet selector level)).

Definition setBatchFunctionThreatLevels (env : Env) (selectors : list Z)
  (levels : list ThreatLevel) : M unit :=
  onlyRole env ADMIN_ROLE (
    revert_if (negb (Nat.eqb (length selectors) (length levels)))
      InvalidParams ;;
    for_each (combine selectors levels) (fun p =>
      sstore (set_function_level (fst p) (snd p)) ;;
      emit (FunctionThreatLevelSet (fst p) (snd p)))).

Definition setAddressThreatLevel (env : Env) (target : address)
  (level : ThreatLevel) : M unit :=
  onlyRole env ADMIN_ROLE (
    sstore (set_address_level target level) ;;
    emit (AddressThreatLevelSet target level)).

Definition setBatchAddressThreatLevels (env : Env) (targets : list address)
  (levels : list ThreatLevel) : M unit :=
  onlyRole env ADMIN_ROLE (
    revert_if (negb (Nat.eqb (length targets) (length levels)))
      InvalidParams ;;
    for_each (combine targets levels) (fun p =>
      sstore (set_address_level (fst p) (snd p)) ;;
      emit (AddressThreatLevelSet (fst p) (snd p)))).

Definition queueDelayUpdate (env : Env)
  (newMinDelay newMaxDelay newGracePeriod : Z) : M bytes32 :=
  whenNotPaused (
    revert_if (newMinDelay =? 0) ZeroDelay ;;
    revert_if (newMaxDelay <? newMinDelay) InvalidParams ;;
    revert_if (newGracePeriod =? 0) InvalidParams ;;
    isProposer <- sload (fun s => hasRole s PROPOSER_ROLE (msg_sender env)) ;;
    revert_if (negb isProposer)
      (NotAuthorized (msg_sender env) PROPOSER_ROLE) ;;
    let data :=
      abi_encodeWithSelector
        (selector_of "updateDelays(uint256,uint256,uint256)")
        [newMinDelay; newMaxDelay; newGracePeriod] in
    queueTransactionWithThreatLevel env (this env) 0 data).

Definition queueThreatLevelDelaysUpdate (env : Env)
  (newLowDelay newMediumDelay newHighDelay newCriticalDelay : Z)
  : M bytes32 :=
  whenNotPaused (
    lo <- sload minDelay ;;
    revert_if (newLowDelay <? lo) (DelayTooShort newLowDelay lo) ;;
    revert_if (newMediumDelay <? newLowDelay) DelayHierarchyViolation ;;
    revert_if (newHighDelay <? newMediumDelay) DelayHierarchyViolation ;;
    revert_if (newCriticalDelay <? newHighDelay) DelayHierarchyViolation ;;
    hi <- sload maxDelay ;;
    revert_if (hi <? newCriticalDelay) (DelayTooLong newCriticalDelay hi) ;;
    isProposer <- sload (fun s => hasRole s PROPOSER_ROLE (msg_sender env)) ;;
    revert_if (negb isProposer)
      (NotAuthorized (msg_sender env) PROPOSER_ROLE) ;;
    let data :=
      abi_encodeWithSelector
        (selector_of
           "updateThreatLevelDelays(uint256,uint256,uint256,uint256)")
        [newLowDelay; newMediumDelay; newHighDelay; newCriticalDelay] in
    queueTransactionWithThreatLevel env (this env) 0 data).

Definition setPaused (env : Env) (isPaused : bool) : M unit :=
  onlyRole env GUARDIAN_ROLE (
    if isPaused
    then _pause env ;; emit (ContractPaused (msg_sender env))
    else _unpause env ;; emit (ContractUnpaused (msg_sender env))).

(** ** Transactions and reachable storage *)

Definition discard {A} (m : M A) : M unit := m ;; ret tt.

Definition dispatch_with (env : Env) (c : Call) : M unit :=
  match c with
  | Call_setJustToken a => setJustToken env a
  | Call_executeExpiredTransaction h =>
      discard (executeExpiredTransaction_with env h)
  | Call_updateExecutorTokenThreshold n => updateExecutorTokenThreshold env n
  | Call_revokeContractRole r a => revokeContractRole env r a
  | Call_grantContractRole r a => grantContractRole env r a
  | Call_queueTransactionWithThreatLevel t v d =>
      discard (queueTransactionWithThreatLevel env t v d)
  | Call_queueTransaction t v d delay =>
      discard (queueTransaction env t v d delay)
  | Call_executeTransaction h => discard (executeTransaction_with env h)
  | Call_markTransactionAsFailed h => markTransactionAsFailed env h
  | Call_executeFailedTransaction h =>
      discard (executeFailedTransaction_with env h)
  | Call_cancelTransaction h => cancelTransaction env h
  | Call_updateDelays a b c => updateDelays env a b c
  | Call_updateThreatLevelDelays a b c d =>
      updateThreatLevelDelays env a b c d
  | Call_setFunctionThreatLevel sel l => setFunctionThreatLevel env sel l
  | Call_setBatchFunctionThreatLevels sels ls =>
      setBatchFunctionThreatLevels env sels ls
  | Call_setAddressThreatLevel t l => setAddressThreatLevel env t l
  | Call_setBatchAddressThreatLevels ts ls =>
      setBatchAddressThreatLevels env ts ls
  | Call_queueDelayUpdate a b c => discard (queueDelayUpdate env a b c)
  | Call_queueThreatLevelDelaysUpdate a b c d =>
      discard (queueThreatLevelDelaysUpdate env a b c d)
  | Call_setPaused b => setPaused env b
  | Call_initialize m ps es a => initialize env m ps es a
  | Call_grantRole r a => grantRole env r a
  | Call_revokeRole r a => revokeRole env r a
  | Call_renounceRole r a => renounceRole env r a
  end.

End Contract.

(** *** The low-level call

    While the callee runs, the function that called it holds the
    reentrancy guard, so a call that comes back into one of the three
    guarded functions stops at the guard and makes no low-level call of its
    own; the functions of the nested calls are therefore taken over a call
    whose callee does not come back once more. *)

Definition with_call (w : World) (target : address) (value : Z)
  (data : bytes) : World :=
  {| st := st w; effects := effects w ++ [ExternalCall target value data] |}.

Definition nested_low_level_call (env : Env) (target : address) (value : Z)
  (data : bytes) : M (bool * bytes) :=
  fun w => Ok (external_call env target value data)
             (with_call w target value data).

(** The environment of a nested call: same block, same contract. *)
Definition nested_env (env : Env) (n : Reentry) : Env :=
  {| msg_sender := caller n;
     block_timestamp := block_timestamp env;
     this := this env;
     external_call := external_call env;
     reentrant_calls := fun _ _ _ => [];
     balanceOf := balances n |}.

(** One call back into the timelock: it commits, or it reverts and leaves
    the world as it found it; the callee goes on either way. *)
Definition reenter (env : Env) (w : World) (n : Reentry) : World :=
  match dispatch_with nested_low_level_call (nested_env env n) (request n) w
  with
  | Ok _ w' => w'
  | Revert _ _ => w
  end.

(** [target.call{value: value}(data)]: never reverts; what a callee that
    fails has done is undone with it. *)
Definition low_level_call (env : Env) (target : address) (value : Z)
  (data : bytes) : M (bool * bytes) :=
  fun w =>
    let r := external_call env target value data in
    Ok r (if fst r
          then fold_left (reenter env)
                 (reentrant_calls env target value data)
                 (with_call w target value data)
          else with_call w target value data).

Definition executeExpiredTransaction : Env -> bytes32 -> M bytes :=
  executeExpiredTransaction_with low_level_call.

Definition executeTransaction : Env -> bytes32 -> M bytes :=
  executeTransaction_with low_level_call.

Definition executeFailedTransaction : Env -> bytes32 -> M bytes :=
  executeFailedTransaction_with low_level_call.

Definition dispatch : Env -> Call -> M unit := dispatch_with low_level_call.

(** One committed transaction. *)
Definition step (env : Env) (c : Call) (s s' : Storage) : Prop :=
  exists trace, call (dispatch env c) s = (Success tt trace, s').

(** Storage the contract can be in: blank as deployed, or one committed
    transaction later ([initialize] is one of the transactions). *)
Inductive reachable : Storage -> Prop :=
| reachable_deployed : reachable zero_storage
| reachable_step env c s s' :
    reachable s -> step env c s s' -> reachable s'.

(** Running a list of transactions; the ones that revert leave no trace. *)
Fixpoint run (txs : list (Env * Call)) (s : Storage)
  : list Effect * Storage :=
  match txs with
  | [] => ([], s)
  | (env, c) :: rest =>
      match call (dispatch env c) s with
      | (Success _ trace, s') =>
          let (later, s'') := run rest s' in (trace ++ later, s'')
      | (Reverted _, _) => run rest s
      end
  end.

(** ** Vocabulary of the claims *)

(** [txHash] names a queued action that has neither run nor been
    cancelled. *)
Definition pending (s : Storage) (txHash : bytes32) : Prop :=
  queuedTransactions s txHash = true
  /\ executed (_timelockTransactions s txHash) = false
  /\ canceled (_timelockTransactions s txHash) = false.

(** The contract is not paused and no guarded call is in progress. *)
Definition operational (s : Storage) : Prop :=
  _paused s = false /\ _status s = NOT_ENTERED.

(** What [isAuthorizedByTokens(user)] returns on storage [s]; [None] when
    it reverts. *)
Definition authorized_by_tokens (env : Env) (s : Storage) (user : address)
  : option bool :=
  match isAuthorizedByTokens env user {| st := s; effects := [] |} with
  | Ok b _ => Some b
  | Revert _ _ => None
  end.

(** The authorization tests of the contract, by who passes them.  The
    caller of [executeTransaction] passes when the token check returns and
    either it or the Executor role says yes; likewise the caller of
    [queueTransactionWithThreatLevel], with the Proposer role. *)
Definition executor_authorized (env : Env) (s : Storage) : bool :=
  match authorized_by_tokens env s (msg_sender env) with
  | Some byTokens => byTokens || hasRole s EXECUTOR_ROLE (msg_sender env)
  | None => false
  end.

Definition proposer_authorized (env : Env) (s : Storage) : bool :=
  match authorized_by_tokens env s (msg_sender env) with
  | Some byTokens => byTokens || hasRole s PROPOSER_ROLE (msg_sender env)
  | None => false
  end.

(** The callee of the call does not come back into the timelock. *)
Definition inert (env : Env) (target : address) (value : Z) (data : bytes)
  : Prop :=
  reentrant_calls env target value data = [].

Definition admin_or_governance (env : Env) (s : Storage) : bool :=
  hasRole s ADMIN_ROLE (msg_sender env)
  || hasRole s GOVERNANCE_ROLE (msg_sender env).

Definition cancel_authorized (env : Env) (s : Storage) : bool :=
  hasRole s GUARDIAN_ROLE (msg_sender env)
  || hasRole s CANCELLER_ROLE (msg_sender env)
  || hasRole s PROPOSER_ROLE (msg_sender env).

(** Admin, Governance, or the contract calling itself. *)
Definition config_authorized (env : Env) (s : Storage) : bool :=
  admin_or_governance env s || (msg_sender env =? this env).

(** A queue request that passes the parameter checks of
    [_queueTransaction] at the time of [env]. *)
Definition valid_request (env : Env) (s : Storage) (target : address)
  (delay : Z) : Prop :=
  target <> 0
  /\ minDelay s <= delay <= maxDelay s
  /\ block_timestamp env + delay <= Uint256.max.

(** The record [_queueTransaction] stores. *)
Definition fresh_record (target : address) (value : Z) (data : bytes)
  (eta : Z) : TimelockTransaction :=
  {| target := target; value := value; data := data; eta := eta;
     executed := false; canceled := false |}.


(** The trace records that [txHash] was queued. *)
Definition queued_event (txHash : bytes32) (trace : list Effect) : Prop :=
  exists target value data eta level,
    In (TransactionQueued txHash target value data eta level) trace.

Definition tier_delays (s : Storage) : Z * Z * Z * Z :=
  (lowThreatDelay s, mediumThreatDelay s, highThreatDelay s,
   criticalThreatDelay s).

End Model.

Arguments Ok {_ A} a w.
Arguments Revert {_ A} e w.
Arguments Success {_ A} result trace.
Arguments Reverted {_ A} e.

(** ** A small deployment

    Account 1 is the admin, 2 a proposer, 3 an executor; the contract lives
    at address 1000 and no token is configured.  Digests are taken with
    [PreimageKeccak]. *)

Section Deployment.

#[local] Existing Instance PreimageKeccak.

Definition sample_env (sender : address) (now : Z) (callee_succeeds : bool)
  : Env :=
  {| msg_sender := sender;
     block_timestamp := now;
     this := 1000;
     external_call := fun _ _ _ => (callee_succeeds, []);
     reentrant_calls := fun _ _ _ => [];
     balanceOf := fun _ _ => CallReverts |}.

Definition sample_payload : bytes := [x01; x02; x03; x04].

(** The id of the request [(77, 0, sample_payload)] scheduled for time 10. *)
Definition sample_id : bytes32 := keccak256 (abi_encode 77 0 sample_payload 10).

Definition deploy : list (Env * Call) :=
  [(sample_env 1 0 true, Call_initialize 1 [2] [3] 1)].

Definition queue_sample : list (Env * Call) :=
  deploy ++ [(sample_env 2 0 true, Call_queueTransaction 77 0 sample_payload 10)].

Definition sample_initial : Storage := snd (run deploy zero_storage).

Definition sample_queued : Storage := snd (run queue_sample zero_storage).

(** The same, after the admin has raised the grace period to the largest
    [uint256]. *)
Definition sample_long_grace : Storage :=
  snd (run (deploy
            ++ [(sample_env 1 0 true, Call_updateDelays 1 2592000 Uint256.max);
                (sample_env 2 0 true,
                 Call_queueTransaction 77 0 sample_payload 10)])
         zero_storage).

(** The sample request queued, cancelled at time 1, and queued again with
    the delay that reaches the same time 10. *)
Definition requeued_after_cancel : list (Env * Call) :=
  queue_sample
    ++ [(sample_env 2 1 true, Call_cancelTransaction sample_id);
        (sample_env 2 1 true, Call_queueTransaction 77 0 sample_payload 9)].


(** The sample request queued, then the contract paused by the admin. *)
Definition sample_paused : Storage :=
  snd (run (queue_sample ++ [(sample_env 1 0 true, Call_setPaused true)])
         zero_storage).

(** The sample request queued and cancelled at time 1. *)
Definition sample_cancelled : Storage :=
  snd (run (queue_sample
            ++ [(sample_env 2 1 true, Call_cancelTransaction sample_id)])
         zero_storage).

(** The sample request executed at its [eta] by the executor. *)
Definition execute_sample : list (Env * Call) :=
  queue_sample ++ [(sample_env 3 10 true, Call_executeTransaction sample_id)].

Definition sample_executed : Storage := snd (run execute_sample zero_storage).

(** The same, then marked as failed by the admin at time 15. *)
Definition sample_failed : Storage :=
  snd (run (execute_sample
            ++ [(sample_env 1 15 true,
                 Call_markTransactionAsFailed sample_id)])
         zero_storage).


(** The sample request queued, then address 500 set as token by the
    admin. *)
Definition sample_token_set : Storage :=
  snd (run (queue_sample ++ [(sample_env 1 0 true, Call_setJustToken 500)])
         zero_storage).

(** An environment in which the token gives no answer. *)
Definition silent_token_env (sender : address) (now : Z) : Env :=
  {| msg_sender := sender;
     block_timestamp := now;
     this := 1000;
     external_call := fun _ _ _ => (true, []);
     reentrant_calls := fun _ _ _ => [];
     balanceOf := fun _ _ => NoAnswer |}.

(** A change of the bounds, queued by the proposer as a call of the
    contract to itself. *)
Definition update_payload : bytes :=
  abi_encodeWithSelector (selector_of "updateDelays(uint256,uint256,uint256)")
    [2; 2592000; 100].

Definition update_id : bytes32 :=
  keccak256 (abi_encode 1000 0 update_payload (3 * days)).

Definition sample_update_queued : Storage :=
  snd (run (deploy
            ++ [(sample_env 2 0 true, Call_queueDelayUpdate 2 2592000 100)])
         zero_storage).

(** The environment in which the contract, called with [update_payload],
    runs its own [updateDelays]. *)
Definition self_call_env (sender : address) (now : Z) : Env :=
  {| msg_sender := sender;
     block_timestamp := now;
     this := 1000;
     external_call := fun _ _ _ => (true, []);
     reentrant_calls := fun _ _ _ =>
       [{| caller := 1000;
           balances := fun _ _ => CallReverts;
           request := Call_updateDelays 2 2592000 100 |}];
     balanceOf := fun _ _ => CallReverts |}.

(** An environment whose callee has the admin, account 1, mark the sample
    transaction failed while it runs. *)
Definition marking_env (sender : address) (now : Z) : Env :=
  {| msg_sender := sender;
     block_timestamp := now;
     this := 1000;
     external_call := fun _ _ _ => (true, []);
     reentrant_calls := fun _ _ _ =>
       [{| caller := 1;
           balances := fun _ _ => CallReverts;
           request := Call_markTransactionAsFailed sample_id |}];
     balanceOf := fun _ _ => CallReverts |}.

End Deployment.

(** * Properties of the byte encodings *)

Lemma Z_of_byte_range (b : byte) : 0 <= Z_of_byte b < 256.
Proof.
  unfold Z_of_byte. pose proof (Byte.to_N_bounded b). lia.
Qed.

Lemma Z_of_byte_of_Z (z : Z) : Z_of_byte (byte_of_Z z) = z mod 256.
Proof.
  unfold Z_of_byte, byte_of_Z.
  assert (Hr : 0 <= z mod 256 < 256) by (apply Z.mod_pos_bound; lia).
  destruct (Byte.of_N (Z.to_N (z mod 256))) as [b|] eqn:E.
  - apply Byte.to_of_N in E. rewrite E. apply Z2N.id. lia.
  - apply Byte.of_N_None_iff in E. lia.
Qed.

Lemma be_fold_shift (l : bytes) (acc : Z) :
  fold_left (fun a b => a * 256 + Z_of_byte b) l acc
  = acc * 256 ^ Z.of_nat (length l) + be_to_Z l.
Proof.
  unfold be_to_Z. revert acc.
  induction l as [|b l IH]; intros acc.
  - simpl. lia.
  - cbn [fold_left length]. rewrite IH, (IH (0 * 256 + Z_of_byte b)).
    rewrite Nat2Z.inj_succ, Z.pow_succ_r by lia. ring.
Qed.

Lemma be_to_Z_app (a b : bytes) :
  be_to_Z (a ++ b) = be_to_Z a * 256 ^ Z.of_nat (length b) + be_to_Z b.
Proof.
  unfold be_to_Z at 1. rewrite fold_left_app, be_fold_shift. reflexivity.
Qed.

Lemma be_to_Z_range (l : bytes) : 0 <= be_to_Z l < 256 ^ Z.of_nat (length l).
Proof.
  induction l as [|b l IH] using rev_ind.
  - cbn. lia.
  - rewrite be_to_Z_app, length_app. cbn [length].
    replace (be_to_Z [b]) with (Z_of_byte b) by (cbn; lia).
    pose proof (Z_of_byte_range b).
    rewrite Nat2Z.inj_add, Z.pow_add_r by lia.
    change (256 ^ Z.of_nat 1) with 256. nia.
Qed.

Lemma be_bytes_length (n : nat) (z : Z) : length (be_bytes n z) = n.
Proof.
  revert z. induction n as [|n IH]; intros z; cbn [be_bytes].
  - reflexivity.
  - rewrite length_app, IH. cbn. lia.
Qed.

Lemma be_to_Z_be_bytes (n : nat) (z : Z) :
  be_to_Z (be_bytes n z) = z mod 256 ^ Z.of_nat n.
Proof.
  revert z. induction n as [|n IH]; intros z; cbn [be_bytes].
  - cbn. now rewrite Z.mod_1_r.
  - rewrite be_to_Z_app, IH. cbn [length].
    replace (be_to_Z [byte_of_Z z]) with (z mod 256)
      by (cbn; rewrite Z_of_byte_of_Z; lia).
    change (256 ^ Z.of_nat 1) with 256.
    rewrite (Nat2Z.inj_succ n), Z.pow_succ_r by lia.
    rewrite (Z.rem_mul_r z 256 (256 ^ Z.of_nat n)) by lia. ring.
Qed.

Lemma word_length (z : Z) : length (word z) = 32%nat.
Proof. apply be_bytes_length. Qed.

Lemma word_inj (a b : Z) :
  Uint256.in_range a -> Uint256.in_range b -> word a = word b -> a = b.
Proof.
  unfold Uint256.in_range, Uint256.max, word. intros Ha Hb E.
  apply (f_equal be_to_Z) in E. rewrite !be_to_Z_be_bytes in E.
  change (256 ^ Z.of_nat 32) with (2 ^ 256) in E.
  rewrite !Z.mod_small in E by lia. exact E.
Qed.

Lemma app_inj_length {A} (a c b d : list A) :
  length a = length c -> a ++ b = c ++ d -> a = c /\ b = d.
Proof.
  revert c. induction a as [|x a IH]; intros [|y c] L E;
    try discriminate.
  - now split.
  - cbn in E. injection E as -> E. injection L as L.
    destruct (IH _ L E) as [-> ->]. now split.
Qed.

Lemma padding_bound (n : nat) : (padding n < 32)%nat.
Proof. unfold padding. apply Nat.mod_upper_bound. lia. Qed.

Lemma length_word_inj (n m : nat) :
  word (Z.of_nat n) = word (Z.of_nat m) ->
  (n + padding n = m + padding m)%nat -> n = m.
Proof.
  intros E L. apply (f_equal be_to_Z) in E. unfold word in E.
  rewrite !be_to_Z_be_bytes in E.
  pose proof (padding_bound n). pose proof (padding_bound m).
  set (W := 256 ^ Z.of_nat 32) in *.
  assert (HW : 32 < W) by (subst W; reflexivity).
  pose proof (Z.div_mod (Z.of_nat n) W ltac:(lia)) as Hn.
  pose proof (Z.div_mod (Z.of_nat m) W ltac:(lia)) as Hm.
  rewrite E in Hn.
  assert (D : Z.of_nat n - Z.of_nat m
              = W * (Z.of_nat n / W - Z.of_nat m / W)) by lia.
  assert (Q : Z.of_nat n / W - Z.of_nat m / W = 0) by nia.
  lia.
Qed.

Theorem abi_encode_inj (t1 v1 : Z) (d1 : bytes) (e1 t2 v2 : Z) (d2 : bytes)
  (e2 : Z) :
  Uint256.in_range t1 -> Uint256.in_range v1 -> Uint256.in_range e1 ->
  Uint256.in_range t2 -> Uint256.in_range v2 -> Uint256.in_range e2 ->
  abi_encode t1 v1 d1 e1 = abi_encode t2 v2 d2 e2 ->
  t1 = t2 /\ v1 = v2 /\ d1 = d2 /\ e1 = e2.
Proof.
  intros Ht1 Hv1 He1 Ht2 Hv2 He2 E. unfold abi_encode in E.
  pose proof (f_equal (@length byte) E) as L.
  repeat rewrite ?length_app, ?word_length, ?repeat_length in L.
  apply app_inj_length in E; [|now rewrite !word_length].
  destruct E as [Et E].
  apply app_inj_length in E; [|now rewrite !word_length].
  destruct E as [Ev E].
  apply app_inj_length in E; [|now rewrite !word_length].
  destruct E as [_ E].
  apply app_inj_length in E; [|now rewrite !word_length].
  destruct E as [Ee E].
  apply app_inj_length in E; [|now rewrite !word_length].
  destruct E as [El E].
  assert (N : length d1 = length d2) by (apply length_word_inj; [exact El|lia]).
  apply app_inj_length in E; [|exact N].
  destruct E as [Ed _].
  repeat split; auto using word_inj.
Qed.

Lemma selector_mask_bits (n : Z) :
  0 <= n -> Z.testbit selector_mask n = (224 <=? n) && (n <? 256).
Proof.
  intros Hn.
  change selector_mask with (Z.shiftl (Z.ones 32) 224).
  rewrite Z.shiftl_spec by lia.
  destruct (224 <=? n) eqn:E1.
  - apply Z.leb_le in E1. rewrite Z.testbit_ones_nonneg by lia.
    cbn [andb]. destruct (n <? 256) eqn:E2;
      [apply Z.ltb_lt in E2; apply Z.ltb_lt | apply Z.ltb_ge in E2; apply Z.ltb_ge]; lia.
  - apply Z.leb_gt in E1. cbn [andb]. apply Z.testbit_neg_r. lia.
Qed.

Lemma mask_leading_bytes (hi lo : Z) :
  0 <= hi < 2 ^ 32 -> 0 <= lo < 2 ^ 224 ->
  Z.land (hi * 2 ^ 224 + lo) selector_mask = hi * 2 ^ 224.
Proof.
  intros Hhi Hlo. apply Z.bits_inj'. intros n Hn.
  rewrite Z.land_spec, selector_mask_bits by exact Hn.
  destruct (224 <=? n) eqn:E1; cbn [andb].
  - apply Z.leb_le in E1.
    assert (Hx : Z.testbit (hi * 2 ^ 224 + lo) n = Z.testbit hi (n - 224)).
    { replace n with ((n - 224) + 224) at 1 by lia.
      rewrite <- Z.div_pow2_bits by lia.
      rewrite Z.div_add_l by lia. rewrite (Z.div_small lo) by lia.
      now rewrite Z.add_0_r. }
    rewrite Hx, Z.mul_pow2_bits by lia.
    destruct (n <? 256) eqn:E2; [now rewrite andb_true_r|].
    apply Z.ltb_ge in E2. rewrite andb_false_r. symmetry.
    destruct (Z.eq_dec hi 0) as [->|Hnz]; [apply Z.testbit_0_l|].
    apply Z.bits_above_log2; [lia|].
    apply Z.log2_lt_pow2; [lia|].
    apply Z.lt_le_trans with (2 ^ 32); [lia|].
    apply Z.pow_le_mono_r; lia.
  - apply Z.leb_gt in E1. rewrite andb_false_r. symmetry.
    apply Z.mul_pow2_bits_low. lia.
Qed.

Lemma mask_of_word (mem : bytes) :
  length mem = 32%nat ->
  Z.land (be_to_Z mem) selector_mask = be_to_Z (firstn 4 mem) * 2 ^ 224.
Proof.
  intros L. rewrite <- (firstn_skipn 4 mem) at 1.
  rewrite be_to_Z_app.
  assert (L4 : length (firstn 4 mem) = 4%nat) by (rewrite length_firstn; lia).
  assert (L28 : length (skipn 4 mem) = 28%nat) by (rewrite length_skipn; lia).
  rewrite L28.
  pose proof (be_to_Z_range (firstn 4 mem)) as R4. rewrite L4 in R4.
  pose proof (be_to_Z_range (skipn 4 mem)) as R28. rewrite L28 in R28.
  change (256 ^ Z.of_nat 28) with (2 ^ 224) in *.
  change (256 ^ Z.of_nat 4) with (2 ^ 32) in *.
  now apply mask_leading_bytes.
Qed.

(** The mask keeps exactly the first four bytes of the payload, whatever
    follows the payload in memory. *)
Lemma selector_ignores_tail (data tail : bytes) :
  (4 <= length data)%nat -> (32 <= length (data ++ tail))%nat ->
  Z.land (be_to_Z (firstn 32 (data ++ tail))) selector_mask
  = leading_selector data.
Proof.
  intros L4 L32. rewrite mask_of_word by (rewrite length_firstn; lia).
  unfold leading_selector. f_equal. f_equal.
  rewrite firstn_firstn. change (Nat.min 4 32) with 4%nat.
  rewrite firstn_app.
  replace (4 - length data)%nat with 0%nat by lia.
  cbn [firstn]. now rewrite app_nil_r.
Qed.

Lemma selector_of_payload (data : bytes) :
  (4 <= length data)%nat ->
  Z.land (mload_contents data) selector_mask = leading_selector data.
Proof.
  intros L. unfold mload_contents. apply selector_ignores_tail; [exact L|].
  rewrite length_app, repeat_length. lia.
Qed.

(** * The member lists of the role directory *)














(** * Properties of the contract *)

Section Proofs.
Context `{Keccak}.

Arguments hasRole : simpl never.
Arguments isAuthorizedByTokens : simpl never.
Arguments authorized_by_tokens : simpl never.
Arguments getThreatLevel : simpl never.
Arguments getDelayForThreatLevel : simpl never.
Arguments getRoleMemberCount : simpl never.
Arguments abi_encode : simpl never.
Arguments abi_encodeWithSelector : simpl never.
Arguments selector_of : simpl never.
Arguments Uint256.add : simpl never.
Arguments Z.add : simpl never.
Arguments Z.mul : simpl never.
Arguments Z.pow : simpl never.
Arguments Z.ltb : simpl never.
Arguments Z.leb : simpl never.
Arguments Z.eqb : simpl never.

Ltac monad_unfold :=
  unfold call, whenNotPaused, whenPaused, nonReentrant, onlyRole,
    nested_low_level_call, with_call, _markTransactionAsFailed, checked_add,
    bind, sload, sstore, emit, revert_if, revert, ret, discard in *.

(** ** The token check *)

Lemma authorized_by_tokens_eq env s user :
  authorized_by_tokens env s user
  = if justToken s =? 0 then Some false
    else
      match balanceOf env (justToken s) user with
      | Balance balance => Some (minExecutorTokenThreshold s <=? balance)
      | CallReverts => Some false
      | NoAnswer => None
      end.
Proof.
  unfold authorized_by_tokens, isAuthorizedByTokens. monad_unfold.
  cbn [st]. destruct (justToken s =? 0); [reflexivity|].
  destruct (balanceOf env (justToken s) user); reflexivity.
Qed.

(** [isAuthorizedByTokens] reads and leaves the world as it is. *)
Lemma isAuthorizedByTokens_run env user w :
  isAuthorizedByTokens env user w
  = match authorized_by_tokens env (st w) user with
    | Some b => Ok b w
    | None => Revert RevertWithoutData w
    end.
Proof.
  rewrite authorized_by_tokens_eq. unfold isAuthorizedByTokens.
  monad_unfold. destruct (justToken (st w) =? 0); [reflexivity|].
  destruct (balanceOf env (justToken (st w)) user); reflexivity.
Qed.

(** * Step-wise preservation *)

(** [keeps P m]: when [m] starts in a world satisfying [P] and does not
    revert, it ends in one. *)
Definition keeps {A} (P : World -> Prop) (m : M A) : Prop :=
  forall w, P w ->
    match m w with
    | Ok _ w' => P w'
    | Revert _ _ => True
    end.

Lemma keeps_ret {A} P (a : A) : keeps P (ret a).
Proof. intros w HP. exact HP. Qed.

Lemma keeps_revert {A} P e : keeps P (@revert _ A e).
Proof. intros w HP. exact I. Qed.

Lemma keeps_bind {A B} P (m : M A) (k : A -> M B) :
  keeps P m -> (forall a, keeps P (k a)) -> keeps P (bind m k).
Proof.
  intros Hm Hk w HP. unfold bind. specialize (Hm w HP).
  destruct (m w) as [a w'|e w']; [apply (Hk a w' Hm) | exact I].
Qed.

Lemma keeps_sload {A} P (f : Storage -> A) : keeps P (sload f).
Proof. intros w HP. destruct w. exact HP. Qed.

Lemma keeps_revert_if P b e : keeps P (revert_if b e).
Proof. destruct b; [apply keeps_revert | apply keeps_ret]. Qed.

Lemma keeps_checked_add P a b : keeps P (checked_add a b).
Proof.
  unfold checked_add. destruct (Uint256.add a b);
    [apply keeps_ret | apply keeps_revert].
Qed.

Lemma keeps_sstore (P : World -> Prop) f :
  (forall w, P w -> P {| st := f (st w); effects := effects w |}) ->
  keeps P (sstore f).
Proof. intros Hf w HP. apply Hf, HP. Qed.

Lemma keeps_emit (P : World -> Prop) e :
  (forall w, P w -> P {| st := st w; effects := effects w ++ [e] |}) ->
  keeps P (emit e).
Proof. intros He w HP. apply He, HP. Qed.

Lemma keeps_for_each {A} P (l : list A) body :
  (forall x, keeps P (body x)) -> keeps P (for_each l body).
Proof.
  intros Hb. induction l as [|x l IH]; cbn [for_each].
  - apply keeps_ret.
  - apply keeps_bind; [apply Hb | intros _; exact IH].
Qed.

Lemma keeps_isAuthorizedByTokens P env user :
  keeps P (isAuthorizedByTokens env user).
Proof.
  intros w HP. rewrite isAuthorizedByTokens_run.
  now destruct (authorized_by_tokens env (st w) user).
Qed.

Lemma keeps_call {A} (P : World -> Prop) (m : M A) s r trace s' :
  keeps P m -> P {| st := s; effects := [] |} ->
  call m s = (Success r trace, s') -> P {| st := s'; effects := trace |}.
Proof.
  intros Hm HP. unfold call. specialize (Hm _ HP).
  destruct (m _) as [a w|e w]; [|discriminate].
  intros E. injection E as _ <- <-. now destruct w.
Qed.

(** A predicate on the storage alone, lifted to worlds. *)
Definition on_storage (Q : Storage -> Prop) : World -> Prop :=
  fun w => Q (st w).

Ltac head_of t :=
  match t with
  | ?f _ => head_of f
  | _ => t
  end.

(** Discharges [keeps P m] one statement at a time, by the shape of the
    statement: [leaf] proves what is known about whole functions,
    [solve_write] and [solve_emit] close the obligations of storage writes
    and events, and any other function is opened. *)
Ltac keeps_step leaf solve_write solve_emit :=
  lazymatch goal with
  | |- keeps _ (bind _ _) => apply keeps_bind; [|intros ?]
  | |- keeps _ (ret _) => apply keeps_ret
  | |- keeps _ (revert _) => apply keeps_revert
  | |- keeps _ (revert_if _ _) => apply keeps_revert_if
  | |- keeps _ (sload _) => apply keeps_sload
  | |- keeps _ (checked_add _ _) => apply keeps_checked_add
  | |- keeps _ (isAuthorizedByTokens _ _) => apply keeps_isAuthorizedByTokens
  | |- keeps _ (for_each _ _) => apply keeps_for_each; intros ?
  | |- keeps _ (sstore _) => apply keeps_sstore; solve_write
  | |- keeps _ (emit _) => apply keeps_emit; solve_emit
  | |- keeps _ (if ?b then _ else _) => destruct b
  | |- keeps _ (let (_, _) := ?p in _) => destruct p
  | |- keeps _ (match ?o with Some _ => _ | None => _ end) => destruct o
  | |- keeps _ ?m =>
      first [ leaf
            | progress cbv beta zeta
            | let f := head_of m in progress unfold f ]
  end.

Ltac keeps_with leaf solve_write solve_emit :=
  repeat keeps_step leaf solve_write solve_emit.

Ltac unchanged := intros ? ?; assumption.

(** ** Low-level calls

    [calls_out P ext]: the call [ext] returns what the callee answers,
    leaves the world as it was (but for the record of the call) when the
    callee fails, and carries [P] through. *)
Definition calls_out (P : World -> Prop)
  (ext : Env -> address -> Z -> bytes -> M (bool * bytes)) : Prop :=
  forall env t v d w,
    exists w',
      ext env t v d w = Ok (external_call env t v d) w'
      /\ (fst (external_call env t v d) = false -> w' = with_call w t v d)
      /\ (P w -> P w').

Definition survives_call (P : World -> Prop) : Prop :=
  forall w t v d, P w -> P (with_call w t v d).

Lemma survives_call_on_storage Q : survives_call (on_storage Q).
Proof. intros w t v d HP. exact HP. Qed.

Lemma calls_out_keeps P ext :
  calls_out P ext -> forall env t v d, keeps P (ext env t v d).
Proof.
  intros Hx env t v d w HP. destruct (Hx env t v d w) as (w' & -> & _ & K).
  now apply K.
Qed.

Lemma calls_out_nested P :
  survives_call P -> calls_out P nested_low_level_call.
Proof.
  intros Sv env t v d w. exists (with_call w t v d).
  split; [reflexivity|]. split; [reflexivity|]. apply Sv.
Qed.

Lemma keeps_reenter P :
  (forall env c, keeps P (dispatch_with nested_low_level_call env c)) ->
  forall env l w, P w -> P (fold_left (reenter env) l w).
Proof.
  intros Hd env l. induction l as [|n l IH]; intros w HP; [exact HP|].
  cbn [fold_left]. apply IH. unfold reenter.
  specialize (Hd (nested_env env n) (request n) w HP).
  now destruct (dispatch_with _ _ _ w).
Qed.

Lemma calls_out_low_level_call P :
  survives_call P ->
  (forall env c, keeps P (dispatch_with nested_low_level_call env c)) ->
  calls_out P low_level_call.
Proof.
  intros Sv Hd env t v d w. unfold low_level_call.
  eexists. split; [reflexivity|]. split.
  - intros F. cbv zeta. now rewrite F.
  - intros HP. cbv zeta. destruct (fst (external_call env t v d)).
    + apply keeps_reenter; [exact Hd | now apply Sv].
    + now apply Sv.
Qed.

(** What every function keeps over any such call, the contract keeps. *)
Lemma kept_at_top P :
  survives_call P ->
  (forall ext, calls_out P ext ->
     forall env c, keeps P (dispatch_with ext env c)) ->
  calls_out P low_level_call /\ forall env c, keeps P (dispatch env c).
Proof.
  intros Sv Hd.
  assert (Low : calls_out P low_level_call).
  { apply calls_out_low_level_call; [exact Sv|].
    apply Hd, calls_out_nested, Sv. }
  split; [exact Low|]. intros env c. apply Hd, Low.
Qed.

(** The leaf for a call [ext] known by [Hx : calls_out P ext]. *)
Ltac ext_leaf Hx :=
  lazymatch goal with
  | |- keeps _ (?f _ _ _ _) => is_var f; apply (calls_out_keeps _ _ Hx)
  end.

Ltac contract_unfold :=
  unfold dispatch, executeExpiredTransaction, executeTransaction,
    executeFailedTransaction;
  unfold dispatch_with, discard, setJustToken, executeExpiredTransaction_with,
    updateExecutorTokenThreshold, revokeContractRole, grantContractRole,
    queueTransactionWithThreatLevel, queueTransaction,
    executeTransaction_with, markTransactionAsFailed,
    executeFailedTransaction_with, cancelTransaction,
    updateDelays, updateThreatLevelDelays, setFunctionThreatLevel,
    setBatchFunctionThreatLevels, setAddressThreatLevel,
    setBatchAddressThreatLevels, queueDelayUpdate,
    queueThreatLevelDelaysUpdate, setPaused, initialize, initializer,
    grantRole, revokeRole, renounceRole, _setupRole, _grantRole, _revokeRole,
    _queueTransaction, _pause, _unpause, whenNotPaused, whenPaused,
    nonReentrant, onlyRole, _markTransactionAsFailed.

(** ** The ledger *)

Definition ledger_inv (s : Storage) : Prop :=
  forall h,
    (_failedTransactions s h = true ->
     executed (_timelockTransactions s h) = true)
    /\ (executed (_timelockTransactions s h) = true ->
        queuedTransactions s h = true).

Lemma write_hash_same {A} (m : bytes32 -> A) k v : write_hash m k v k = v.
Proof.
  unfold write_hash. destruct (bytes32_eqb k k) eqn:E; [reflexivity|].
  assert (bytes32_eqb k k = true) by now apply bytes32_eqb_eq.
  congruence.
Qed.

Lemma write_hash_other {A} (m : bytes32 -> A) k v k' :
  k' <> k -> write_hash m k v k' = m k'.
Proof.
  unfold write_hash. intros N.
  destruct (bytes32_eqb k' k) eqn:E; [|reflexivity].
  apply bytes32_eqb_eq in E. contradiction.
Qed.

(** Symbolic execution: split on the next test, drop the branches that
    revert. *)
Ltac split_if :=
  match goal with
  | |- context [if ?b then _ else _] => destruct b eqn:?
  | |- context [match ?o with Some _ => _ | None => _ end] =>
      destruct o eqn:?
  | |- context [let (_, _) := ?p in _] => destruct p eqn:?
  end.

Ltac exec_all := repeat (cbn; try exact I; try split_if).

(** The same through the token check and through a low-level call [ext]
    known by [Hx : calls_out P ext]: the token check is split into its
    three answers; at the call, [at_call] proves [P] of the world the
    callee finds, and execution goes on from the world it leaves, of which
    [P] is known, or, when the callee fails, from the world it found. *)
Ltac token_step :=
  match goal with
  | |- context [isAuthorizedByTokens ?e ?u ?w] =>
      rewrite (isAuthorizedByTokens_run e u w); cbn [st];
      destruct (authorized_by_tokens e _ u) as [[|]|] eqn:?
  end.

Ltac call_step Hx at_call :=
  match goal with
  | |- context [?f ?e ?t ?v ?d ?w] =>
      is_var f;
      let w1 := fresh "w" in
      let E := fresh "E" in
      let F := fresh "F" in
      let K := fresh "K" in
      destruct (Hx e t v d w) as (w1 & E & F & K);
      rewrite E; clear E;
      destruct (external_call e t v d) as [[|] ?];
      [ clear F;
        match type of K with
        | ?Pw -> _ =>
            let HPw := fresh "HPw" in
            assert (HPw : Pw) by at_call;
            specialize (K HPw); clear HPw
        end;
        destruct w1 as [? ?]
      | specialize (F eq_refl); subst w1; clear K; unfold with_call ]
  end.

Ltac exec_with Hx at_call :=
  repeat (cbn; try exact I;
          try first [token_step | split_if | call_step Hx at_call]).

Ltac bool_facts :=
  repeat match goal with
    | E : negb _ = false |- _ => apply negb_false_iff in E
    | E : negb _ = true |- _ => apply negb_true_iff in E
    end.

(** Closes [ledger_inv] of a storage obtained from [s] by writes at [h]. *)
Ltac ledger_case HP h :=
  let k := fresh "k" in
  let E := fresh "E" in
  intros k; destruct (HP k) as [? ?]; cbn; unfold write_hash;
  destruct (bytes32_eqb k h) eqn:E;
  [ apply bytes32_eqb_eq in E; subst k | ];
  cbn; split; intros; auto; congruence.

Ltac ledger_close h :=
  match goal with
  | HP : ledger_inv _ |- _ => solve [ledger_case HP h]
  | HP : on_storage ledger_inv _ |- _ =>
      unfold on_storage in HP; cbn [st] in HP; solve [ledger_case HP h]
  end.

Ltac ledger_start Hx h :=
  let s := fresh "s" in
  let ev := fresh "ev" in
  let HP := fresh "HP" in
  intros [s ev] HP; unfold on_storage in HP |- *; cbn [st] in HP |- *;
  contract_unfold; monad_unfold;
  exec_with Hx ltac:(idtac; bool_facts; unfold on_storage; cbn [st];
                     ledger_case HP h);
  bool_facts.

Section Ledger.

Variable ext : Env -> address -> Z -> bytes -> M (bool * bytes).
Hypothesis Hx : calls_out (on_storage ledger_inv) ext.

Lemma ledger_executeTransaction env h :
  keeps (on_storage ledger_inv) (executeTransaction_with ext env h).
Proof. ledger_start Hx h; ledger_close h. Qed.

Lemma ledger_executeExpiredTransaction env h :
  keeps (on_storage ledger_inv) (executeExpiredTransaction_with ext env h).
Proof. ledger_start Hx h; ledger_close h. Qed.

Lemma ledger_executeFailedTransaction env h :
  keeps (on_storage ledger_inv) (executeFailedTransaction_with ext env h).
Proof. ledger_start Hx h; ledger_close h. Qed.

Lemma ledger_markTransactionAsFailed env h :
  keeps (on_storage ledger_inv) (markTransactionAsFailed env h).
Proof. ledger_start Hx h; ledger_close h. Qed.

Lemma ledger_cancelTransaction env h :
  keeps (on_storage ledger_inv) (cancelTransaction env h).
Proof. ledger_start Hx h; ledger_close h. Qed.

Lemma ledger_queueTransaction env target value data delay level :
  keeps (on_storage ledger_inv)
    (_queueTransaction env target value data delay level).
Proof.
  intros [s ev] HP. unfold on_storage in *. cbn [st] in *.
  contract_unfold. monad_unfold. exec_all. bool_facts.
  match goal with
  | |- ledger_inv (write_queued ?h _ _) => generalize dependent h
  end.
  intros h Q. intros k. destruct (HP k) as [F E]. cbn. unfold write_hash.
  destruct (bytes32_eqb k h) eqn:K;
    [apply bytes32_eqb_eq in K; subst k|]; cbn; split; intros; auto.
  apply F, E in H0. congruence.
Qed.

Ltac ledger_leaf :=
  lazymatch goal with
  | |- keeps _ (executeTransaction_with _ _ _) =>
      apply ledger_executeTransaction
  | |- keeps _ (executeExpiredTransaction_with _ _ _) =>
      apply ledger_executeExpiredTransaction
  | |- keeps _ (executeFailedTransaction_with _ _ _) =>
      apply ledger_executeFailedTransaction
  | |- keeps _ (markTransactionAsFailed _ _) =>
      apply ledger_markTransactionAsFailed
  | |- keeps _ (cancelTransaction _ _) => apply ledger_cancelTransaction
  | |- keeps _ (_queueTransaction _ _ _ _ _ _) =>
      apply ledger_queueTransaction
  end.

Lemma ledger_kept_with env c :
  keeps (on_storage ledger_inv) (dispatch_with ext env c).
Proof.
  destruct c; cbn [dispatch_with];
    keeps_with ltac:(idtac; first [ext_leaf Hx | ledger_leaf])
      unchanged unchanged.
Qed.

End Ledger.

Lemma ledger_kept env c : keeps (on_storage ledger_inv) (dispatch env c).
Proof.
  apply kept_at_top;
    [apply survives_call_on_storage | exact ledger_kept_with].
Qed.

(** ** Hoare triples, for code whose intermediate storage matters *)

Definition hoare {A} (P : World -> Prop) (m : M A) (Q : World -> Prop)
  : Prop :=
  forall w, P w ->
    match m w with
    | Ok _ w' => Q w'
    | Revert _ _ => True
    end.

Lemma hoare_bind {A B} P Q R (m : M A) (k : A -> M B) :
  hoare P m Q -> (forall a, hoare Q (k a) R) -> hoare P (bind m k) R.
Proof.
  intros Hm Hk w HP. unfold bind. specialize (Hm w HP).
  destruct (m w) as [a w'|e w']; [apply (Hk a w' Hm) | exact I].
Qed.

Lemma hoare_any {A} P (m : M A) : hoare P m (fun _ => True).
Proof. intros w _. now destruct (m w). Qed.

Lemma hoare_sstore (P Q : World -> Prop) f :
  (forall w, P w -> Q {| st := f (st w); effects := effects w |}) ->
  hoare P (sstore f) Q.
Proof. intros Hf w HP. apply Hf, HP. Qed.

(** ** The tier delays stay ordered *)

Definition tiers_ordered (s : Storage) : Prop :=
  lowThreatDelay s <= mediumThreatDelay s
  /\ mediumThreatDelay s <= highThreatDelay s
  /\ highThreatDelay s <= criticalThreatDelay s.

Definition default_tiers : Z * Z * Z * Z :=
  (1 * days, 3 * days, 7 * days, 14 * days).

Lemma initialize_sets_tiers env initialMinDelay proposers executors admin :
  hoare (fun _ => True)
    (initialize env initialMinDelay proposers executors admin)
    (on_storage (fun s => tier_delays s = default_tiers)).
Proof.
  unfold initialize, initializer.
  do 3 (apply hoare_bind with (Q := fun _ => True);
        [apply hoare_any | intros ?]).
  apply hoare_bind
    with (Q := on_storage (fun s => tier_delays s = default_tiers));
    [|intros ?; apply keeps_emit; unchanged].
  do 7 (apply hoare_bind with (Q := fun _ => True);
        [apply hoare_any | intros ?]).
  apply hoare_bind
    with (Q := on_storage (fun s => lowThreatDelay s = 1 * days));
    [apply hoare_sstore; intros; reflexivity | intros ?].
  apply hoare_bind
    with (Q := on_storage (fun s =>
                 lowThreatDelay s = 1 * days
                 /\ mediumThreatDelay s = 3 * days));
    [apply hoare_sstore; intros w L; split; [exact L | reflexivity]
    | intros ?].
  apply hoare_bind
    with (Q := on_storage (fun s =>
                 lowThreatDelay s = 1 * days
                 /\ mediumThreatDelay s = 3 * days
                 /\ highThreatDelay s = 7 * days));
    [apply hoare_sstore; intros w [L Md];
     repeat split; [exact L | exact Md]
    | intros ?].
  apply hoare_bind
    with (Q := on_storage (fun s => tier_delays s = default_tiers));
    [apply hoare_sstore; intros [s ev] (L & Md & Hi);
     unfold on_storage, tier_delays, default_tiers in *; cbn in *;
     now rewrite L, Md, Hi
    | intros ?].
  match goal with |- hoare ?P ?m ?P => change (keeps P m) end.
  keeps_with fail unchanged unchanged.
Qed.

Lemma tiers_updateThreatLevelDelays env a b c d :
  keeps (on_storage tiers_ordered) (updateThreatLevelDelays env a b c d).
Proof.
  intros [s ev] HP. unfold on_storage, tiers_ordered in *. cbn [st] in *.
  unfold updateThreatLevelDelays. monad_unfold. exec_all.
  repeat match goal with
         | E : (_ <? _) = false |- _ => apply Z.ltb_ge in E
         end.
  lia.
Qed.

Lemma tiers_initialize env initialMinDelay proposers executors admin :
  keeps (on_storage tiers_ordered)
    (initialize env initialMinDelay proposers executors admin).
Proof.
  intros w _.
  pose proof (initialize_sets_tiers env initialMinDelay proposers executors
                admin w I) as D.
  destruct (initialize _ _ _ _ _ w) as [a w'|e w']; [|exact I].
  unfold on_storage, tier_delays, default_tiers in D.
  injection D as L Md Hi Cr. unfold on_storage, tiers_ordered.
  rewrite L, Md, Hi, Cr. unfold days. lia.
Qed.

Ltac tiers_leaf :=
  lazymatch goal with
  | |- keeps _ (updateThreatLevelDelays _ _ _ _ _) =>
      apply tiers_updateThreatLevelDelays
  | |- keeps _ (initialize _ _ _ _ _) => apply tiers_initialize
  end.

Lemma tiers_kept_with ext :
  calls_out (on_storage tiers_ordered) ext ->
  forall env c, keeps (on_storage tiers_ordered) (dispatch_with ext env c).
Proof.
  intros Hx env c. destruct c; cbn [dispatch_with];
    keeps_with ltac:(idtac; first [ext_leaf Hx | tiers_leaf])
      unchanged unchanged.
Qed.

Lemma tiers_kept env c :
  keeps (on_storage tiers_ordered) (dispatch env c).
Proof.
  apply kept_at_top;
    [apply survives_call_on_storage | exact tiers_kept_with].
Qed.

(** ** Role members are listed once *)


Lemma role_eqb_eq (a b : Role) : role_eqb a b = true <-> a = b.
Proof.
  split.
  - destruct a, b; cbn; intros E; try discriminate; try reflexivity.
    apply Z.eqb_eq in E. now subst.
  - intros <-. destruct a; cbn; try reflexivity. apply Z.eqb_refl.
Qed.







(** ** What holds of every reachable storage *)

Lemma reachable_ledger s : reachable s -> ledger_inv s.
Proof.
  induction 1 as [|env c s s' _ IH [trace E]].
  - intros h. cbn. split; discriminate.
  - exact (keeps_call _ _ _ _ _ _ (ledger_kept env c) IH E).
Qed.


Lemma reachable_tiers s : reachable s -> tiers_ordered s.
Proof.
  induction 1 as [|env c s s' _ IH [trace E]].
  - unfold tiers_ordered. cbn. lia.
  - exact (keeps_call _ _ _ _ _ _ (tiers_kept env c) IH E).
Qed.

Lemma reachable_run txs s : reachable s -> reachable (snd (run txs s)).
Proof.
  revert s. induction txs as [|[env c] txs IH]; intros s R; [exact R|].
  cbn [run]. destruct (call (dispatch env c) s) as [[[] trace|e] s'] eqn:E.
  - specialize (IH s'). destruct (run txs s') as [later s''].
    apply IH. apply (reachable_step env c s s' R). now exists trace.
  - now apply IH.
Qed.

(** ** The reentrancy guard *)

Lemma status_nonReentrant {A} (body : M A) :
  keeps (on_storage (fun s => _status s = NOT_ENTERED)) (nonReentrant body).
Proof.
  intros [s ev] HP. unfold nonReentrant. monad_unfold. cbn.
  destruct (_status s); cbn; [|exact I].
  destruct (body _) as [a w|e w]; cbn; [reflexivity | exact I].
Qed.

Ltac status_leaf :=
  lazymatch goal with
  | |- keeps _ (nonReentrant _) => apply status_nonReentrant
  end.

Ltac status_write :=
  let w := fresh "w" in
  let Q := fresh "Q" in
  intros w Q; first [exact Q | reflexivity].

(** Whatever the low-level call does, the guard is released at the end. *)
Lemma status_kept env c :
  keeps (on_storage (fun s => _status s = NOT_ENTERED)) (dispatch env c).
Proof.
  unfold dispatch. destruct c; cbn [dispatch_with];
    keeps_with ltac:(idtac; status_leaf) status_write unchanged.
Qed.

(** ** Executed records *)

(** The record under [h] is [r], is executed, and [h] is flagged queued. *)
Definition settled (h : bytes32) (r : TimelockTransaction) : World -> Prop :=
  fun w =>
    _timelockTransactions (st w) h = r
    /\ executed r = true
    /\ queuedTransactions (st w) h = true.

Lemma survives_call_settled h r : survives_call (settled h r).
Proof. intros w t v d HP. exact HP. Qed.

Ltac settled_case :=
  cbn; unfold write_hash;
  match goal with
  | |- context [bytes32_eqb ?h ?k] =>
      let E := fresh "E" in
      destruct (bytes32_eqb h k) eqn:E;
      [apply bytes32_eqb_eq in E; subst|]
  end.

(** Closes [settled h r] of a storage obtained by writes from one of which
    it is known. *)
Ltac settled_close :=
  unfold settled in *; cbn [st] in *;
  first
    [ assumption
    | match goal with
      | K : _ /\ _ /\ _ |- _ =>
          let Er := fresh "Er" in
          let Ex := fresh "Ex" in
          let Q := fresh "Q" in
          destruct K as (Er & Ex & Q);
          first
            [ solve [repeat split; assumption]
            | solve [settled_case;
                     first [ repeat split; assumption
                           | rewrite Ex in *; discriminate
                           | congruence ]] ]
      end ].

Ltac settled_start Hx :=
  let s := fresh "s" in
  let ev := fresh "ev" in
  let HP := fresh "HP" in
  intros [s ev] HP;
  contract_unfold; monad_unfold;
  exec_with Hx ltac:(idtac; bool_facts; settled_close);
  bool_facts.

Section Settled.

Variable ext : Env -> address -> Z -> bytes -> M (bool * bytes).
Variable h : bytes32.
Variable r : TimelockTransaction.
Hypothesis Hx : calls_out (settled h r) ext.

Lemma settled_executeTransaction env k :
  keeps (settled h r) (executeTransaction_with ext env k).
Proof. settled_start Hx; settled_close. Qed.

Lemma settled_executeExpiredTransaction env k :
  keeps (settled h r) (executeExpiredTransaction_with ext env k).
Proof. settled_start Hx; settled_close. Qed.

Lemma settled_executeFailedTransaction env k :
  keeps (settled h r) (executeFailedTransaction_with ext env k).
Proof. settled_start Hx; settled_close. Qed.

Lemma settled_markTransactionAsFailed env k :
  keeps (settled h r) (markTransactionAsFailed env k).
Proof. settled_start Hx; settled_close. Qed.

Lemma settled_cancelTransaction env k :
  keeps (settled h r) (cancelTransaction env k).
Proof. settled_start Hx; settled_close. Qed.

Lemma settled_queueTransaction env target value data delay level :
  keeps (settled h r) (_queueTransaction env target value data delay level).
Proof. settled_start Hx; settled_close. Qed.

Ltac settled_leaf :=
  lazymatch goal with
  | |- keeps _ (executeTransaction_with _ _ _) =>
      apply settled_executeTransaction
  | |- keeps _ (executeExpiredTransaction_with _ _ _) =>
      apply settled_executeExpiredTransaction
  | |- keeps _ (executeFailedTransaction_with _ _ _) =>
      apply settled_executeFailedTransaction
  | |- keeps _ (markTransactionAsFailed _ _) =>
      apply settled_markTransactionAsFailed
  | |- keeps _ (cancelTransaction _ _) => apply settled_cancelTransaction
  | |- keeps _ (_queueTransaction _ _ _ _ _ _) =>
      apply settled_queueTransaction
  end.

Lemma settled_kept_with env c : keeps (settled h r) (dispatch_with ext env c).
Proof.
  destruct c; cbn [dispatch_with];
    keeps_with ltac:(idtac; settled_leaf) unchanged unchanged.
Qed.

End Settled.

Lemma settled_kept env c h r : keeps (settled h r) (dispatch env c).
Proof.
  apply kept_at_top; [apply survives_call_settled|].
  intros ext Hx. now apply settled_kept_with.
Qed.

Lemma run_settled txs s h r :
  _timelockTransactions s h = r -> executed r = true ->
  queuedTransactions s h = true ->
  _timelockTransactions (snd (run txs s)) h = r
  /\ queuedTransactions (snd (run txs s)) h = true.
Proof.
  revert s. induction txs as [|[env c] txs IH]; intros s Er Ex Q;
    [now split|].
  cbn [run].
  destruct (call (dispatch env c) s) as [[[] trace|e] s'] eqn:E.
  - destruct (keeps_call _ _ _ _ _ _ (settled_kept env c h r)
                (conj Er (conj Ex Q)) E) as (Er' & _ & Q').
    cbn [st] in *. specialize (IH s' Er' Ex Q').
    now destruct (run txs s').
  - now apply IH.
Qed.

(** ** The trace only grows *)

Definition extends (pre : list Effect) : World -> Prop :=
  fun w => exists more, effects w = pre ++ more.

Lemma survives_call_extends pre : survives_call (extends pre).
Proof.
  intros w t v d [more E]. exists (more ++ [ExternalCall t v d]).
  cbn. now rewrite E, app_assoc.
Qed.

Ltac extends_emit :=
  let w := fresh "w" in
  let more := fresh "more" in
  let E := fresh "E" in
  intros w [more E];
  match goal with
  | |- extends _ {| st := _; effects := _ ++ [?e] |} =>
      exists (more ++ [e]); cbn; now rewrite E, app_assoc
  end.

Lemma extends_kept_with pre ext :
  calls_out (extends pre) ext ->
  forall env c, keeps (extends pre) (dispatch_with ext env c).
Proof.
  intros Hx env c. destruct c; cbn [dispatch_with];
    keeps_with ltac:(idtac; ext_leaf Hx) unchanged extends_emit.
Qed.

(** ** What a callee that succeeds leaves behind *)

(** The world after the callee's calls back into the timelock, from the
    world [w] in which [target.call] was made. *)
Definition reentered (env : Env) (t : address) (v : Z) (d : bytes)
  (w : World) : World :=
  fold_left (reenter env) (reentrant_calls env t v d) (with_call w t v d).

Lemma low_level_call_run env t v d w :
  low_level_call env t v d w
  = Ok (external_call env t v d)
      (if fst (external_call env t v d)
       then reentered env t v d w
       else with_call w t v d).
Proof. reflexivity. Qed.

Lemma reentered_keeps P :
  survives_call P ->
  (forall ext, calls_out P ext ->
     forall env c, keeps P (dispatch_with ext env c)) ->
  forall env t v d w, P w -> P (reentered env t v d w).
Proof.
  intros Sv Hd env t v d w HP. unfold reentered.
  apply keeps_reenter; [|now apply Sv].
  apply Hd, calls_out_nested, Sv.
Qed.

Lemma reentered_inert env t v d w :
  inert env t v d -> reentered env t v d w = with_call w t v d.
Proof. unfold inert, reentered. now intros ->. Qed.

Lemma reentered_settled env t v d w h r :
  settled h r w -> settled h r (reentered env t v d w).
Proof.
  apply reentered_keeps; [apply survives_call_settled|].
  intros ext Hx. now apply settled_kept_with.
Qed.

Lemma reentered_trace env t v d w :
  exists more,
    effects (reentered env t v d w) = effects w ++ ExternalCall t v d :: more.
Proof.
  assert (P : extends (effects w ++ [ExternalCall t v d])
                (reentered env t v d w)).
  { unfold reentered. apply keeps_reenter.
    - apply extends_kept_with, calls_out_nested, survives_call_extends.
    - exists []. cbn. now rewrite app_nil_r. }
  destruct P as [more E]. exists more. rewrite E, <- app_assoc. reflexivity.
Qed.

(** ** The guard while a callee runs *)

(** A call that comes back into one of the three guarded functions while
    the guard is held stops at the guard (or at the pause switch) and so
    never reaches its own low-level call. *)
Lemma nested_call_is_guarded ext env h w :
  _status (st w) = ENTERED ->
  (exists e, executeTransaction_with ext env h w = Revert e w)
  /\ (exists e, executeExpiredTransaction_with ext env h w = Revert e w)
  /\ (exists e, executeFailedTransaction_with ext env h w = Revert e w).
Proof.
  intros S. destruct w as [s ev]. cbn [st] in S.
  unfold executeTransaction_with, executeExpiredTransaction_with,
    executeFailedTransaction_with. monad_unfold. cbn.
  destruct (_paused s); cbn; rewrite ?S; cbn;
    repeat split; eexists; reflexivity.
Qed.

(** The guard is held, in initialized storage. *)
Definition guard_held : World -> Prop :=
  fun w => _status (st w) = ENTERED /\ _initialized (st w) = true.

Lemma guard_held_nonReentrant {A} (body : M A) :
  keeps guard_held (nonReentrant body).
Proof.
  intros [s ev] [S _]. unfold nonReentrant. monad_unfold. cbn [st] in *.
  cbn. now rewrite S.
Qed.

Lemma guard_held_initializer body : keeps guard_held (initializer body).
Proof.
  intros [s ev] [_ Init]. unfold initializer. monad_unfold. cbn [st] in *.
  cbn. now rewrite Init.
Qed.

Ltac guard_leaf :=
  lazymatch goal with
  | |- keeps _ (nonReentrant _) => apply guard_held_nonReentrant
  | |- keeps _ (initializer _) => apply guard_held_initializer
  end.

Lemma guard_held_kept_with ext :
  calls_out guard_held ext ->
  forall env c, keeps guard_held (dispatch_with ext env c).
Proof.
  intros Hx env c. destruct c; cbn [dispatch_with];
    keeps_with ltac:(idtac; first [ext_leaf Hx | guard_leaf])
      unchanged unchanged.
Qed.

(** While a callee runs on initialized storage, the calls it makes back
    into the timelock leave the guard held. *)
Lemma guard_held_while_reentered env t v d w :
  guard_held w -> guard_held (reentered env t v d w).
Proof.
  apply reentered_keeps; [|exact guard_held_kept_with].
  intros w0 t0 v0 d0 HP. exact HP.
Qed.

(** ** Running the guarded functions *)

Lemma checked_sum (a b : Z) :
  a + b <= Uint256.max -> Uint256.add a b = Some (a + b).
Proof. unfold Uint256.add. intros L. apply Z.leb_le in L. now rewrite L. Qed.

Lemma checked_overflow (a b : Z) :
  Uint256.max < a + b -> Uint256.add a b = None.
Proof. unfold Uint256.add. intros L. apply Z.leb_gt in L. now rewrite L. Qed.

Lemma hasRole_set_status x s r a :
  hasRole (set_status x s) r a = hasRole s r a.
Proof. reflexivity. Qed.

Lemma authorized_by_tokens_set_status env x s a :
  authorized_by_tokens env (set_status x s) a = authorized_by_tokens env s a.
Proof. now rewrite !authorized_by_tokens_eq. Qed.

Lemma guard_released_executed s h b :
  _status s = NOT_ENTERED ->
  set_status NOT_ENTERED (write_executed h b (set_status ENTERED s))
  = write_executed h b s.
Proof. destruct s; cbn; intros ->; reflexivity. Qed.

Lemma guard_released_failed_executed s h b c :
  _status s = NOT_ENTERED ->
  set_status NOT_ENTERED
    (write_failed h c (write_executed h b (set_status ENTERED s)))
  = write_failed h c (write_executed h b s).
Proof. destruct s; cbn; intros ->; reflexivity. Qed.

Lemma guard_released_failed s h b :
  _status s = NOT_ENTERED ->
  set_status NOT_ENTERED (write_failed h b (set_status ENTERED s))
  = write_failed h b s.
Proof. destruct s; cbn; intros ->; reflexivity. Qed.

Ltac frames :=
  rewrite ?hasRole_set_status, ?isAuthorizedByTokens_run,
    ?low_level_call_run; cbn [st];
  rewrite ?authorized_by_tokens_set_status.

Arguments low_level_call : simpl never.
Arguments reentered : simpl never.
Arguments with_call : simpl never.

(** The world in which [executeTransaction] makes its call, and the one the
    callee leaves when it succeeds. *)
Definition at_execution (s : Storage) (txHash : bytes32) : World :=
  let t := _timelockTransactions s txHash in
  {| st := write_executed txHash true (set_status ENTERED s);
     effects := [TransactionExecuted txHash (target t) (value t) (data t)] |}.

Definition after_execution (env : Env) (s : Storage) (txHash : bytes32)
  : World :=
  let t := _timelockTransactions s txHash in
  reentered env (target t) (value t) (data t) (at_execution s txHash).

(** What is known of the world a callee leaves, when the call was made on
    an executed record [txHash]. *)
Lemma reentered_record env t v d w txHash :
  queuedTransactions (st w) txHash = true ->
  executed (_timelockTransactions (st w) txHash) = true ->
  let w' := reentered env t v d w in
  _timelockTransactions (st w') txHash = _timelockTransactions (st w) txHash
  /\ queuedTransactions (st w') txHash = true
  /\ In (ExternalCall t v d) (effects w')
  /\ (inert env t v d -> w' = with_call w t v d).
Proof.
  intros Q X w'.
  destruct (reentered_settled env t v d w txHash _ (conj eq_refl (conj X Q)))
    as (Er & _ & Q').
  destruct (reentered_trace env t v d w) as [more E].
  repeat split; try assumption.
  - subst w'. rewrite E. apply in_or_app. right. now left.
  - apply reentered_inert.
Qed.


(** [executeTransaction] inside the time window, by caller and callee. *)
Lemma executeTransaction_in_window env s txHash :
  operational s -> pending s txHash ->
  eta (_timelockTransactions s txHash) <= block_timestamp env ->
  block_timestamp env
  <= eta (_timelockTransactions s txHash) + gracePeriod s ->
  eta (_timelockTransactions s txHash) + gracePeriod s <= Uint256.max ->
  let t := _timelockTransactions s txHash in
  let r := external_call env (target t) (value t) (data t) in
  let w := after_execution env s txHash in
  call (executeTransaction env txHash) s
  = match authorized_by_tokens env s (msg_sender env) with
    | None => (Reverted RevertWithoutData, s)
    | Some byTokens =>
        if byTokens || hasRole s EXECUTOR_ROLE (msg_sender env) then
          if fst r then
            (Success (snd r) (effects w), set_status NOT_ENTERED (st w))
          else (Reverted (CallFailed (target t) (data t)), s)
        else (Reverted (NotAuthorized (msg_sender env) EXECUTOR_ROLE), s)
    end.
Proof.
  intros [Hp Hs] (Hq & He & Hc) T1 T2 T3 t r w. subst t r w.
  apply Z.ltb_ge in T1.
  assert (T4 : (eta (_timelockTransactions s txHash) + gracePeriod s
                <? block_timestamp env) = false) by (apply Z.ltb_ge; lia).
  apply checked_sum in T3.
  unfold after_execution, at_execution, executeTransaction,
    executeTransaction_with. monad_unfold.
  repeat (cbn; frames; rewrite ?Hp, ?Hs, ?Hq, ?He, ?Hc, ?T1, ?T4, ?T3).
  destruct (authorized_by_tokens env s (msg_sender env)) as [[|]|];
    repeat (cbn; frames); [| |reflexivity].
  - destruct (external_call env _ _ _) as [[|] returnData]; reflexivity.
  - destruct (hasRole s EXECUTOR_ROLE (msg_sender env));
      repeat (cbn; frames); [|reflexivity].
    destruct (external_call env _ _ _) as [[|] returnData]; reflexivity.
Qed.

Lemma executor_authorized_cases env s :
  executor_authorized env s = true ->
  exists byTokens,
    authorized_by_tokens env s (msg_sender env) = Some byTokens
    /\ byTokens || hasRole s EXECUTOR_ROLE (msg_sender env) = true.
Proof.
  unfold executor_authorized.
  destruct (authorized_by_tokens env s (msg_sender env)) as [b|];
    [|discriminate].
  intros E. now exists b.
Qed.

(** The record of a transaction that [executeTransaction] has run. *)
Lemma after_execution_record env s txHash :
  queuedTransactions s txHash = true ->
  let t := _timelockTransactions s txHash in
  let w := after_execution env s txHash in
  _timelockTransactions (st w) txHash
  = {| target := target t; value := value t; data := data t; eta := eta t;
       executed := true; canceled := canceled t |}
  /\ queuedTransactions (st w) txHash = true
  /\ In (ExternalCall (target t) (value t) (data t)) (effects w)
  /\ (inert env (target t) (value t) (data t) ->
      w = with_call (at_execution s txHash) (target t) (value t) (data t)).
Proof.
  intros Q t w.
  assert (R : _timelockTransactions (st (at_execution s txHash)) txHash
              = {| target := target t; value := value t; data := data t;
                   eta := eta t; executed := true;
                   canceled := canceled t |})
    by (cbn; now rewrite write_hash_same).
  destruct (reentered_record env (target t) (value t) (data t)
              (at_execution s txHash) txHash) as (Er & Q' & Ev & In_);
    [exact Q | now rewrite R |].
  rewrite R in Er. repeat split; assumption.
Qed.

(** C1, as the code has it.  When the call made by [executeTransaction]
    on a queued, eligible transaction fails, the caller gets the error
    [CallFailed]; the function has by then written [executed = true] and
    [failed = true], but the revert rolls both writes back: the storage is
    what it was before, the transaction is still pending, and
    [executeFailedTransaction] rejects it as not previously failed.  The
    caller is one whose token check returns and who is authorized by it or
    by the Executor role; the contract is not paused. *)
Theorem executeTransaction_call_failure env s txHash :
  operational s -> pending s txHash ->
  eta (_timelockTransactions s txHash) <= block_timestamp env ->
  block_timestamp env
  <= eta (_timelockTransactions s txHash) + gracePeriod s ->
  eta (_timelockTransactions s txHash) + gracePeriod s <= Uint256.max ->
  executor_authorized env s = true ->
  fst (external_call env (target (_timelockTransactions s txHash))
         (value (_timelockTransactions s txHash))
         (data (_timelockTransactions s txHash))) = false ->
  call (executeTransaction env txHash) s
  = (Reverted (CallFailed (target (_timelockTransactions s txHash))
                 (data (_timelockTransactions s txHash))), s)
  /\ (exists w,
        executeTransaction env txHash {| st := s; effects := [] |}
        = Revert (CallFailed (target (_timelockTransactions s txHash))
                    (data (_timelockTransactions s txHash))) w
        /\ executed (_timelockTransactions (st w) txHash) = true
        /\ _failedTransactions (st w) txHash = true)
  /\ pending s txHash
  /\ forall env',
       call (executeFailedTransaction env' txHash) s
       = (Reverted (TransactionNotPreviouslyFailed txHash), s).
Proof.
  intros Op Pe T1 T2 T3 A F.
  pose proof (executeTransaction_in_window env s txHash Op Pe T1 T2 T3) as W.
  cbv zeta in W.
  destruct (executor_authorized_cases env s A) as (byTokens & Tk & Yes).
  rewrite Tk, Yes, F in W.
  destruct Op as [Hp Hs]. destruct Pe as (Hq & He & Hc).
  split; [exact W|]. split; [|split; [now repeat split|]].
  - apply Z.ltb_ge in T1.
    assert (T4 : (eta (_timelockTransactions s txHash) + gracePeriod s
                  <? block_timestamp env) = false) by (apply Z.ltb_ge; lia).
    apply checked_sum in T3.
    destruct (external_call env _ _ _) as [success returnData] eqn:R.
    cbn in F. subst success.
    unfold executeTransaction, executeTransaction_with. monad_unfold.
    repeat (cbn; frames;
            rewrite ?Hp, ?Hs, ?Hq, ?He, ?Hc, ?T1, ?T4, ?T3, ?Tk).
    destruct byTokens; cbn in Yes; [clear Yes|];
      repeat (cbn; frames; rewrite ?R; try rewrite Yes);
      (eexists; split; [reflexivity|]; unfold with_call; cbn;
       now rewrite !write_hash_same).
  - intros env'. unfold executeFailedTransaction,
      executeFailedTransaction_with. monad_unfold.
    repeat (cbn; frames; rewrite ?Hp, ?Hs, ?Hq, ?He, ?Hc). reflexivity.
Qed.

(** The world in which [executeExpiredTransaction] makes its call. *)
Definition at_expired_execution (s : Storage) (txHash : bytes32) : World :=
  let t := _timelockTransactions s txHash in
  {| st := write_executed txHash true (set_status ENTERED s);
     effects := [ExpiredTransactionExecuted txHash (target t) (value t)
                   (data t)] |}.

(** [executeExpiredTransaction] on a pending transaction, case by case. *)
Lemma executeExpiredTransaction_run env s txHash :
  operational s -> pending s txHash ->
  let t := _timelockTransactions s txHash in
  let r := external_call env (target t) (value t) (data t) in
  let w := reentered env (target t) (value t) (data t)
             (at_expired_execution s txHash) in
  call (executeExpiredTransaction env txHash) s
  = match Uint256.add (eta t) (gracePeriod s) with
    | None => (Reverted (Panic 0x11), s)
    | Some deadline =>
        if block_timestamp env <=? deadline then
          (Reverted (TransactionNotExpired txHash (eta t) (gracePeriod s)
                       (block_timestamp env)), s)
        else if admin_or_governance env s then
          if fst r then
            (Success (snd r) (effects w), set_status NOT_ENTERED (st w))
          else
            (Success (snd r)
               [ExpiredTransactionExecuted txHash (target t) (value t)
                  (data t);
                ExternalCall (target t) (value t) (data t);
                TransactionExecutionFailed txHash (target t) (snd r)],
             write_failed txHash true (write_executed txHash true s))
        else (Reverted (NotAuthorized (msg_sender env) DEFAULT_ADMIN_ROLE), s)
    end.
Proof.
  intros [Hp Hs] (Hq & He & Hc) t r w. subst t r w.
  unfold at_expired_execution, admin_or_governance,
    executeExpiredTransaction, executeExpiredTransaction_with. monad_unfold.
  repeat (cbn; frames; rewrite ?Hp, ?Hs, ?Hq, ?He, ?Hc).
  destruct (Uint256.add _ _) as [deadline|]; cbn; [|reflexivity].
  destruct (block_timestamp env <=? deadline); cbn; [reflexivity|]. frames.
  destruct (hasRole s ADMIN_ROLE (msg_sender env)),
    (hasRole s GOVERNANCE_ROLE (msg_sender env));
    repeat (cbn; frames); try reflexivity.
  all: destruct (external_call env _ _ _) as [[|] returnData];
    repeat (cbn; frames); unfold with_call; cbn;
    now rewrite ?guard_released_failed_executed.
Qed.

(** A pending transaction of a reachable storage has never been marked
    failed. *)
Lemma pending_not_failed s txHash :
  reachable s -> pending s txHash -> _failedTransactions s txHash = false.
Proof.
  intros R (_ & He & _). destruct (reachable_ledger s R txHash) as [F _].
  destruct (_failedTransactions s txHash); [|reflexivity].
  rewrite F in He by reflexivity. discriminate.
Qed.

(** C2, as the code has it.  In a reachable storage, with the contract not
    paused, on a pending transaction: [executeExpiredTransaction] succeeds
    only once [now > eta + gracePeriod]; an earlier call is rejected, as
    [TransactionNotExpired] when [eta + gracePeriod] fits in 256 bits and by
    the overflow panic of the checked addition when it does not.  Past the
    deadline the caller needs the Admin or the Governance role and nothing
    else; with it the call returns the callee's data whether the callee
    succeeded or failed, and the transaction is executed afterwards.  When
    the callee fails the function sets the failed flag; when it succeeds
    the function leaves the flag alone, so that it is still clear after a
    callee that has not called back into the timelock. *)
Theorem executeExpiredTransaction_outcomes env s txHash :
  reachable s -> operational s -> pending s txHash ->
  Uint256.in_range (block_timestamp env) ->
  let t := _timelockTransactions s txHash in
  let r := external_call env (target t) (value t) (data t) in
  (forall result trace s',
      call (executeExpiredTransaction env txHash) s
      = (Success result trace, s') ->
      eta t + gracePeriod s < block_timestamp env)
  /\ (block_timestamp env <= eta t + gracePeriod s ->
      eta t + gracePeriod s <= Uint256.max ->
      call (executeExpiredTransaction env txHash) s
      = (Reverted (TransactionNotExpired txHash (eta t) (gracePeriod s)
                     (block_timestamp env)), s))
  /\ (Uint256.max < eta t + gracePeriod s ->
      call (executeExpiredTransaction env txHash) s
      = (Reverted (Panic 0x11), s))
  /\ (eta t + gracePeriod s < block_timestamp env ->
      admin_or_governance env s = false ->
      call (executeExpiredTransaction env txHash) s
      = (Reverted (NotAuthorized (msg_sender env) DEFAULT_ADMIN_ROLE), s))
  /\ (eta t + gracePeriod s < block_timestamp env ->
      admin_or_governance env s = true ->
      exists trace s',
        call (executeExpiredTransaction env txHash) s
        = (Success (snd r) trace, s')
        /\ In (ExternalCall (target t) (value t) (data t)) trace
        /\ executed (_timelockTransactions s' txHash) = true
        /\ (fst r = false ->
            _failedTransactions s' txHash = true
            /\ s' = write_failed txHash true (write_executed txHash true s))
        /\ (fst r = true ->
            inert env (target t) (value t) (data t) ->
            _failedTransactions s' txHash = false
            /\ s' = write_executed txHash true s)).
Proof.
  intros R Op Pe [_ Hnow] t r.
  pose proof (executeExpiredTransaction_run env s txHash Op Pe) as Run.
  cbv zeta in Run. fold t in Run. fold r in Run.
  pose proof (pending_not_failed s txHash R Pe) as NF.
  repeat split.
  - intros result trace s' E. rewrite Run in E.
    unfold Uint256.add in E.
    destruct (eta t + gracePeriod s <=? Uint256.max); [|discriminate].
    destruct (block_timestamp env <=? eta t + gracePeriod s) eqn:L;
      [discriminate|].
    now apply Z.leb_gt in L.
  - intros L M. rewrite Run, checked_sum by exact M.
    apply Z.leb_le in L. now rewrite L.
  - intros M. now rewrite Run, checked_overflow.
  - intros L A. rewrite Run, checked_sum by lia.
    apply Z.leb_gt in L. now rewrite L, A.
  - intros L A. rewrite Run, checked_sum by lia.
    apply Z.leb_gt in L. rewrite L, A.
    destruct Op as [Hp Hs]. destruct Pe as (Hq & He & Hc).
    destruct (reentered_record env (target t) (value t) (data t)
                (at_expired_execution s txHash) txHash)
      as (Er & Q' & Ev & In_);
      [exact Hq | cbn; now rewrite write_hash_same |].
    destruct (fst r) eqn:F; do 2 eexists; (split; [reflexivity|]).
    + split; [exact Ev|]. split.
      { cbn [st]. change (_timelockTransactions (set_status NOT_ENTERED ?x))
          with (_timelockTransactions x).
        rewrite Er. cbn. now rewrite write_hash_same. }
      split; [discriminate|]. intros _ I0. rewrite (In_ I0).
      unfold with_call, at_expired_execution. cbn [st].
      rewrite guard_released_executed by exact Hs. split; [exact NF|].
      reflexivity.
    + split; [right; now left|]. split.
      { cbn. now rewrite write_hash_same. }
      split; [|discriminate]. intros _. split; [|reflexivity].
      cbn. now rewrite write_hash_same.
Qed.

(** C3, as the code has it.  With the contract not paused, for a pending
    transaction: [executeTransaction] before [eta] fails [TxNotReady]; at
    [now = eta] both time checks pass, provided [eta + gracePeriod] fits in
    256 bits (the checked addition panics otherwise), so that the outcome
    is decided by the caller's authorization and by the callee: the token
    check may revert, a caller it does not authorize and who is no executor
    gets [NotAuthorized], and for an authorized caller the call is made,
    its failure giving [CallFailed] and its success an executed
    transaction; after [eta + gracePeriod] it fails [TxExpired]; and
    whenever it fails [TxExpired], [executeExpiredTransaction] at that
    instant is not rejected as unexpired and succeeds for an Admin or
    Governance caller. *)
Theorem executeTransaction_time_window env s txHash :
  operational s -> pending s txHash ->
  Uint256.in_range (block_timestamp env) ->
  0 <= gracePeriod s ->
  let t := _timelockTransactions s txHash in
  let r := external_call env (target t) (value t) (data t) in
  (block_timestamp env < eta t ->
   call (executeTransaction env txHash) s
   = (Reverted (TxNotReady txHash (eta t) (block_timestamp env)), s))
  /\ (block_timestamp env = eta t ->
      eta t + gracePeriod s <= Uint256.max ->
      (forall h a b,
          fst (call (executeTransaction env txHash) s)
          <> Reverted (TxNotReady h a b))
      /\ (forall h a b c,
            fst (call (executeTransaction env txHash) s)
            <> Reverted (TxExpired h a b c))
      /\ (authorized_by_tokens env s (msg_sender env) = None ->
          call (executeTransaction env txHash) s
          = (Reverted RevertWithoutData, s))
      /\ (authorized_by_tokens env s (msg_sender env) = Some false ->
          hasRole s EXECUTOR_ROLE (msg_sender env) = false ->
          call (executeTransaction env txHash) s
          = (Reverted (NotAuthorized (msg_sender env) EXECUTOR_ROLE), s))
      /\ (executor_authorized env s = true -> fst r = false ->
          call (executeTransaction env txHash) s
          = (Reverted (CallFailed (target t) (data t)), s))
      /\ (executor_authorized env s = true -> fst r = true ->
          exists trace s',
            call (executeTransaction env txHash) s
            = (Success (snd r) trace, s')
            /\ In (ExternalCall (target t) (value t) (data t)) trace
            /\ executed (_timelockTransactions s' txHash) = true
            /\ (inert env (target t) (value t) (data t) ->
                trace = [TransactionExecuted txHash (target t) (value t)
                           (data t);
                         ExternalCall (target t) (value t) (data t)]
                /\ s' = write_executed txHash true s)))
  /\ (eta t + gracePeriod s < block_timestamp env ->
      call (executeTransaction env txHash) s
      = (Reverted (TxExpired txHash (eta t) (gracePeriod s)
                     (block_timestamp env)), s))
  /\ (forall h a b c,
        fst (call (executeTransaction env txHash) s)
        = Reverted (TxExpired h a b c) ->
        (forall h' a' b' c',
            fst (call (executeExpiredTransaction env txHash) s)
            <> Reverted (TransactionNotExpired h' a' b' c'))
        /\ (admin_or_governance env s = true ->
            exists result trace,
              fst (call (executeExpiredTransaction env txHash) s)
              = Success result trace)).
Proof.
  intros Op Pe [_ Hnow] G t r.
  assert (Early : block_timestamp env < eta t ->
    call (executeTransaction env txHash) s
    = (Reverted (TxNotReady txHash (eta t) (block_timestamp env)), s)).
  { intros L. destruct Op as [Hp Hs]. destruct Pe as (Hq & He & Hc).
    apply Z.ltb_lt in L.
    unfold executeTransaction, executeTransaction_with. monad_unfold.
    repeat (cbn; frames; rewrite ?Hp, ?Hs, ?Hq, ?He, ?Hc).
    fold t. now rewrite L. }
  assert (Late : eta t + gracePeriod s < block_timestamp env ->
    call (executeTransaction env txHash) s
    = (Reverted (TxExpired txHash (eta t) (gracePeriod s)
                   (block_timestamp env)), s)).
  { intros L. destruct Op as [Hp Hs]. destruct Pe as (Hq & He & Hc).
    assert (L1 : (block_timestamp env <? eta t) = false)
      by (apply Z.ltb_ge; lia).
    assert (L2 : Uint256.add (eta t) (gracePeriod s)
                 = Some (eta t + gracePeriod s))
      by (apply checked_sum; lia).
    apply Z.ltb_lt in L.
    unfold executeTransaction, executeTransaction_with. monad_unfold.
    repeat (cbn; frames; rewrite ?Hp, ?Hs, ?Hq, ?He, ?Hc).
    fold t. rewrite L1. cbn. rewrite L2. cbn. now rewrite L. }
  assert (Over : eta t <= block_timestamp env ->
    Uint256.max < eta t + gracePeriod s ->
    call (executeTransaction env txHash) s = (Reverted (Panic 0x11), s)).
  { intros L M. destruct Op as [Hp Hs]. destruct Pe as (Hq & He & Hc).
    apply Z.ltb_ge in L. apply checked_overflow in M.
    unfold executeTransaction, executeTransaction_with. monad_unfold.
    repeat (cbn; frames; rewrite ?Hp, ?Hs, ?Hq, ?He, ?Hc).
    fold t. rewrite L. cbn. now rewrite M. }
  assert (Inside : eta t <= block_timestamp env ->
    block_timestamp env <= eta t + gracePeriod s ->
    eta t + gracePeriod s <= Uint256.max ->
    (forall h a b,
        fst (call (executeTransaction env txHash) s)
        <> Reverted (TxNotReady h a b))
    /\ (forall h a b c,
          fst (call (executeTransaction env txHash) s)
          <> Reverted (TxExpired h a b c))).
  { intros L1 L2 M.
    rewrite (executeTransaction_in_window env s txHash Op Pe L1 L2 M).
    cbv zeta.
    destruct (authorized_by_tokens env s (msg_sender env)) as [byTokens|];
      [|split; intros; discriminate].
    destruct (byTokens || hasRole s EXECUTOR_ROLE (msg_sender env));
      [|split; intros; discriminate].
    destruct (fst (external_call _ _ _ _)); split; intros; discriminate. }
  split; [exact Early|]. split; [|split; [exact Late|]].
  - intros E M.
    pose proof (executeTransaction_in_window env s txHash Op Pe) as W.
    cbv zeta in W. fold t in W. fold r in W.
    specialize (W ltac:(lia) ltac:(lia) M).
    destruct (Inside ltac:(lia) ltac:(lia) M) as [NotEarly NotLate].
    split; [exact NotEarly|]. split; [exact NotLate|].
    split; [intros Tk; now rewrite W, Tk|].
    split; [intros Tk No; now rewrite W, Tk, No|].
    split.
    + intros A F.
      destruct (executor_authorized_cases env s A) as (byTokens & Tk & Yes).
      now rewrite W, Tk, Yes, F.
    + intros A F.
      destruct (executor_authorized_cases env s A) as (byTokens & Tk & Yes).
      rewrite W, Tk, Yes, F.
      destruct Op as [Hp Hs]. destruct Pe as (Hq & He & Hc).
      destruct (after_execution_record env s txHash Hq)
        as (Er & Q' & Ev & In_).
      fold t in Er, Ev, In_.
      do 2 eexists. split; [reflexivity|]. split; [exact Ev|]. split.
      { cbn [st].
        change (_timelockTransactions (set_status NOT_ENTERED ?x))
          with (_timelockTransactions x).
        now rewrite Er. }
      intros I0. rewrite (In_ I0). unfold with_call, at_execution.
      cbn [st effects]. fold t. split; [reflexivity|].
      now apply guard_released_executed.
  - intros h a b c X.
    assert (L : eta t + gracePeriod s < block_timestamp env).
    { destruct (Z_lt_dec (block_timestamp env) (eta t)) as [L0|L0];
        [rewrite (Early L0) in X; discriminate|].
      destruct (Z_lt_dec (eta t + gracePeriod s) (block_timestamp env))
        as [L1|L1]; [exact L1|].
      exfalso.
      destruct (Z_le_dec (eta t + gracePeriod s) Uint256.max) as [M|M].
      - destruct (Inside ltac:(lia) ltac:(lia) M) as [_ NotLate].
        exact (NotLate h a b c X).
      - rewrite Over in X by lia. discriminate. }
    pose proof (executeExpiredTransaction_run env s txHash Op Pe) as Run.
    cbv zeta in Run. fold t in Run. fold r in Run.
    rewrite checked_sum in Run by lia.
    apply Z.leb_gt in L. rewrite L in Run. rewrite Run. split.
    + intros h' a' b' c'.
      destruct (admin_or_governance env s); [|discriminate].
      destruct (fst r); discriminate.
    + intros A. rewrite A. destruct (fst r); do 2 eexists; reflexivity.
Qed.

(** [_queueTransaction], case by case. *)
Lemma _queueTransaction_run env s target value data delay level :
  call (_queueTransaction env target value data delay level) s
  = if target =? 0 then (Reverted (ZeroAddress "target"), s)
    else if delay <? minDelay s then
      (Reverted (DelayTooShort delay (minDelay s)), s)
    else if maxDelay s <? delay then
      (Reverted (DelayTooLong delay (maxDelay s)), s)
    else
      match Uint256.add (block_timestamp env) delay with
      | None => (Reverted (Panic 0x11), s)
      | Some eta =>
          let txHash := keccak256 (abi_encode target value data eta) in
          if queuedTransactions s txHash then
            (Reverted (TxAlreadyQueued txHash), s)
          else
            (Success txHash
               [TransactionQueued txHash target value data eta level;
                TransactionSubmitted txHash (msg_sender env)],
             write_queued txHash true
               (set_timelockTransactions
                  (write_hash (_timelockTransactions s) txHash
                     (fresh_record target value data eta)) s))
      end.
Proof.
  unfold _queueTransaction. monad_unfold. cbn.
  destruct (target =? 0); cbn; [reflexivity|].
  destruct (delay <? minDelay s); cbn; [reflexivity|].
  destruct (maxDelay s <? delay); cbn; [reflexivity|].
  destruct (Uint256.add (block_timestamp env) delay) as [eta|]; cbn;
    [|reflexivity].
  destruct (queuedTransactions s _); reflexivity.
Qed.

Lemma valid_request_tests env s target delay :
  valid_request env s target delay ->
  (target =? 0) = false /\ (delay <? minDelay s) = false
  /\ (maxDelay s <? delay) = false
  /\ Uint256.add (block_timestamp env) delay
     = Some (block_timestamp env + delay).
Proof.
  intros (T & [L U] & M). repeat split.
  - now apply Z.eqb_neq.
  - apply Z.ltb_ge. lia.
  - apply Z.ltb_ge. lia.
  - now apply checked_sum.
Qed.

(** A valid request whose id is free is queued. *)
Lemma _queueTransaction_fresh env s target value data delay level :
  valid_request env s target delay ->
  queuedTransactions s
    (keccak256 (abi_encode target value data (block_timestamp env + delay)))
  = false ->
  let eta := block_timestamp env + delay in
  let txHash := keccak256 (abi_encode target value data eta) in
  call (_queueTransaction env target value data delay level) s
  = (Success txHash
       [TransactionQueued txHash target value data eta level;
        TransactionSubmitted txHash (msg_sender env)],
     write_queued txHash true
       (set_timelockTransactions
          (write_hash (_timelockTransactions s) txHash
             (fresh_record target value data eta)) s)).
Proof.
  intros V Q. destruct (valid_request_tests _ _ _ _ V) as (A & B & C & D).
  rewrite _queueTransaction_run, A, B, C, D. cbv zeta. now rewrite Q.
Qed.

(** Distinct requests have distinct ids when the hash has no collisions. *)
Lemma distinct_requests_distinct_ids
  (t1 v1 : Z) (d1 : bytes) (e1 t2 v2 : Z) (d2 : bytes) (e2 : Z) :
  CollisionFree ->
  Uint256.in_range t1 -> Uint256.in_range v1 -> Uint256.in_range e1 ->
  Uint256.in_range t2 -> Uint256.in_range v2 -> Uint256.in_range e2 ->
  (t1, v1, d1, e1) <> (t2, v2, d2, e2) ->
  keccak256 (abi_encode t1 v1 d1 e1) <> keccak256 (abi_encode t2 v2 d2 e2).
Proof.
  intros CF Rt1 Rv1 Re1 Rt2 Rv2 Re2 N E. apply N.
  apply CF, abi_encode_inj in E; try assumption.
  destruct E as (-> & -> & -> & ->). reflexivity.
Qed.

(** C4.  A queued request is stored under
    [keccak256(abi.encode(target, value, data, eta))] with
    [eta = now + delay].  While that id is queued, a request with the same
    four fields never succeeds, and fails [TxAlreadyQueued] when its
    parameters are valid.  With a collision-free hash, two valid requests
    that differ in any of the four fields (in the delay alone, say, which
    changes [eta]) get different ids, the second is queued after the first,
    and both records are then queued side by side. *)
Theorem queue_ids_and_collisions env1 env2 s t1 v1 d1 delay1 level1
  t2 v2 d2 delay2 level2 :
  let e1 := block_timestamp env1 + delay1 in
  let e2 := block_timestamp env2 + delay2 in
  let id1 := keccak256 (abi_encode t1 v1 d1 e1) in
  let id2 := keccak256 (abi_encode t2 v2 d2 e2) in
  (forall result trace s',
      call (_queueTransaction env1 t1 v1 d1 delay1 level1) s
      = (Success result trace, s') ->
      result = id1
      /\ queuedTransactions s' id1 = true
      /\ _timelockTransactions s' id1 = fresh_record t1 v1 d1 e1)
  /\ (queuedTransactions s id1 = true ->
      (forall result trace s',
          call (_queueTransaction env1 t1 v1 d1 delay1 level1) s
          <> (Success result trace, s'))
      /\ (valid_request env1 s t1 delay1 ->
          call (_queueTransaction env1 t1 v1 d1 delay1 level1) s
          = (Reverted (TxAlreadyQueued id1), s)))
  /\ (CollisionFree ->
      Uint256.in_range t1 -> Uint256.in_range v1 -> Uint256.in_range e1 ->
      Uint256.in_range t2 -> Uint256.in_range v2 -> Uint256.in_range e2 ->
      (t1, v1, d1, e1) <> (t2, v2, d2, e2) ->
      id1 <> id2
      /\ (valid_request env1 s t1 delay1 ->
          valid_request env2 s t2 delay2 ->
          queuedTransactions s id1 = false ->
          queuedTransactions s id2 = false ->
          exists trace1 s1 trace2 s2,
            call (_queueTransaction env1 t1 v1 d1 delay1 level1) s
            = (Success id1 trace1, s1)
            /\ call (_queueTransaction env2 t2 v2 d2 delay2 level2) s1
               = (Success id2 trace2, s2)
            /\ queuedTransactions s2 id1 = true
            /\ queuedTransactions s2 id2 = true
            /\ _timelockTransactions s2 id1 = fresh_record t1 v1 d1 e1
            /\ _timelockTransactions s2 id2 = fresh_record t2 v2 d2 e2)).
Proof.
  intros e1 e2 id1 id2. split; [|split].
  - intros result trace s' E. rewrite _queueTransaction_run in E.
    destruct (t1 =? 0); [discriminate|].
    destruct (delay1 <? minDelay s); [discriminate|].
    destruct (maxDelay s <? delay1); [discriminate|].
    unfold Uint256.add in E. fold e1 in E.
    destruct (e1 <=? Uint256.max); [|discriminate].
    cbv zeta in E. fold id1 in E.
    destruct (queuedTransactions s id1); [discriminate|].
    injection E as <- _ <-. cbn. now rewrite !write_hash_same.
  - intros Q. split.
    + intros result trace s' E. rewrite _queueTransaction_run in E.
      destruct (t1 =? 0); [discriminate|].
      destruct (delay1 <? minDelay s); [discriminate|].
      destruct (maxDelay s <? delay1); [discriminate|].
      unfold Uint256.add in E. fold e1 in E.
      destruct (e1 <=? Uint256.max); [|discriminate].
      cbv zeta in E. fold id1 in E. rewrite Q in E. discriminate.
    + intros V. destruct (valid_request_tests _ _ _ _ V) as (A & B & C & D).
      rewrite _queueTransaction_run, A, B, C, D. cbv zeta. fold e1 id1.
      now rewrite Q.
  - intros CF Rt1 Rv1 Re1 Rt2 Rv2 Re2 N.
    assert (D : id1 <> id2)
      by now apply distinct_requests_distinct_ids.
    split; [exact D|]. intros V1 V2 Q1 Q2.
    do 4 eexists. split; [|split].
    + now apply _queueTransaction_fresh.
    + apply _queueTransaction_fresh; [exact V2|].
      cbn. fold e1 e2 id1 id2. rewrite write_hash_other by congruence.
      exact Q2.
    + cbn. fold e1 e2 id1 id2.
      rewrite !write_hash_same, !(write_hash_other _ id2 _ id1) by exact D.
      rewrite !write_hash_same. repeat split; reflexivity.
Qed.

Lemma level_eqb_eq (a b : ThreatLevel) : level_eqb a b = true <-> a = b.
Proof. destruct a, b; cbv; split; intros E; congruence. Qed.

Lemma level_eqb_neq (a b : ThreatLevel) : level_eqb a b = false <-> a <> b.
Proof. destruct a, b; cbv; split; intros E; congruence. Qed.

(** C5.  [getThreatLevel] returns the level set for the target address when
    that is not [LOW]; otherwise, for a payload of at least four bytes, the
    level set for its four leading bytes when that is not [LOW]; otherwise
    [LOW]. *)
Theorem getThreatLevel_precedence s target data :
  let addressLevel := addressThreatLevels s target in
  let functionLevel := functionThreatLevels s (leading_selector data) in
  (addressLevel <> LOW -> getThreatLevel s target data = addressLevel)
  /\ (addressLevel = LOW -> (4 <= length data)%nat -> functionLevel <> LOW ->
      getThreatLevel s target data = functionLevel)
  /\ (addressLevel = LOW ->
      (length data < 4)%nat \/ functionLevel = LOW ->
      getThreatLevel s target data = LOW).
Proof.
  intros addressLevel functionLevel. unfold getThreatLevel.
  fold addressLevel. repeat split.
  - intros N. apply level_eqb_neq in N. now rewrite N.
  - intros E L N. rewrite E. cbn [level_eqb negb].
    change (negb (level_eqb LOW LOW)) with false. cbv iota.
    assert (L4 : (4 <=? Z.of_nat (length data)) = true)
      by (apply Z.leb_le; lia).
    rewrite L4, selector_of_payload by exact L. fold functionLevel.
    apply level_eqb_neq in N. now rewrite N.
  - intros E C. rewrite E.
    change (negb (level_eqb LOW LOW)) with false. cbv iota.
    destruct (4 <=? Z.of_nat (length data)) eqn:L4; [|reflexivity].
    apply Z.leb_le in L4.
    rewrite selector_of_payload by lia. fold functionLevel.
    destruct C as [C|C]; [lia|]. rewrite C. reflexivity.
Qed.

(** [updateThreatLevelDelays], case by case. *)
Lemma updateThreatLevelDelays_run env s low medium high critical :
  call (updateThreatLevelDelays env low medium high critical) s
  = if config_authorized env s then
      if low <? minDelay s then
        (Reverted (DelayTooShort low (minDelay s)), s)
      else if (medium <? low) || (high <? medium) || (critical <? high) then
        (Reverted DelayHierarchyViolation, s)
      else if maxDelay s <? critical then
        (Reverted (DelayTooLong critical (maxDelay s)), s)
      else
        (Success tt [ThreatLevelDelaysUpdated low medium high critical],
         set_criticalThreatDelay critical
           (set_highThreatDelay high
              (set_mediumThreatDelay medium (set_lowThreatDelay low s))))
    else (Reverted (NotAuthorized (msg_sender env) DEFAULT_ADMIN_ROLE), s).
Proof.
  unfold config_authorized, admin_or_governance, updateThreatLevelDelays.
  monad_unfold. cbn.
  destruct (hasRole s ADMIN_ROLE (msg_sender env)),
    (hasRole s GOVERNANCE_ROLE (msg_sender env)),
    (msg_sender env =? this env); cbn; try reflexivity.
  all: destruct (low <? minDelay s); cbn; [reflexivity|].
  all: destruct (medium <? low); cbn; [reflexivity|].
  all: destruct (high <? medium); cbn; [reflexivity|].
  all: destruct (critical <? high); cbn; [reflexivity|].
  all: destruct (maxDelay s <? critical); reflexivity.
Qed.

(** C6, as the code has it.  For a caller that is Admin, Governance or the
    contract itself, [updateThreatLevelDelays] fails [DelayTooShort] when
    [low < minDelay], otherwise [DelayHierarchyViolation] when one of
    [low <= medium <= high <= critical] is broken, otherwise [DelayTooLong]
    when [critical > maxDelay]; every failure leaves the storage as it was,
    and otherwise the four tier delays are replaced together and nothing
    else changes. *)
Theorem updateThreatLevelDelays_outcomes env s low medium high critical :
  config_authorized env s = true ->
  (low < minDelay s ->
   call (updateThreatLevelDelays env low medium high critical) s
   = (Reverted (DelayTooShort low (minDelay s)), s))
  /\ (minDelay s <= low ->
      medium < low \/ high < medium \/ critical < high ->
      call (updateThreatLevelDelays env low medium high critical) s
      = (Reverted DelayHierarchyViolation, s))
  /\ (minDelay s <= low -> low <= medium -> medium <= high ->
      high <= critical -> maxDelay s < critical ->
      call (updateThreatLevelDelays env low medium high critical) s
      = (Reverted (DelayTooLong critical (maxDelay s)), s))
  /\ (minDelay s <= low -> low <= medium -> medium <= high ->
      high <= critical -> critical <= maxDelay s ->
      exists s',
        call (updateThreatLevelDelays env low medium high critical) s
        = (Success tt [ThreatLevelDelaysUpdated low medium high critical],
           s')
        /\ tier_delays s' = (low, medium, high, critical)
        /\ s' = set_criticalThreatDelay critical
                  (set_highThreatDelay high
                     (set_mediumThreatDelay medium
                        (set_lowThreatDelay low s)))).
Proof.
  intros A. rewrite updateThreatLevelDelays_run, A. repeat split.
  - intros L. apply Z.ltb_lt in L. now rewrite L.
  - intros L C. apply Z.ltb_ge in L. rewrite L.
    assert (O : (medium <? low) || (high <? medium) || (critical <? high)
                = true).
    { destruct C as [C|[C|C]]; apply Z.ltb_lt in C; rewrite C;
        now rewrite ?orb_true_r. }
    now rewrite O.
  - intros L1 L2 L3 L4 L5.
    apply Z.ltb_ge in L1, L2, L3, L4. apply Z.ltb_lt in L5.
    now rewrite L1, L2, L3, L4, L5.
  - intros L1 L2 L3 L4 L5.
    apply Z.ltb_ge in L1, L2, L3, L4, L5.
    rewrite L1, L2, L3, L4, L5. cbn. eexists. repeat split.
Qed.

Lemma getDelayForThreatLevel_tiers s :
  getDelayForThreatLevel s LOW = lowThreatDelay s
  /\ getDelayForThreatLevel s MEDIUM = mediumThreatDelay s
  /\ getDelayForThreatLevel s HIGH = highThreatDelay s
  /\ getDelayForThreatLevel s CRITICAL = criticalThreatDelay s.
Proof. repeat split. Qed.

(** The checks of [updateThreatLevelDelays] come before its writes: when it
    reverts, it has not touched the storage. *)
Lemma updateThreatLevelDelays_revert_untouched env a b c d w e w' :
  updateThreatLevelDelays env a b c d w = Revert e w' -> w' = w.
Proof.
  unfold updateThreatLevelDelays. monad_unfold. cbn.
  repeat (let b := fresh "b" in
          match goal with
          | |- context [if ?t then _ else _] => destruct t eqn:b; cbn
          end;
          try (intros [= _ <-]; now destruct w)).
  all: discriminate.
Qed.

(** C7.  In every reachable storage the delay of a lower threat level is at
    most the delay of a higher one; and a rejected
    [updateThreatLevelDelays] leaves the four tier delays unchanged (it
    reverts before it has written anything). *)
Theorem tier_delays_monotone s :
  reachable s ->
  (forall L1 L2, level_lt L1 L2 ->
     getDelayForThreatLevel s L1 <= getDelayForThreatLevel s L2)
  /\ (forall env a b c d e s',
        call (updateThreatLevelDelays env a b c d) s = (Reverted e, s') ->
        tier_delays s' = tier_delays s)
  /\ (forall env a b c d e w',
        updateThreatLevelDelays env a b c d {| st := s; effects := [] |}
        = Revert e w' ->
        tier_delays (st w') = tier_delays s).
Proof.
  intros R. split; [|split].
  - destruct (reachable_tiers s R) as (A & B & C).
    destruct (getDelayForThreatLevel_tiers s) as (E0 & E1 & E2 & E3).
    intros L1 L2 L. unfold level_lt in L.
    destruct L1, L2; cbn in L; try lia;
      rewrite ?E0, ?E1, ?E2, ?E3; lia.
  - intros env a b c d e s' E. unfold call in E.
    destruct (updateThreatLevelDelays env a b c d _); [discriminate|].
    now injection E as _ <-.
  - intros env a b c d e w' E.
    now rewrite (updateThreatLevelDelays_revert_untouched _ _ _ _ _ _ _ _ E).
Qed.




(** ** Cancellation *)

(** Either [h] is not queued, or the trace says that it was queued. *)
Definition stays_unqueued (h : bytes32) : World -> Prop :=
  fun w => queuedTransactions (st w) h = false \/ queued_event h (effects w).

Lemma queued_event_app_l h (a b : list Effect) :
  queued_event h a -> queued_event h (a ++ b).
Proof.
  intros (t & v & d & e & l & Hin). exists t, v, d, e, l.
  apply in_or_app. now left.
Qed.

Lemma queued_event_app_r h (a b : list Effect) :
  queued_event h b -> queued_event h (a ++ b).
Proof.
  intros (t & v & d & e & l & Hin). exists t, v, d, e, l.
  apply in_or_app. now right.
Qed.

Lemma unqueued_queueTransaction env h target value data delay level :
  keeps (stays_unqueued h)
    (_queueTransaction env target value data delay level).
Proof.
  intros [s ev] HP. unfold stays_unqueued in *. cbn [st effects] in *.
  unfold _queueTransaction. monad_unfold. exec_all.
  match goal with
  | |- write_hash _ ?id _ _ = _ \/ _ =>
      destruct (bytes32_eqb h id) eqn:E; unfold write_hash; rewrite E
  end.
  - right. apply bytes32_eqb_eq in E. subst h.
    apply queued_event_app_l, queued_event_app_r.
    do 5 eexists. now left.
  - destruct HP as [Q|Ev]; [now left|].
    right. now apply queued_event_app_l, queued_event_app_l.
Qed.

Ltac unqueued_write :=
  let w := fresh "w" in
  let Q := fresh "Q" in
  intros w [Q|Q]; [left|right; exact Q];
  first [ exact Q
        | cbn; unfold write_hash;
          destruct (bytes32_eqb _ _); [reflexivity | exact Q] ].

Ltac unqueued_emit :=
  let w := fresh "w" in
  let Q := fresh "Q" in
  intros w [Q|Q]; [left; exact Q | right; now apply queued_event_app_l].

Ltac unqueued_leaf :=
  lazymatch goal with
  | |- keeps _ (_queueTransaction _ _ _ _ _ _) =>
      apply unqueued_queueTransaction
  end.

Lemma survives_call_unqueued h : survives_call (stays_unqueued h).
Proof.
  intros w t v d [Q|Q]; [left; exact Q | right].
  unfold with_call. cbn [effects]. now apply queued_event_app_l.
Qed.

Lemma unqueued_kept_with h ext :
  calls_out (stays_unqueued h) ext ->
  forall env c, keeps (stays_unqueued h) (dispatch_with ext env c).
Proof.
  intros Hx env c. destruct c; cbn [dispatch_with];
    keeps_with ltac:(idtac; first [ext_leaf Hx | unqueued_leaf])
      unqueued_write unqueued_emit.
Qed.

Lemma unqueued_kept env c h : keeps (stays_unqueued h) (dispatch env c).
Proof.
  apply kept_at_top;
    [apply survives_call_unqueued | apply unqueued_kept_with].
Qed.

(** An id that is not queued stays so through any transactions whose
    traces do not queue it. *)
Lemma run_unqueued txs s h :
  queuedTransactions s h = false ->
  ~ queued_event h (fst (run txs s)) ->
  queuedTransactions (snd (run txs s)) h = false.
Proof.
  revert s. induction txs as [|[env c] txs IH]; intros s Q N; [exact Q|].
  cbn [run] in *.
  destruct (call (dispatch env c) s) as [[[] trace|e] s'] eqn:E.
  - pose proof (keeps_call _ _ _ _ _ _ (unqueued_kept env c h)
                  (or_introl Q) E) as [Q'|Ev].
    + specialize (IH s' Q'). destruct (run txs s') as [later s''].
      cbn [fst snd] in *. apply IH. intros Ev. apply N.
      now apply queued_event_app_r.
    + exfalso. apply N. destruct (run txs s') as [later s''].
      cbn [fst]. now apply queued_event_app_l.
  - now apply IH.
Qed.

Lemma executeTransaction_unqueued env s h :
  queuedTransactions s h = false ->
  (exists e, call (executeTransaction env h) s = (Reverted e, s))
  /\ (operational s ->
      call (executeTransaction env h) s = (Reverted (TxNotQueued h), s)).
Proof.
  intros Q. split.
  - unfold executeTransaction, executeTransaction_with. monad_unfold. cbn.
    destruct (_paused s); cbn; [eexists; reflexivity|].
    destruct (_status s); cbn; [|eexists; reflexivity].
    rewrite Q. cbn. eexists; reflexivity.
  - intros [Hp Hs]. unfold executeTransaction, executeTransaction_with.
    monad_unfold.
    repeat (cbn; rewrite ?Hp, ?Hs, ?Q). reflexivity.
Qed.

(** C9, as the code has it.  [cancelTransaction] on an executed or
    cancelled action always fails and changes nothing; by an authorized
    caller on a pending action (contract not paused) it succeeds and sets
    [canceled = true]; after that, [executeTransaction] on the id is
    rejected, and stays rejected through any further transactions as long
    as none of them queues the same id again. *)
Theorem cancelTransaction_outcomes env s txHash :
  (executed (_timelockTransactions s txHash) = true
   \/ canceled (_timelockTransactions s txHash) = true ->
   exists e, call (cancelTransaction env txHash) s = (Reverted e, s))
  /\ (_paused s = false -> pending s txHash ->
      cancel_authorized env s = true ->
      exists s',
        call (cancelTransaction env txHash) s
        = (Success tt [TransactionCanceled txHash], s')
        /\ canceled (_timelockTransactions s' txHash) = true
        /\ (forall env',
              exists e,
                call (executeTransaction env' txHash) s' = (Reverted e, s'))
        /\ (forall env', operational s' ->
              call (executeTransaction env' txHash) s'
              = (Reverted (TxNotQueued txHash), s'))
        /\ (forall txs env',
              ~ queued_event txHash (fst (run txs s')) ->
              exists e,
                call (executeTransaction env' txHash) (snd (run txs s'))
                = (Reverted e, snd (run txs s')))).
Proof.
  split.
  - intros X. unfold cancelTransaction. monad_unfold. cbn.
    destruct (_paused s); cbn; [eexists; reflexivity|].
    destruct (queuedTransactions s txHash); cbn; [|eexists; reflexivity].
    destruct (executed (_timelockTransactions s txHash)); cbn;
      [eexists; reflexivity|].
    destruct X as [X|X]; [discriminate|]. rewrite X. cbn.
    eexists; reflexivity.
  - intros Hp (Hq & He & Hc) A. unfold cancel_authorized in A.
    eexists. split.
    + unfold cancelTransaction. monad_unfold.
      repeat (cbn; rewrite ?Hp, ?Hq, ?He, ?Hc).
      destruct (hasRole s GUARDIAN_ROLE (msg_sender env)),
        (hasRole s CANCELLER_ROLE (msg_sender env)),
        (hasRole s PROPOSER_ROLE (msg_sender env));
        try discriminate A; reflexivity.
    + assert (Q : queuedTransactions
                    (write_queued txHash false
                       (write_canceled txHash true s)) txHash = false)
        by (cbn; apply write_hash_same).
      split; [cbn; now rewrite write_hash_same|]. split; [|split].
      * intros env'. now apply executeTransaction_unqueued.
      * intros env'. now apply executeTransaction_unqueued.
      * intros txs env' N. apply executeTransaction_unqueued.
        now apply run_unqueued.
Qed.

(** ** Marking failed and retrying *)

Lemma markTransactionAsFailed_run env s txHash :
  admin_or_governance env s = true ->
  queuedTransactions s txHash = true ->
  executed (_timelockTransactions s txHash) = true ->
  canceled (_timelockTransactions s txHash) = false ->
  call (markTransactionAsFailed env txHash) s
  = (Success tt
       [TransactionExecutionFailed txHash
          (target (_timelockTransactions s txHash))
          (list_byte_of_string "Manually marked as failed")],
     write_failed txHash true s).
Proof.
  intros A Hq He Hc. unfold admin_or_governance in A.
  unfold markTransactionAsFailed. monad_unfold. cbn.
  destruct (hasRole s ADMIN_ROLE (msg_sender env)),
    (hasRole s GOVERNANCE_ROLE (msg_sender env));
    try discriminate A;
    repeat (cbn; rewrite ?Hq, ?He, ?Hc); reflexivity.
Qed.

(** The world in which [executeFailedTransaction] makes its call. *)
Definition at_retry (s : Storage) (txHash : bytes32) : World :=
  let t := _timelockTransactions s txHash in
  {| st := write_failed txHash false (set_status ENTERED s);
     effects := [FailedTransactionRetried txHash (target t) (value t)
                   (data t)] |}.

Lemma executeFailedTransaction_run env s txHash :
  operational s ->
  queuedTransactions s txHash = true ->
  executed (_timelockTransactions s txHash) = true ->
  canceled (_timelockTransactions s txHash) = false ->
  _failedTransactions s txHash = true ->
  block_timestamp env
  <= eta (_timelockTransactions s txHash) + gracePeriod s ->
  eta (_timelockTransactions s txHash) + gracePeriod s <= Uint256.max ->
  admin_or_governance env s = true ->
  let t := _timelockTransactions s txHash in
  let r := external_call env (target t) (value t) (data t) in
  let w := reentered env (target t) (value t) (data t) (at_retry s txHash) in
  call (executeFailedTransaction env txHash) s
  = if fst r then
      (Success (snd r)
         (effects w
          ++ [TransactionExecuted txHash (target t) (value t) (data t)]),
       set_status NOT_ENTERED (st w))
    else (Reverted (CallFailed (target t) (data t)), s).
Proof.
  intros [Hp Hs] Hq He Hc Hf T M A t r w. subst t r w.
  unfold admin_or_governance in A.
  assert (T' : (eta (_timelockTransactions s txHash) + gracePeriod s
                <? block_timestamp env) = false) by (apply Z.ltb_ge; lia).
  apply checked_sum in M.
  unfold at_retry, executeFailedTransaction, executeFailedTransaction_with.
  monad_unfold.
  repeat (cbn; frames; rewrite ?Hp, ?Hs, ?Hq, ?He, ?Hc, ?Hf, ?M, ?T', ?A).
  destruct (external_call env _ _ _) as [[|] returnData];
    repeat (cbn; frames); reflexivity.
Qed.

(** What a retry whose callee succeeds leaves. *)
Lemma after_retry_record env s txHash :
  queuedTransactions s txHash = true ->
  executed (_timelockTransactions s txHash) = true ->
  let t := _timelockTransactions s txHash in
  let w := reentered env (target t) (value t) (data t) (at_retry s txHash) in
  _timelockTransactions (st w) txHash = t
  /\ queuedTransactions (st w) txHash = true
  /\ In (ExternalCall (target t) (value t) (data t)) (effects w)
  /\ (inert env (target t) (value t) (data t) ->
      w = with_call (at_retry s txHash) (target t) (value t) (data t)).
Proof.
  intros Q X t w.
  exact (reentered_record env (target t) (value t) (data t)
           (at_retry s txHash) txHash Q X).
Qed.

(** C10.  [markTransactionAsFailed] asks only for an Admin or Governance
    caller and a queued transaction that is executed and not cancelled;
    whether its call had failed plays no part.  So a pending transaction
    that [executeTransaction] runs successfully is left executed, queued
    and not cancelled, whatever its callee did; an Admin or Governance
    caller can then mark it failed; and [executeFailedTransaction] on the
    marked transaction, with the contract not paused, within the grace
    window and for an Admin or Governance caller, makes the same external
    call a second time, succeeding when the callee does. *)
Theorem markFailed_then_retry env1 env2 env3 s txHash :
  let t := _timelockTransactions s txHash in
  let r1 := external_call env1 (target t) (value t) (data t) in
  let r3 := external_call env3 (target t) (value t) (data t) in
  (forall s0, reachable s0 ->
     executed (_timelockTransactions s0 txHash) = true ->
     canceled (_timelockTransactions s0 txHash) = false ->
     admin_or_governance env2 s0 = true ->
     exists trace,
       call (markTransactionAsFailed env2 txHash) s0
       = (Success tt trace, write_failed txHash true s0))
  /\ (operational s -> pending s txHash ->
      eta t <= block_timestamp env1 ->
      block_timestamp env1 <= eta t + gracePeriod s ->
      eta t + gracePeriod s <= Uint256.max ->
      executor_authorized env1 s = true ->
      fst r1 = true ->
      exists trace1 s1,
        call (executeTransaction env1 txHash) s
        = (Success (snd r1) trace1, s1)
        /\ In (ExternalCall (target t) (value t) (data t)) trace1
        /\ queuedTransactions s1 txHash = true
        /\ _timelockTransactions s1 txHash
           = {| target := target t; value := value t; data := data t;
                eta := eta t; executed := true; canceled := false |}
        /\ (inert env1 (target t) (value t) (data t) ->
            s1 = write_executed txHash true s)
        /\ (admin_or_governance env2 s1 = true ->
            exists trace2,
              call (markTransactionAsFailed env2 txHash) s1
              = (Success tt trace2, write_failed txHash true s1)
              /\ (_paused s1 = false ->
                  block_timestamp env3 <= eta t + gracePeriod s1 ->
                  eta t + gracePeriod s1 <= Uint256.max ->
                  admin_or_governance env3 s1 = true ->
                  (fst r3 = false ->
                   call (executeFailedTransaction env3 txHash)
                     (write_failed txHash true s1)
                   = (Reverted (CallFailed (target t) (data t)),
                      write_failed txHash true s1))
                  /\ (fst r3 = true ->
                      exists trace3 s3,
                        call (executeFailedTransaction env3 txHash)
                          (write_failed txHash true s1)
                        = (Success (snd r3) trace3, s3)
                        /\ In (FailedTransactionRetried txHash (target t)
                                 (value t) (data t)) trace3
                        /\ In (ExternalCall (target t) (value t) (data t))
                             trace3)))).
Proof.
  intros t r1 r3. split.
  - intros s0 R He Hc A. eexists.
    apply markTransactionAsFailed_run; try assumption.
    now apply (reachable_ledger s0 R txHash).
  - intros Op Pe T1 T2 M A1 F1.
    pose proof (executeTransaction_in_window env1 s txHash Op Pe T1 T2 M)
      as W.
    cbv zeta in W. fold t in W. fold r1 in W.
    destruct (executor_authorized_cases env1 s A1) as (byTokens & Tk & Yes).
    rewrite Tk, Yes, F1 in W.
    destruct Op as [Hp Hs]. destruct Pe as (Hq & He & Hc).
    destruct (after_execution_record env1 s txHash Hq)
      as (Er & Q' & Ev & In_).
    rewrite Hc in Er. fold t in Er, Ev, In_.
    set (w := after_execution env1 s txHash) in *.
    set (s1 := set_status NOT_ENTERED (st w)) in *.
    assert (R1 : _timelockTransactions s1 txHash
                 = {| target := target t; value := value t; data := data t;
                      eta := eta t; executed := true; canceled := false |})
      by exact Er.
    assert (Q1 : queuedTransactions s1 txHash = true) by exact Q'.
    exists (effects w), s1. split; [exact W|]. split; [exact Ev|].
    split; [exact Q1|]. split; [exact R1|]. split.
    { intros I0. subst s1. rewrite (In_ I0). unfold with_call, at_execution.
      cbn [st]. now apply guard_released_executed. }
    intros A2.
    assert (M1 : call (markTransactionAsFailed env2 txHash) s1
                 = (Success tt
                      [TransactionExecutionFailed txHash (target t)
                         (list_byte_of_string "Manually marked as failed")],
                    write_failed txHash true s1)).
    { rewrite (markTransactionAsFailed_run env2 s1 txHash);
        rewrite ?R1; auto. }
    eexists. split; [exact M1|].
    intros Hp1 T3 M3 A3.
    set (s2 := write_failed txHash true s1).
    assert (R2 : _timelockTransactions s2 txHash
                 = {| target := target t; value := value t; data := data t;
                      eta := eta t; executed := true; canceled := false |})
      by exact R1.
    assert (Run : operational s2
                  /\ queuedTransactions s2 txHash = true
                  /\ _failedTransactions s2 txHash = true
                  /\ gracePeriod s2 = gracePeriod s1
                  /\ admin_or_governance env3 s2 = true).
    { repeat split; try assumption. cbn. apply write_hash_same. }
    destruct Run as (Op2 & Q2 & F2 & G2 & A32).
    pose proof (executeFailedTransaction_run env3 s2 txHash Op2 Q2) as Retry.
    rewrite R2 in Retry.
    cbn [target value data eta executed canceled] in Retry.
    rewrite G2 in Retry.
    specialize (Retry eq_refl eq_refl F2 T3 M3 A32). cbv zeta in Retry.
    fold r3 in Retry. split.
    + intros F3. now rewrite Retry, F3.
    + intros F3. rewrite Retry, F3.
      destruct (after_retry_record env3 s2 txHash Q2)
        as (_ & _ & Ev3 & _); [now rewrite R2|].
      rewrite R2 in Ev3.
      cbn [target value data eta executed canceled] in Ev3.
      destruct (reentered_trace env3 (target t) (value t) (data t)
                  (at_retry s2 txHash)) as [more E3].
      do 2 eexists. split; [reflexivity|]. split.
      * apply in_or_app. left. rewrite E3. unfold at_retry.
        cbn [effects]. rewrite R2. cbn. now left.
      * apply in_or_app. left. exact Ev3.
Qed.

(** * Further properties of the contract *)

(** ** The pause switch *)

(** X1.  While the contract is paused, queueing (all four entry points),
    executing (normal, expired, retry) and cancelling revert with the
    pause error and leave the storage as it was. *)
Theorem paused_blocks_operations env s :
  _paused s = true ->
  (forall target value data,
      call (queueTransactionWithThreatLevel env target value data) s
      = (Reverted (ErrorString "Pausable: paused"), s))
  /\ (forall target value data delay,
        call (queueTransaction env target value data delay) s
        = (Reverted (ErrorString "Pausable: paused"), s))
  /\ (forall a b c,
        call (queueDelayUpdate env a b c) s
        = (Reverted (ErrorString "Pausable: paused"), s))
  /\ (forall a b c d,
        call (queueThreatLevelDelaysUpdate env a b c d) s
        = (Reverted (ErrorString "Pausable: paused"), s))
  /\ (forall txHash,
        call (executeTransaction env txHash) s
        = (Reverted (ErrorString "Pausable: paused"), s)
        /\ call (executeExpiredTransaction env txHash) s
           = (Reverted (ErrorString "Pausable: paused"), s)
        /\ call (executeFailedTransaction env txHash) s
           = (Reverted (ErrorString "Pausable: paused"), s)
        /\ call (cancelTransaction env txHash) s
           = (Reverted (ErrorString "Pausable: paused"), s)).
Proof.
  intros Hp. repeat split; intros;
    unfold queueTransactionWithThreatLevel, queueTransaction,
      queueDelayUpdate, queueThreatLevelDelaysUpdate, executeTransaction,
      executeExpiredTransaction, executeFailedTransaction,
      executeTransaction_with, executeExpiredTransaction_with,
      executeFailedTransaction_with, cancelTransaction;
    monad_unfold; cbn; rewrite Hp; reflexivity.
Qed.

(** ** Marking failed *)

(** X2.  [markTransactionAsFailed], called by Admin or Governance on a
    queued transaction that is not cancelled, rejects it when it has not
    been executed; so a transaction whose [executeTransaction] reverted on
    a failing call (and is therefore still unexecuted) cannot be marked
    failed.  The function is not subject to the pause switch: on an
    executed transaction it succeeds even while the contract is paused. *)
Theorem markTransactionAsFailed_needs_execution env s txHash :
  admin_or_governance env s = true ->
  queuedTransactions s txHash = true ->
  canceled (_timelockTransactions s txHash) = false ->
  (executed (_timelockTransactions s txHash) = false ->
   call (markTransactionAsFailed env txHash) s
   = (Reverted (ErrorString "Transaction not executed yet"), s))
  /\ (executed (_timelockTransactions s txHash) = true ->
      _paused s = true ->
      exists trace s',
        call (markTransactionAsFailed env txHash) s = (Success tt trace, s')
        /\ _failedTransactions s' txHash = true).
Proof.
  intros A Hq Hc. split.
  - intros He. unfold admin_or_governance in A.
    unfold markTransactionAsFailed. monad_unfold. cbn.
    destruct (hasRole s ADMIN_ROLE (msg_sender env)),
      (hasRole s GOVERNANCE_ROLE (msg_sender env));
      try discriminate A; repeat (cbn; rewrite ?Hq, ?He); reflexivity.
  - intros He _. do 2 eexists. split.
    + now apply markTransactionAsFailed_run.
    + cbn. apply write_hash_same.
Qed.

(** ** Retrying *)

(** X3.  [executeFailedTransaction] on a transaction that is executed, not
    cancelled and marked failed, inside the grace window, by an Admin or
    Governance caller, the contract not paused: when the call fails the
    caller gets [CallFailed] and the storage is unchanged, so the
    transaction is still marked failed; when the call succeeds the caller
    gets the callee's data and the record is as before, and if the callee
    has not called back into the timelock the failed flag is cleared and
    nothing else has changed, so that a retry made next is rejected as not
    previously failed. *)
Theorem executeFailedTransaction_outcomes env s txHash :
  operational s ->
  queuedTransactions s txHash = true ->
  executed (_timelockTransactions s txHash) = true ->
  canceled (_timelockTransactions s txHash) = false ->
  _failedTransactions s txHash = true ->
  block_timestamp env
  <= eta (_timelockTransactions s txHash) + gracePeriod s ->
  eta (_timelockTransactions s txHash) + gracePeriod s <= Uint256.max ->
  admin_or_governance env s = true ->
  let t := _timelockTransactions s txHash in
  let r := external_call env (target t) (value t) (data t) in
  (fst r = false ->
   call (executeFailedTransaction env txHash) s
   = (Reverted (CallFailed (target t) (data t)), s))
  /\ (fst r = true ->
      exists trace s',
        call (executeFailedTransaction env txHash) s
        = (Success (snd r) trace, s')
        /\ In (ExternalCall (target t) (value t) (data t)) trace
        /\ _timelockTransactions s' txHash = t
        /\ (inert env (target t) (value t) (data t) ->
            s' = write_failed txHash false s
            /\ forall env',
                 call (executeFailedTransaction env' txHash) s'
                 = (Reverted (TransactionNotPreviouslyFailed txHash), s'))).
Proof.
  intros Op Hq He Hc Hf T M A t r.
  pose proof (executeFailedTransaction_run env s txHash Op Hq He Hc Hf T M A)
    as Run.
  cbv zeta in Run. fold t in Run. fold r in Run. split.
  - intros F. now rewrite F in Run.
  - intros F. rewrite F in Run.
    destruct (after_retry_record env s txHash Hq He) as (Er & _ & Ev & In_).
    fold t in Er, Ev, In_.
    do 2 eexists. split; [exact Run|].
    split; [apply in_or_app; left; exact Ev|]. split; [exact Er|].
    intros I0. rewrite (In_ I0). unfold with_call, at_retry. cbn [st].
    destruct Op as [Hp Hs]. rewrite guard_released_failed by exact Hs.
    split; [reflexivity|]. intros env'.
    unfold executeFailedTransaction, executeFailedTransaction_with.
    monad_unfold.
    repeat (cbn; frames; rewrite ?Hp, ?Hs, ?Hq, ?He, ?Hc, ?write_hash_same).
    reflexivity.
Qed.

(** Past [eta + gracePeriod], [executeFailedTransaction] reverts whatever
    else holds. *)
Lemma executeFailedTransaction_late env s txHash :
  eta (_timelockTransactions s txHash) + gracePeriod s
  < block_timestamp env ->
  exists e, call (executeFailedTransaction env txHash) s = (Reverted e, s).
Proof.
  intros L.
  unfold executeFailedTransaction, executeFailedTransaction_with.
  monad_unfold. cbn.
  destruct (_paused s); cbn; [eexists; reflexivity|].
  destruct (_status s); cbn; [|eexists; reflexivity].
  destruct (queuedTransactions s txHash); cbn; [|eexists; reflexivity].
  destruct (executed (_timelockTransactions s txHash)); cbn;
    [|eexists; reflexivity].
  destruct (canceled (_timelockTransactions s txHash)); cbn;
    [eexists; reflexivity|].
  destruct (_failedTransactions s txHash); cbn; [|eexists; reflexivity].
  unfold Uint256.add.
  destruct (_ <=? Uint256.max); cbn; [|eexists; reflexivity].
  apply Z.ltb_lt in L. rewrite L. cbn. eexists; reflexivity.
Qed.

(** X4.  [executeFailedTransaction] past the grace window always reverts;
    hence a transaction run by [executeExpiredTransaction] (which needs
    [now > eta + gracePeriod]) cannot be retried at that or a later time,
    whatever transactions come in between, as long as the grace period is
    not above what it was at the expired execution. *)
Theorem expired_execution_is_not_retryable env env' s txHash result trace s'
  txs :
  reachable s -> operational s -> pending s txHash ->
  call (executeExpiredTransaction env txHash) s = (Success result trace, s') ->
  block_timestamp env <= block_timestamp env' ->
  gracePeriod (snd (run txs s')) <= gracePeriod s ->
  exists e,
    call (executeFailedTransaction env' txHash) (snd (run txs s'))
    = (Reverted e, snd (run txs s')).
Proof.
  intros R Op Pe E L G.
  set (t := _timelockTransactions s txHash).
  rewrite (executeExpiredTransaction_run env s txHash Op Pe) in E.
  cbv zeta in E. fold t in E.
  destruct Op as [Hp Hs]. destruct Pe as (Hq & He & Hc).
  unfold Uint256.add in E.
  destruct (eta t + gracePeriod s <=? Uint256.max); [|discriminate].
  destruct (block_timestamp env <=? eta t + gracePeriod s) eqn:B;
    [discriminate|].
  apply Z.leb_gt in B.
  destruct (admin_or_governance env s); [|discriminate].
  assert (Done : eta (_timelockTransactions s' txHash) = eta t
                 /\ executed (_timelockTransactions s' txHash) = true
                 /\ queuedTransactions s' txHash = true).
  { destruct (reentered_record env (target t) (value t) (data t)
                (at_expired_execution s txHash) txHash)
      as (Er & Q' & _ & _);
      [exact Hq | cbn; now rewrite write_hash_same |].
    destruct (fst (external_call env (target t) (value t) (data t)));
      injection E as _ _ <-.
    - cbn [st].
      change (_timelockTransactions (set_status NOT_ENTERED ?x))
        with (_timelockTransactions x).
      change (queuedTransactions (set_status NOT_ENTERED ?x))
        with (queuedTransactions x).
      rewrite Er. cbn. rewrite write_hash_same. cbn. now repeat split.
    - cbn. rewrite write_hash_same. cbn. now repeat split. }
  destruct Done as (Eta & X & Q).
  destruct (run_settled txs s' txHash _ eq_refl X Q) as [Er _].
  apply executeFailedTransaction_late. rewrite Er, Eta. lia.
Qed.
(** ** Between transactions *)

(** X5.  The reentrancy guard is released in every reachable storage: no
    committed transaction leaves it entered, so between transactions the
    guarded functions are never rejected as reentrant. *)
Theorem guard_released_between_transactions s :
  reachable s -> _status s = NOT_ENTERED.
Proof.
  induction 1 as [|env c s s' _ IH [trace E]]; [reflexivity|].
  exact (keeps_call _ _ _ _ _ _ (status_kept env c) IH E).
Qed.

(** ** Executed and cancelled records *)

(** X6.  Execution is final.  Once a reachable storage records a
    transaction as executed, no sequence of transactions changes its record
    (target, value, data, eta, executed, canceled), and every later
    [executeTransaction], [executeExpiredTransaction] and
    [cancelTransaction] on its id is rejected. *)
Theorem executed_is_final s txHash txs :
  reachable s ->
  executed (_timelockTransactions s txHash) = true ->
  _timelockTransactions (snd (run txs s)) txHash
  = _timelockTransactions s txHash
  /\ forall env,
       (exists e, call (executeTransaction env txHash) (snd (run txs s))
                  = (Reverted e, snd (run txs s)))
       /\ (exists e,
             call (executeExpiredTransaction env txHash) (snd (run txs s))
             = (Reverted e, snd (run txs s)))
       /\ (exists e, call (cancelTransaction env txHash) (snd (run txs s))
                     = (Reverted e, snd (run txs s))).
Proof.
  intros R Ex.
  assert (Q : queuedTransactions s txHash = true)
    by now apply (reachable_ledger s R txHash).
  destruct (run_settled txs s txHash _ eq_refl Ex Q) as [Er Q'].
  split; [exact Er|].
  set (s' := snd (run txs s)) in *.
  assert (Ex' : executed (_timelockTransactions s' txHash) = true)
    by now rewrite Er.
  intros env. repeat split.
  - unfold executeTransaction, executeTransaction_with. monad_unfold. cbn.
    destruct (_paused s'); cbn; [eexists; reflexivity|].
    destruct (_status s'); cbn; [|eexists; reflexivity].
    repeat (cbn; rewrite ?Q', ?Ex'). eexists; reflexivity.
  - unfold executeExpiredTransaction, executeExpiredTransaction_with.
    monad_unfold. cbn.
    destruct (_paused s'); cbn; [eexists; reflexivity|].
    destruct (_status s'); cbn; [|eexists; reflexivity].
    repeat (cbn; rewrite ?Q', ?Ex'). eexists; reflexivity.
  - unfold cancelTransaction. monad_unfold. cbn.
    destruct (_paused s'); cbn; [eexists; reflexivity|].
    repeat (cbn; rewrite ?Q', ?Ex'). eexists; reflexivity.
Qed.

(** A cancelled record is not flagged queued. *)
Definition cancel_inv (s : Storage) : Prop :=
  forall h,
    canceled (_timelockTransactions s h) = true ->
    queuedTransactions s h = false.

Ltac cancel_case HP h :=
  let k := fresh "k" in
  let E := fresh "E" in
  intros k; specialize (HP k); cbn; unfold write_hash;
  destruct (bytes32_eqb k h) eqn:E;
  [ apply bytes32_eqb_eq in E; subst k | ];
  cbn; intros; auto; congruence.

Ltac cancel_close h :=
  match goal with
  | HP : cancel_inv _ |- _ => solve [exact HP | cancel_case HP h]
  | HP : on_storage cancel_inv _ |- _ =>
      unfold on_storage in HP; cbn [st] in HP;
      solve [exact HP | cancel_case HP h]
  end.

Ltac cancel_start Hx h :=
  let s := fresh "s" in
  let ev := fresh "ev" in
  let HP := fresh "HP" in
  intros [s ev] HP; unfold on_storage in HP |- *; cbn [st] in HP |- *;
  contract_unfold; monad_unfold;
  exec_with Hx ltac:(idtac; bool_facts; unfold on_storage; cbn [st];
                     cancel_case HP h);
  bool_facts.

Section Cancelled.

Variable ext : Env -> address -> Z -> bytes -> M (bool * bytes).
Hypothesis Hx : calls_out (on_storage cancel_inv) ext.

Lemma cancel_inv_executeTransaction env h :
  keeps (on_storage cancel_inv) (executeTransaction_with ext env h).
Proof. cancel_start Hx h; cancel_close h. Qed.

Lemma cancel_inv_executeExpiredTransaction env h :
  keeps (on_storage cancel_inv) (executeExpiredTransaction_with ext env h).
Proof. cancel_start Hx h; cancel_close h. Qed.

Lemma cancel_inv_executeFailedTransaction env h :
  keeps (on_storage cancel_inv) (executeFailedTransaction_with ext env h).
Proof. cancel_start Hx h; cancel_close h. Qed.

Lemma cancel_inv_markTransactionAsFailed env h :
  keeps (on_storage cancel_inv) (markTransactionAsFailed env h).
Proof. cancel_start Hx h; cancel_close h. Qed.

Lemma cancel_inv_cancelTransaction env h :
  keeps (on_storage cancel_inv) (cancelTransaction env h).
Proof. cancel_start Hx h; cancel_close h. Qed.

Lemma cancel_inv_queueTransaction env target value data delay level :
  keeps (on_storage cancel_inv)
    (_queueTransaction env target value data delay level).
Proof.
  intros [s ev] HP. unfold on_storage in *. cbn [st] in *.
  contract_unfold. monad_unfold. exec_all. bool_facts.
  match goal with
  | |- cancel_inv (write_queued ?h _ _) => generalize dependent h
  end.
  intros h Q. cancel_case HP h.
Qed.

Ltac cancel_inv_leaf :=
  lazymatch goal with
  | |- keeps _ (executeTransaction_with _ _ _) =>
      apply cancel_inv_executeTransaction
  | |- keeps _ (executeExpiredTransaction_with _ _ _) =>
      apply cancel_inv_executeExpiredTransaction
  | |- keeps _ (executeFailedTransaction_with _ _ _) =>
      apply cancel_inv_executeFailedTransaction
  | |- keeps _ (markTransactionAsFailed _ _) =>
      apply cancel_inv_markTransactionAsFailed
  | |- keeps _ (cancelTransaction _ _) => apply cancel_inv_cancelTransaction
  | |- keeps _ (_queueTransaction _ _ _ _ _ _) =>
      apply cancel_inv_queueTransaction
  end.

Lemma cancel_inv_kept_with env c :
  keeps (on_storage cancel_inv) (dispatch_with ext env c).
Proof.
  destruct c; cbn [dispatch_with];
    keeps_with ltac:(idtac; cancel_inv_leaf) unchanged unchanged.
Qed.

End Cancelled.

Lemma cancel_inv_kept env c : keeps (on_storage cancel_inv) (dispatch env c).
Proof.
  apply kept_at_top;
    [apply survives_call_on_storage | exact cancel_inv_kept_with].
Qed.

Lemma reachable_cancel_inv s : reachable s -> cancel_inv s.
Proof.
  induction 1 as [|env c s s' _ IH [trace E]].
  - intros h. cbn. discriminate.
  - exact (keeps_call _ _ _ _ _ _ (cancel_inv_kept env c) IH E).
Qed.

Ltac no_already_canceled Inv :=
  unfold executeTransaction_with, executeExpiredTransaction_with,
    executeFailedTransaction_with;
  monad_unfold;
  repeat (cbn; frames; try split_if); bool_facts; cbn;
  try discriminate;
  let X := fresh "X" in
  intros X;
  match goal with
  | Q : queuedTransactions _ ?h = true,
    C : canceled (_timelockTransactions _ ?h) = true |- _ =>
      rewrite (Inv h C) in Q; discriminate
  end.

(** X7.  In every reachable storage a cancelled record is not flagged
    queued (cancelling clears the flag, queueing again clears [canceled]).
    The functions test the flag first, so their [AlreadyCanceled] branch is
    never taken: a cancelled id is reported as [TxNotQueued]. *)
Theorem cancelled_is_reported_unqueued s :
  reachable s ->
  (forall h, canceled (_timelockTransactions s h) = true ->
             queuedTransactions s h = false)
  /\ forall env h h',
       fst (call (executeTransaction env h) s)
       <> Reverted (AlreadyCanceled h')
       /\ fst (call (executeExpiredTransaction env h) s)
          <> Reverted (AlreadyCanceled h')
       /\ fst (call (executeFailedTransaction env h) s)
          <> Reverted (AlreadyCanceled h')
       /\ fst (call (markTransactionAsFailed env h) s)
          <> Reverted (AlreadyCanceled h')
       /\ fst (call (cancelTransaction env h) s)
          <> Reverted (AlreadyCanceled h').
Proof.
  intros R. pose proof (reachable_cancel_inv s R) as Inv.
  split; [exact Inv|]. intros env h h'. repeat split.
  - unfold executeTransaction. no_already_canceled Inv.
  - unfold executeExpiredTransaction. no_already_canceled Inv.
  - unfold executeFailedTransaction. no_already_canceled Inv.
  - unfold markTransactionAsFailed. no_already_canceled Inv.
  - unfold cancelTransaction. no_already_canceled Inv.
Qed.

(** ** Queueing *)

(** The two public entry points, reduced to [_queueTransaction]. *)
Lemma queueTransactionWithThreatLevel_run env s target value data :
  _paused s = false ->
  call (queueTransactionWithThreatLevel env target value data) s
  = match authorized_by_tokens env s (msg_sender env) with
    | None => (Reverted RevertWithoutData, s)
    | Some byTokens =>
        if byTokens || hasRole s PROPOSER_ROLE (msg_sender env)
        then
          call (_queueTransaction env target value data
                  (getDelayForThreatLevel s (getThreatLevel s target data))
                  (getThreatLevel s target data)) s
        else (Reverted (NotAuthorized (msg_sender env) PROPOSER_ROLE), s)
    end.
Proof.
  intros Hp. unfold queueTransactionWithThreatLevel. monad_unfold.
  repeat (cbn; frames; rewrite ?Hp).
  destruct (authorized_by_tokens env s (msg_sender env)) as [[|]|];
    [| |reflexivity]; cbn;
    destruct (hasRole s PROPOSER_ROLE (msg_sender env)); cbn;
    try reflexivity;
    unfold call;
    destruct (_queueTransaction env target value data _ _ _); reflexivity.
Qed.

Lemma proposer_authorized_cases env s :
  proposer_authorized env s = true ->
  exists byTokens,
    authorized_by_tokens env s (msg_sender env) = Some byTokens
    /\ byTokens || hasRole s PROPOSER_ROLE (msg_sender env) = true.
Proof.
  unfold proposer_authorized.
  destruct (authorized_by_tokens env s (msg_sender env)) as [b|];
    [|discriminate].
  intros E. now exists b.
Qed.

Lemma queueTransaction_run env s target value data delay :
  _paused s = false ->
  call (queueTransaction env target value data delay) s
  = if target =? 0 then (Reverted (ZeroAddress "target"), s)
    else if delay <? minDelay s then
      (Reverted (DelayTooShort delay (minDelay s)), s)
    else if maxDelay s <? delay then
      (Reverted (DelayTooLong delay (maxDelay s)), s)
    else if hasRole s PROPOSER_ROLE (msg_sender env) then
      call (_queueTransaction env target value data delay
              (getThreatLevel s target data)) s
    else (Reverted (NotAuthorized (msg_sender env) PROPOSER_ROLE), s).
Proof.
  intros Hp. unfold queueTransaction. monad_unfold.
  repeat (cbn; rewrite ?Hp).
  destruct (target =? 0); cbn; [reflexivity|].
  destruct (delay <? minDelay s); cbn; [reflexivity|].
  destruct (maxDelay s <? delay); cbn; [reflexivity|].
  destruct (hasRole s PROPOSER_ROLE (msg_sender env)); cbn; [|reflexivity].
  unfold call.
  destruct (_queueTransaction env target value data _ _ _); reflexivity.
Qed.


(** X9.  [queueTransaction] takes the delay from the caller: a holder of
    the Proposer role schedules any request, whatever threat level
    [getThreatLevel] gives it, at [now + delay] for any delay within the
    global bounds (the level only goes into the event); a caller without
    the role is rejected even when token holdings would let the same caller
    use [queueTransactionWithThreatLevel]. *)
Theorem queueTransaction_custom_delay env s target value data delay :
  _paused s = false ->
  valid_request env s target delay ->
  let txHash :=
    keccak256 (abi_encode target value data (block_timestamp env + delay)) in
  (hasRole s PROPOSER_ROLE (msg_sender env) = false ->
   call (queueTransaction env target value data delay) s
   = (Reverted (NotAuthorized (msg_sender env) PROPOSER_ROLE), s))
  /\ (hasRole s PROPOSER_ROLE (msg_sender env) = true ->
      queuedTransactions s txHash = false ->
      exists s',
        call (queueTransaction env target value data delay) s
        = (Success txHash
             [TransactionQueued txHash target value data
                (block_timestamp env + delay)
                (getThreatLevel s target data);
              TransactionSubmitted txHash (msg_sender env)], s')
        /\ eta (_timelockTransactions s' txHash)
           = block_timestamp env + delay
        /\ pending s' txHash).
Proof.
  intros Hp V txHash.
  destruct (valid_request_tests _ _ _ _ V) as (A & B & C & D).
  rewrite (queueTransaction_run env s target value data delay Hp), A, B, C.
  split.
  - intros ->. reflexivity.
  - intros -> Q. rewrite _queueTransaction_run, A, B, C, D. cbv zeta.
    fold txHash. rewrite Q. eexists. split; [reflexivity|].
    unfold pending. cbn. rewrite !write_hash_same. cbn. repeat split.
Qed.

(** ** The global bounds *)

Lemma updateDelays_run env s newMinDelay newMaxDelay newGracePeriod :
  call (updateDelays env newMinDelay newMaxDelay newGracePeriod) s
  = if config_authorized env s then
      if newMinDelay =? 0 then (Reverted ZeroDelay, s)
      else if newMaxDelay <? newMinDelay then (Reverted InvalidParams, s)
      else if newGracePeriod =? 0 then (Reverted InvalidParams, s)
      else
        (Success tt [DelaysUpdated newMinDelay newMaxDelay newGracePeriod],
         set_gracePeriod newGracePeriod
           (set_maxDelay newMaxDelay (set_minDelay newMinDelay s)))
    else (Reverted (NotAuthorized (msg_sender env) DEFAULT_ADMIN_ROLE), s).
Proof.
  unfold config_authorized, admin_or_governance, updateDelays.
  monad_unfold. cbn.
  destruct (hasRole s ADMIN_ROLE (msg_sender env)),
    (hasRole s GOVERNANCE_ROLE (msg_sender env)),
    (msg_sender env =? this env); cbn; try reflexivity.
  all: destruct (newMinDelay =? 0); cbn; [reflexivity|].
  all: destruct (newMaxDelay <? newMinDelay); cbn; [reflexivity|].
  all: destruct (newGracePeriod =? 0); reflexivity.
Qed.

(** X10.  [updateDelays], for Admin, Governance or the contract itself,
    rejects a zero minimum, a maximum below the minimum and a zero grace
    period, and otherwise replaces the three bounds; it neither reads nor
    writes the tier delays.  So it can raise [minDelay] above a tier delay,
    after which [queueTransactionWithThreatLevel] rejects as
    [DelayTooShort] every request of that tier made by a caller whom the
    token check or the Proposer role authorizes. *)
Theorem updateDelays_outcomes env s newMinDelay newMaxDelay newGracePeriod :
  config_authorized env s = true ->
  (newMinDelay = 0 ->
   call (updateDelays env newMinDelay newMaxDelay newGracePeriod) s
   = (Reverted ZeroDelay, s))
  /\ (newMinDelay <> 0 -> newMaxDelay < newMinDelay \/ newGracePeriod = 0 ->
      call (updateDelays env newMinDelay newMaxDelay newGracePeriod) s
      = (Reverted InvalidParams, s))
  /\ (newMinDelay <> 0 -> newMinDelay <= newMaxDelay ->
      newGracePeriod <> 0 ->
      exists s',
        call (updateDelays env newMinDelay newMaxDelay newGracePeriod) s
        = (Success tt [DelaysUpdated newMinDelay newMaxDelay newGracePeriod],
           s')
        /\ minDelay s' = newMinDelay
        /\ maxDelay s' = newMaxDelay
        /\ gracePeriod s' = newGracePeriod
        /\ tier_delays s' = tier_delays s
        /\ forall env' target value data,
             _paused s = false -> target <> 0 ->
             proposer_authorized env' s' = true ->
             getDelayForThreatLevel s (getThreatLevel s target data)
             < newMinDelay ->
             call (queueTransactionWithThreatLevel env' target value data) s'
             = (Reverted
                  (DelayTooShort
                     (getDelayForThreatLevel s (getThreatLevel s target data))
                     newMinDelay), s')).
Proof.
  intros A. rewrite updateDelays_run, A. repeat split.
  - intros ->. reflexivity.
  - intros NZ C. apply Z.eqb_neq in NZ. rewrite NZ.
    destruct C as [C| ->].
    + apply Z.ltb_lt in C. now rewrite C.
    + now destruct (newMaxDelay <? newMinDelay).
  - intros NZ L NG. apply Z.eqb_neq in NZ, NG. apply Z.ltb_ge in L.
    rewrite NZ, L, NG. eexists. split; [reflexivity|].
    repeat split.
    intros env' target value data Hp NT Auth Short.
    set (s' := set_gracePeriod _ _) in *.
    destruct (proposer_authorized_cases env' s' Auth)
      as (byTokens & Tk & Yes).
    rewrite (queueTransactionWithThreatLevel_run env' s' target value data
               Hp), Tk, Yes, _queueTransaction_run.
    apply Z.eqb_neq in NT. rewrite NT.
    change (getThreatLevel s' target data) with (getThreatLevel s target data).
    change (getDelayForThreatLevel s' (getThreatLevel s target data))
      with (getDelayForThreatLevel s (getThreatLevel s target data)).
    change (minDelay s') with newMinDelay.
    apply Z.ltb_lt in Short. now rewrite Short.
Qed.

(** ** Initialization *)

(** What [_grantRole] does to a world; it never reverts. *)
Definition granted (env : Env) (role : Role) (account : address) (w : World)
  : World :=
  if hasRole (st w) role account then w
  else
    {| st := set_roleMembers
               (write_role (_roleMembers (st w)) role
                  (_roleMembers (st w) role ++ [account])) (st w);
       effects := effects w
                  ++ [DirectoryRoleGranted role account (msg_sender env)] |}.

Definition granted_all (env : Env) (role : Role) (l : list address)
  (w : World) : World :=
  fold_left (fun w p => if negb (p =? 0) then granted env role p w else w)
    l w.

Lemma _grantRole_granted env role account w :
  _grantRole env role account w = Ok tt (granted env role account w).
Proof.
  unfold _grantRole, granted. monad_unfold. cbn.
  destruct (hasRole (st w) role account); cbn; [now destruct w|reflexivity].
Qed.

Lemma for_each_granted env role l w :
  for_each l (fun p =>
    if negb (p =? 0) then _setupRole env role p else ret tt) w
  = Ok tt (granted_all env role l w).
Proof.
  revert w. induction l as [|p l IH]; intros w; [reflexivity|].
  cbn [for_each]. unfold granted_all. cbn [fold_left]. unfold bind.
  destruct (negb (p =? 0)).
  - unfold _setupRole. rewrite _grantRole_granted. apply IH.
  - unfold ret. apply IH.
Qed.

Lemma granted_frame env role account w :
  exists members,
    st (granted env role account w) = set_roleMembers members (st w).
Proof.
  unfold granted. destruct (hasRole (st w) role account).
  - exists (_roleMembers (st w)). now destruct (st w).
  - eexists. reflexivity.
Qed.

Lemma granted_all_frame env role l w :
  exists members,
    st (granted_all env role l w) = set_roleMembers members (st w).
Proof.
  revert w. induction l as [|p l IH]; intros w.
  - exists (_roleMembers (st w)). cbn. now destruct (st w).
  - unfold granted_all. cbn [fold_left]. destruct (negb (p =? 0)).
    + destruct (IH (granted env role p w)) as [m1 E1].
      destruct (granted_frame env role p w) as [m2 E2].
      exists m1. unfold granted_all in E1. now rewrite E1, E2.
    + apply IH.
Qed.

Lemma granted_keeps {X} (f : Storage -> X) env role account w :
  (forall m s, f (set_roleMembers m s) = f s) ->
  f (st (granted env role account w)) = f (st w).
Proof.
  intros F. destruct (granted_frame env role account w) as [m ->]. apply F.
Qed.

Lemma granted_all_keeps {X} (f : Storage -> X) env role l w :
  (forall m s, f (set_roleMembers m s) = f s) ->
  f (st (granted_all env role l w)) = f (st w).
Proof.
  intros F. destruct (granted_all_frame env role l w) as [m ->]. apply F.
Qed.

Lemma hasRole_granted env role account w r a :
  hasRole (st (granted env role account w)) r a
  = hasRole (st w) r a || (role_eqb r role && (a =? account)).
Proof.
  unfold granted. destruct (hasRole (st w) role account) eqn:Has.
  - destruct (role_eqb r role) eqn:R; [|now rewrite orb_false_r].
    apply role_eqb_eq in R. subst r.
    destruct (a =? account) eqn:E; [|now rewrite orb_false_r].
    apply Z.eqb_eq in E. subst a. now rewrite Has.
  - unfold hasRole at 1. cbn. unfold write_role.
    destruct (role_eqb r role) eqn:R; [|now rewrite orb_false_r].
    apply role_eqb_eq in R. subst r.
    rewrite existsb_app. cbn. now rewrite orb_false_r.
Qed.

Lemma hasRole_granted_all env role l w r a :
  hasRole (st (granted_all env role l w)) r a
  = hasRole (st w) r a
    || (role_eqb r role && negb (a =? 0) && existsb (Z.eqb a) l).
Proof.
  revert w. induction l as [|p l IH]; intros w.
  - cbn. now rewrite andb_false_r, orb_false_r.
  - unfold granted_all. cbn [fold_left existsb].
    destruct (p =? 0) eqn:Z0; cbn [negb].
    + fold (granted_all env role l w). rewrite IH.
      apply Z.eqb_eq in Z0. subst p.
      destruct (a =? 0) eqn:E; [|reflexivity].
      now rewrite !andb_false_r.
    + fold (granted_all env role l (granted env role p w)).
      rewrite IH, hasRole_granted.
      destruct (role_eqb r role); cbn; [|now rewrite !orb_false_r].
      destruct (a =? p) eqn:E.
      * apply Z.eqb_eq in E. subst p. rewrite Z0. cbn.
        now rewrite !orb_true_r.
      * rewrite orb_false_r. reflexivity.
Qed.

Lemma initialized_kept_with ext :
  calls_out (on_storage (fun s => _initialized s = true)) ext ->
  forall env c,
    keeps (on_storage (fun s => _initialized s = true))
      (dispatch_with ext env c).
Proof.
  intros Hx env c. destruct c; cbn [dispatch_with];
    keeps_with ltac:(idtac; ext_leaf Hx) status_write unchanged.
Qed.

Lemma initialized_kept env c :
  keeps (on_storage (fun s => _initialized s = true)) (dispatch env c).
Proof.
  apply kept_at_top;
    [apply survives_call_on_storage | exact initialized_kept_with].
Qed.

Lemma run_initialized txs s :
  _initialized s = true -> _initialized (snd (run txs s)) = true.
Proof.
  revert s. induction txs as [|[env c] txs IH]; intros s Hi; [exact Hi|].
  cbn [run]. destruct (call (dispatch env c) s) as [[[] trace|e] s'] eqn:E.
  - pose proof (keeps_call _ _ _ _ _ _ (initialized_kept env c) Hi E) as Hi'.
    specialize (IH s' Hi'). now destruct (run txs s').
  - now apply IH.
Qed.

(** Running straight-line code, one statement at a time. *)
Lemma run_bind {A B C} (m : M A) (k : A -> M B) (k' : B -> M C) w :
  bind (bind m k) k' w = bind m (fun a => bind (k a) k') w.
Proof. unfold bind. now destruct (m w). Qed.

Lemma run_sload {A B} (f : Storage -> A) (k : A -> M B) w :
  bind (sload f) k w = k (f (st w)) w.
Proof. reflexivity. Qed.

Lemma run_sstore {B} f (k : unit -> M B) w :
  bind (sstore f) k w = k tt {| st := f (st w); effects := effects w |}.
Proof. reflexivity. Qed.

Lemma run_emit {B} e (k : unit -> M B) w :
  bind (emit e) k w = k tt {| st := st w; effects := effects w ++ [e] |}.
Proof. reflexivity. Qed.

Lemma run_revert_if_false {B} e (k : unit -> M B) w :
  bind (revert_if false e) k w = k tt w.
Proof. reflexivity. Qed.

Lemma run_grantRole {B} env role account (k : unit -> M B) w :
  bind (_grantRole env role account) k w
  = k tt (granted env role account w).
Proof. unfold bind. now rewrite _grantRole_granted. Qed.

Lemma run_grant_each {B} env role l (k : unit -> M B) w :
  bind (for_each l (fun p =>
          if negb (p =? 0) then _grantRole env role p else ret tt)) k w
  = k tt (granted_all env role l w).
Proof.
  unfold bind.
  change (for_each l _ w)
    with (for_each l (fun p =>
            if negb (p =? 0) then _setupRole env role p else ret tt) w).
  now rewrite for_each_granted.
Qed.

Definition admin_roles : list Role :=
  [DEFAULT_ADMIN_ROLE; ADMIN_ROLE; TIMELOCK_ADMIN_ROLE; CANCELLER_ROLE;
   GUARDIAN_ROLE; GOVERNANCE_ROLE].

(** X11.  [initialize] runs once: on initialized storage it reverts, and
    storage stays initialized through every later transaction.  On fresh
    storage it rejects a zero [initialMinDelay] and a zero admin, and
    otherwise succeeds whatever the two lists hold: it sets the bounds
    ([maxDelay] 30 days, [gracePeriod] 14 days) and the default tier
    delays, and a role is held afterwards exactly when it was held before,
    or it is one of the six admin roles and the account is [admin], or it
    is the Proposer (Executor) role and the account is a non-zero entry of
    [proposers] ([executors]).  In particular the admin is made neither
    proposer nor executor. *)
Theorem initialize_outcomes env s initialMinDelay proposers executors admin :
  (_initialized s = true ->
   forall txs,
     call (initialize env initialMinDelay proposers executors admin)
       (snd (run txs s))
     = (Reverted
          (ErrorString "Initializable: contract is already initialized"),
        snd (run txs s)))
  /\ (_initialized s = false ->
      (initialMinDelay = 0 ->
       call (initialize env initialMinDelay proposers executors admin) s
       = (Reverted ZeroDelay, s))
      /\ (initialMinDelay <> 0 -> admin = 0 ->
          call (initialize env initialMinDelay proposers executors admin) s
          = (Reverted (ZeroAddress "admin"), s))
      /\ (initialMinDelay <> 0 -> admin <> 0 ->
          exists trace s',
            call (initialize env initialMinDelay proposers executors admin) s
            = (Success tt trace, s')
            /\ _initialized s' = true
            /\ _paused s' = false
            /\ minDelay s' = initialMinDelay
            /\ maxDelay s' = 30 * days
            /\ gracePeriod s' = 14 * days
            /\ tier_delays s' = (1 * days, 3 * days, 7 * days, 14 * days)
            /\ forall r a,
                 hasRole s' r a
                 = hasRole s r a
                   || (existsb (role_eqb r) admin_roles && (a =? admin))
                   || (role_eqb r PROPOSER_ROLE && negb (a =? 0)
                       && existsb (Z.eqb a) proposers)
                   || (role_eqb r EXECUTOR_ROLE && negb (a =? 0)
                       && existsb (Z.eqb a) executors))).
Proof.
  split.
  - intros Hi txs. pose proof (run_initialized txs s Hi) as Hi'.
    unfold call, initialize, initializer.
    rewrite run_sload. cbn [st]. rewrite Hi'. reflexivity.
  - intros Hi. repeat split.
    + intros ->. unfold call, initialize, initializer.
      rewrite run_sload. cbn [st]. rewrite Hi.
      rewrite run_revert_if_false, run_sstore, run_bind. reflexivity.
    + intros NZ ->. apply Z.eqb_neq in NZ.
      unfold call, initialize, initializer.
      rewrite run_sload. cbn [st]. rewrite Hi.
      rewrite run_revert_if_false, run_sstore, run_bind, NZ.
      rewrite run_revert_if_false, run_bind. reflexivity.
    + intros NZ NA. apply Z.eqb_neq in NZ, NA.
      unfold call, initialize, initializer, _setupRole.
      rewrite run_sload. cbn [st]. rewrite Hi.
      rewrite run_revert_if_false, run_sstore, run_bind, NZ.
      rewrite run_revert_if_false, run_bind, NA, run_revert_if_false.
      repeat (rewrite run_bind;
              first [ rewrite run_sstore | rewrite run_grantRole
                    | rewrite run_grant_each | rewrite run_emit ];
              cbv beta; cbn [st effects]).
      unfold emit. do 2 eexists. split; [reflexivity|].
      cbn [st effects].
      repeat (rewrite ?(granted_keeps _initialized),
                ?(granted_all_keeps _initialized),
                ?(granted_keeps _paused), ?(granted_all_keeps _paused),
                ?(granted_keeps minDelay), ?(granted_all_keeps minDelay),
                ?(granted_keeps maxDelay), ?(granted_all_keeps maxDelay),
                ?(granted_keeps gracePeriod),
                ?(granted_all_keeps gracePeriod),
                ?(granted_keeps tier_delays),
                ?(granted_all_keeps tier_delays) by reflexivity).
      do 6 (split; [reflexivity|]).
      intros r a.
      rewrite !hasRole_granted, !hasRole_granted_all, !hasRole_granted.
      match goal with
      | |- hasRole ?s0 r a || _ || _ || _ || _ || _ || _ || _ || _ = _ =>
          change (hasRole s0 r a) with (hasRole s r a)
      end.
      unfold admin_roles.
      destruct (hasRole s r a); [now rewrite ?orb_true_l|].
      destruct (a =? admin); destruct r; cbn;
        rewrite ?andb_false_r, ?orb_false_r; try reflexivity;
        destruct (negb (a =? 0) && existsb (Z.eqb a) proposers);
        destruct (negb (a =? 0) && existsb (Z.eqb a) executors);
        reflexivity.
Qed.

(** ** Threat-level tables *)

(** A batch, as the writes it stands for. *)
Definition function_levels_set (ps : list (Z * ThreatLevel)) (s : Storage)
  : Storage :=
  fold_left (fun s p => set_function_level (fst p) (snd p) s) ps s.

Definition address_levels_set (ps : list (address * ThreatLevel))
  (s : Storage) : Storage :=
  fold_left (fun s p => set_address_level (fst p) (snd p) s) ps s.

Lemma for_each_writes {A} (F : A -> Storage -> Storage) (G : A -> Effect)
  (l : list A) w :
  for_each l (fun p => bind (sstore (F p)) (fun _ => emit (G p))) w
  = Ok tt {| st := fold_left (fun s p => F p s) l (st w);
             effects := effects w ++ map G l |}.
Proof.
  revert w. induction l as [|p l IH]; intros w.
  - cbn. rewrite app_nil_r. now destruct w.
  - cbn [for_each fold_left map]. rewrite run_bind, run_sstore. cbv beta.
    rewrite run_emit, IH. cbn [st effects].
    now rewrite <- app_assoc.
Qed.

Lemma length_test {A B} (l : list A) (l' : list B) :
  negb (Nat.eqb (length l) (length l')) = false <-> length l = length l'.
Proof.
  rewrite negb_false_iff. apply Nat.eqb_eq.
Qed.

Lemma find_last {A} (f : A -> bool) (l : list A) (x : A) :
  find f (l ++ [x])
  = match find f l with
    | Some y => Some y
    | None => if f x then Some x else None
    end.
Proof.
  induction l as [|y l IH]; [reflexivity|].
  cbn. now destruct (f y).
Qed.

Lemma function_levels_lookup ps s sel :
  functionThreatLevels (function_levels_set ps s) sel
  = match find (fun p => fst p =? sel) (rev ps) with
    | Some p => snd p
    | None => functionThreatLevels s sel
    end.
Proof.
  revert s. induction ps as [|[k v] ps IH]; intros s; [reflexivity|].
  unfold function_levels_set. cbn [fold_left rev fst snd].
  fold (function_levels_set ps (set_function_level k v s)).
  rewrite IH, find_last.
  match goal with
  | |- context [find ?f (rev ps)] => destruct (find f (rev ps))
  end; [reflexivity|].
  cbn. unfold write_Z. rewrite (Z.eqb_sym k sel).
  now destruct (sel =? k).
Qed.

Lemma address_levels_lookup ps s a :
  addressThreatLevels (address_levels_set ps s) a
  = match find (fun p => fst p =? a) (rev ps) with
    | Some p => snd p
    | None => addressThreatLevels s a
    end.
Proof.
  revert s. induction ps as [|[k v] ps IH]; intros s; [reflexivity|].
  unfold address_levels_set. cbn [fold_left rev fst snd].
  fold (address_levels_set ps (set_address_level k v s)).
  rewrite IH, find_last.
  match goal with
  | |- context [find ?f (rev ps)] => destruct (find f (rev ps))
  end; [reflexivity|].
  cbn. unfold write_Z. rewrite (Z.eqb_sym k a).
  now destruct (a =? k).
Qed.

(** X12.  The batch setters, called by an admin: arrays of different
    lengths are rejected as [InvalidParams] and nothing is written;
    otherwise the entries are written in order, one event each, so that for
    a key listed more than once the last entry wins and unlisted keys keep
    their level. *)
Theorem batch_threat_levels env s :
  hasRole s ADMIN_ROLE (msg_sender env) = true ->
  (forall selectors levels,
      (length selectors <> length levels ->
       call (setBatchFunctionThreatLevels env selectors levels) s
       = (Reverted InvalidParams, s))
      /\ (length selectors = length levels ->
          call (setBatchFunctionThreatLevels env selectors levels) s
          = (Success tt
               (map (fun p => FunctionThreatLevelSet (fst p) (snd p))
                  (combine selectors levels)),
             function_levels_set (combine selectors levels) s)
          /\ forall sel,
               functionThreatLevels
                 (function_levels_set (combine selectors levels) s) sel
               = match find (fun p => fst p =? sel)
                         (rev (combine selectors levels)) with
                 | Some p => snd p
                 | None => functionThreatLevels s sel
                 end))
  /\ (forall targets levels,
        (length targets <> length levels ->
         call (setBatchAddressThreatLevels env targets levels) s
         = (Reverted InvalidParams, s))
        /\ (length targets = length levels ->
            call (setBatchAddressThreatLevels env targets levels) s
            = (Success tt
                 (map (fun p => AddressThreatLevelSet (fst p) (snd p))
                    (combine targets levels)),
               address_levels_set (combine targets levels) s)
            /\ forall a,
                 addressThreatLevels
                   (address_levels_set (combine targets levels) s) a
                 = match find (fun p => fst p =? a)
                           (rev (combine targets levels)) with
                   | Some p => snd p
                   | None => addressThreatLevels s a
                   end)).
Proof.
  intros HA. split; intros keys levels; split.
  - intros N. unfold call, setBatchFunctionThreatLevels, onlyRole.
    rewrite run_sload. cbn [st]. rewrite HA. cbn [negb].
    rewrite run_revert_if_false.
    destruct (negb (Nat.eqb (length keys) (length levels))) eqn:E;
      [reflexivity|].
    apply length_test in E. contradiction.
  - intros L. split; [|apply function_levels_lookup].
    unfold call, setBatchFunctionThreatLevels, onlyRole.
    rewrite run_sload. cbn [st]. rewrite HA. cbn [negb].
    rewrite run_revert_if_false.
    rewrite (proj2 (length_test keys levels) L), run_revert_if_false.
    now rewrite for_each_writes.
  - intros N. unfold call, setBatchAddressThreatLevels, onlyRole.
    rewrite run_sload. cbn [st]. rewrite HA. cbn [negb].
    rewrite run_revert_if_false.
    destruct (negb (Nat.eqb (length keys) (length levels))) eqn:E;
      [reflexivity|].
    apply length_test in E. contradiction.
  - intros L. split; [|apply address_levels_lookup].
    unfold call, setBatchAddressThreatLevels, onlyRole.
    rewrite run_sload. cbn [st]. rewrite HA. cbn [negb].
    rewrite run_revert_if_false.
    rewrite (proj2 (length_test keys levels) L), run_revert_if_false.
    now rewrite for_each_writes.
Qed.

(** [getThreatLevel] when the target has no override of its own. *)
Lemma getThreatLevel_by_selector s target data :
  addressThreatLevels s target = LOW ->
  getThreatLevel s target data
  = if 4 <=? Z.of_nat (length data)
    then functionThreatLevels s (leading_selector data)
    else LOW.
Proof.
  intros E. unfold getThreatLevel. rewrite E.
  change (negb (level_eqb LOW LOW)) with false. cbv iota.
  destruct (4 <=? Z.of_nat (length data)) eqn:L; [|reflexivity].
  apply Z.leb_le in L. rewrite selector_of_payload by lia.
  destruct (functionThreatLevels s (leading_selector data)); reflexivity.
Qed.

(** X13.  [setAddressThreatLevel], called by an admin, always succeeds.
    A level other than [LOW] then classifies every payload sent to that
    target, whatever its selector; setting [LOW] removes the override, so
    that the target is classified by selector again; other targets are
    classified as before. *)
Theorem setAddressThreatLevel_overrides env s target level :
  hasRole s ADMIN_ROLE (msg_sender env) = true ->
  exists s',
    call (setAddressThreatLevel env target level) s
    = (Success tt [AddressThreatLevelSet target level], s')
    /\ (level <> LOW -> forall data, getThreatLevel s' target data = level)
    /\ (level = LOW ->
        forall data,
          getThreatLevel s' target data
          = if 4 <=? Z.of_nat (length data)
            then functionThreatLevels s (leading_selector data)
            else LOW)
    /\ (forall other data, other <> target ->
          getThreatLevel s' other data = getThreatLevel s other data).
Proof.
  intros HA. exists (set_address_level target level s). split.
  - unfold setAddressThreatLevel. monad_unfold. cbn. now rewrite HA.
  - assert (Own : addressThreatLevels (set_address_level target level s)
                    target = level)
      by (cbn; unfold write_Z; now rewrite Z.eqb_refl).
    repeat split.
    + intros N data. unfold getThreatLevel. rewrite Own.
      apply level_eqb_neq in N. now rewrite N.
    + intros -> data. now rewrite getThreatLevel_by_selector.
    + intros other data N. unfold getThreatLevel. cbn. unfold write_Z.
      apply Z.eqb_neq in N. now rewrite N.
Qed.

(** X14.  Only the target and the four leading bytes of the payload decide
    the threat level: two payloads of at least four bytes that start with
    the same four bytes are classified alike, whatever arguments follow,
    and a payload of fewer than four bytes gets the level of the target
    address. *)
Theorem getThreatLevel_selector_only s target :
  (forall d1 d2,
      (4 <= length d1)%nat -> (4 <= length d2)%nat ->
      firstn 4 d1 = firstn 4 d2 ->
      getThreatLevel s target d1 = getThreatLevel s target d2)
  /\ (forall d, (length d < 4)%nat ->
        getThreatLevel s target d = addressThreatLevels s target).
Proof.
  split.
  - intros d1 d2 L1 L2 E. unfold getThreatLevel.
    destruct (negb (level_eqb (addressThreatLevels s target) LOW));
      [reflexivity|].
    assert (T1 : (4 <=? Z.of_nat (length d1)) = true)
      by (apply Z.leb_le; lia).
    assert (T2 : (4 <=? Z.of_nat (length d2)) = true)
      by (apply Z.leb_le; lia).
    rewrite T1, T2, !selector_of_payload by assumption.
    unfold leading_selector. now rewrite E.
  - intros d L. unfold getThreatLevel.
    destruct (level_eqb (addressThreatLevels s target) LOW) eqn:E;
      cbn [negb]; [|reflexivity].
    apply level_eqb_eq in E.
    assert (T : (4 <=? Z.of_nat (length d)) = false)
      by (apply Z.leb_gt; lia).
    now rewrite T, E.
Qed.

(** ** Pausing *)

(** X15.  [setPaused] is for holders of the Guardian role.  Pausing a
    paused contract and unpausing an unpaused one are rejected; pausing
    and then unpausing gives back the storage one started from. *)
Theorem setPaused_round_trip env s :
  (hasRole s GUARDIAN_ROLE (msg_sender env) = false ->
   forall b,
     call (setPaused env b) s
     = (Reverted (MissingRole (msg_sender env) GUARDIAN_ROLE), s))
  /\ (hasRole s GUARDIAN_ROLE (msg_sender env) = true ->
      (_paused s = true ->
       call (setPaused env true) s
       = (Reverted (ErrorString "Pausable: paused"), s))
      /\ (_paused s = false ->
          call (setPaused env false) s
          = (Reverted (ErrorString "Pausable: not paused"), s)
          /\ call (setPaused env true) s
             = (Success tt
                  [Paused (msg_sender env); ContractPaused (msg_sender env)],
                set_paused true s)
          /\ call (setPaused env false) (set_paused true s)
             = (Success tt
                  [Unpaused (msg_sender env);
                   ContractUnpaused (msg_sender env)], s))).
Proof.
  split.
  - intros G b. unfold setPaused. monad_unfold. cbn. now rewrite G.
  - intros G. split.
    + intros Hp. unfold setPaused, _pause. monad_unfold.
      repeat (cbn; rewrite ?G, ?Hp). reflexivity.
    + intros Hp. repeat split.
      * unfold setPaused, _unpause. monad_unfold.
        repeat (cbn; rewrite ?G, ?Hp). reflexivity.
      * unfold setPaused, _pause. monad_unfold.
        repeat (cbn; rewrite ?G, ?Hp). reflexivity.
      * unfold setPaused, _unpause. monad_unfold.
        change (hasRole (st {| st := set_paused true s; effects := [] |})
                  GUARDIAN_ROLE (msg_sender env))
          with (hasRole s GUARDIAN_ROLE (msg_sender env)).
        rewrite G. cbn. destruct s; cbn in *. now subst.
Qed.

(** ** Authorization by token balance *)

Lemma token_setJustToken env tokenAddress :
  keeps (on_storage (fun s => justToken s <> 0))
    (setJustToken env tokenAddress).
Proof.
  intros w Hw. unfold setJustToken, onlyRole. rewrite run_sload.
  destruct (hasRole (st w) ADMIN_ROLE (msg_sender env)); cbn [negb];
    [|exact I].
  rewrite run_revert_if_false.
  destruct (tokenAddress =? 0) eqn:E; [exact I|].
  apply Z.eqb_neq in E. exact E.
Qed.

Ltac token_leaf :=
  lazymatch goal with
  | |- keeps _ (setJustToken _ _) => apply token_setJustToken
  end.

Lemma token_kept_with ext :
  calls_out (on_storage (fun s => justToken s <> 0)) ext ->
  forall env c,
    keeps (on_storage (fun s => justToken s <> 0)) (dispatch_with ext env c).
Proof.
  intros Hx env c. destruct c; cbn [dispatch_with];
    keeps_with ltac:(idtac; first [ext_leaf Hx | token_leaf])
      unchanged unchanged.
Qed.

Lemma token_kept env c :
  keeps (on_storage (fun s => justToken s <> 0)) (dispatch env c).
Proof.
  apply kept_at_top;
    [apply survives_call_on_storage | exact token_kept_with].
Qed.

Lemma run_token txs s :
  justToken s <> 0 -> justToken (snd (run txs s)) <> 0.
Proof.
  revert s. induction txs as [|[env c] txs IH]; intros s Hi; [exact Hi|].
  cbn [run]. destruct (call (dispatch env c) s) as [[[] trace|e] s'] eqn:E.
  - pose proof (keeps_call _ _ _ _ _ _ (token_kept env c) Hi E) as Hi'.
    specialize (IH s' Hi'). now destruct (run txs s').
  - now apply IH.
Qed.

(** X16.  Authorization by token balance.  An admin cannot set the zero
    address as token, and once a token is set no later transaction unsets
    it.  With a token set, a token that gives no answer for the caller (no
    contract at the address, or no [uint256] returned) makes the token
    check revert, and with it every [queueTransactionWithThreatLevel] and
    every [executeTransaction] that gets as far as the check, for holders
    of the Proposer and Executor roles as for anyone else.  The threshold
    can be set to any value, zero included, by Admin, Governance or the
    contract itself, and is then what a balance is compared with. *)
Theorem token_authorization env s :
  (hasRole s ADMIN_ROLE (msg_sender env) = true ->
   call (setJustToken env 0) s
   = (Reverted (ZeroAddress "tokenAddress"), s)
   /\ forall token, token <> 0 ->
        exists s',
          call (setJustToken env token) s
          = (Success tt [JustTokenSet token], s')
          /\ justToken s' = token
          /\ forall txs, justToken (snd (run txs s')) <> 0)
  /\ (justToken s <> 0 ->
      forall env',
        balanceOf env' (justToken s) (msg_sender env') = NoAnswer ->
        (_paused s = false ->
         forall target value data,
           call (queueTransactionWithThreatLevel env' target value data) s
           = (Reverted RevertWithoutData, s))
        /\ (forall txHash,
              operational s -> pending s txHash ->
              eta (_timelockTransactions s txHash) <= block_timestamp env' ->
              block_timestamp env'
              <= eta (_timelockTransactions s txHash) + gracePeriod s ->
              eta (_timelockTransactions s txHash) + gracePeriod s
              <= Uint256.max ->
              call (executeTransaction env' txHash) s
              = (Reverted RevertWithoutData, s)))
  /\ (config_authorized env s = true ->
      forall newThreshold,
        exists s',
          call (updateExecutorTokenThreshold env newThreshold) s
          = (Success tt [ExecutorThresholdUpdated newThreshold], s')
          /\ minExecutorTokenThreshold s' = newThreshold
          /\ justToken s' = justToken s
          /\ forall env' user balance,
               justToken s <> 0 ->
               balanceOf env' (justToken s) user = Balance balance ->
               authorized_by_tokens env' s' user
               = Some (newThreshold <=? balance)).
Proof.
  split; [|split].
  - intros HA. split.
    + unfold call, setJustToken, onlyRole. rewrite run_sload. cbn [st].
      rewrite HA. reflexivity.
    + intros token N. exists (set_justToken token s).
      assert (E : (token =? 0) = false) by now apply Z.eqb_neq.
      split; [|split; [reflexivity|]].
      * unfold call, setJustToken, onlyRole. rewrite run_sload. cbn [st].
        rewrite HA. cbn [negb]. rewrite run_revert_if_false, E.
        reflexivity.
      * intros txs. apply run_token. exact N.
  - intros N env' B.
    assert (Tk : authorized_by_tokens env' s (msg_sender env') = None).
    { rewrite authorized_by_tokens_eq, B. apply Z.eqb_neq in N.
      now rewrite N. }
    split.
    + intros Hp target value data.
      now rewrite (queueTransactionWithThreatLevel_run env' s target value
                     data Hp), Tk.
    + intros txHash Op Pe T1 T2 M.
      rewrite (executeTransaction_in_window env' s txHash Op Pe T1 T2 M).
      cbv zeta. now rewrite Tk.
  - intros HC newThreshold.
    exists (set_minExecutorTokenThreshold newThreshold s).
    split; [|split; [reflexivity|split; [reflexivity|]]].
    + unfold config_authorized, admin_or_governance in HC.
      unfold call, updateExecutorTokenThreshold.
      rewrite !run_sload. cbn [st].
      destruct (hasRole s ADMIN_ROLE (msg_sender env));
        destruct (hasRole s GOVERNANCE_ROLE (msg_sender env));
        cbn in HC |- *; try reflexivity.
      rewrite HC. reflexivity.
    + intros env' user balance N B. rewrite authorized_by_tokens_eq. cbn.
      apply Z.eqb_neq in N. now rewrite N, B.
Qed.

(** ** Granting roles *)

(** X17.  [grantContractRole], called by a holder of the Admin role: the
    zero account is rejected; the grant goes through the directory's own
    [grantRole], so a caller who does not also hold the default admin role
    is rejected there; otherwise the account holds the role afterwards,
    every other membership is as before, and granting a role that is
    already held leaves storage unchanged. *)
Theorem grantContractRole_outcomes env s role account :
  hasRole s ADMIN_ROLE (msg_sender env) = true ->
  (account = 0 ->
   call (grantContractRole env role account) s
   = (Reverted (ZeroAddress "account"), s))
  /\ (account <> 0 ->
      hasRole s DEFAULT_ADMIN_ROLE (msg_sender env) = false ->
      call (grantContractRole env role account) s
      = (Reverted (MissingRole (msg_sender env) DEFAULT_ADMIN_ROLE), s))
  /\ (account <> 0 ->
      hasRole s DEFAULT_ADMIN_ROLE (msg_sender env) = true ->
      exists trace s',
        call (grantContractRole env role account) s = (Success tt trace, s')
        /\ In (RoleGranted role account) trace
        /\ (role = GOVERNANCE_ROLE ->
            In (GovernanceRoleChanged account true) trace)
        /\ (forall r a,
              hasRole s' r a
              = hasRole s r a || (role_eqb r role && (a =? account)))
        /\ (hasRole s role account = true -> s' = s)).
Proof.
  intros HA.
  assert (Start : forall (k : M unit),
             call (onlyRole env ADMIN_ROLE k) s
             = call k s).
  { intros k. unfold call, onlyRole. rewrite run_sload. cbn [st].
    rewrite HA. reflexivity. }
  unfold grantContractRole. rewrite Start. clear Start.
  split; [|split].
  - intros ->. reflexivity.
  - intros N HD. apply Z.eqb_neq in N. unfold call.
    rewrite N, run_revert_if_false.
    unfold grantRole, onlyRole, getRoleAdmin.
    rewrite run_bind, run_sload. cbn [st]. rewrite HD. reflexivity.
  - intros N HD. apply Z.eqb_neq in N. unfold call.
    rewrite N, run_revert_if_false.
    unfold grantRole, onlyRole, getRoleAdmin.
    rewrite run_bind, run_sload. cbn [st]. rewrite HD. cbn [negb].
    rewrite run_bind, run_revert_if_false, run_grantRole, run_emit.
    pose proof (hasRole_granted env role account
                  {| st := s; effects := [] |}) as Roles.
    cbn [st] in Roles.
    assert (Same : hasRole s role account = true ->
                   st (granted env role account
                         {| st := s; effects := [] |}) = s)
      by (intros Has; unfold granted; cbn [st]; now rewrite Has).
    destruct (role_eqb role GOVERNANCE_ROLE) eqn:G.
    + eexists. eexists. split; [reflexivity|]. cbn [effects st].
      split; [apply in_or_app; left; apply in_or_app; right; now left|].
      split; [intros _; apply in_or_app; right; now left|].
      split; [exact Roles | exact Same].
    + eexists. eexists. split; [reflexivity|]. cbn [effects st].
      split; [apply in_or_app; right; now left|].
      split; [intros ->; discriminate G|].
      split; [exact Roles | exact Same].
Qed.

(** ** Queued parameter updates *)

(** X18.  [queueDelayUpdate] and [queueThreatLevelDelaysUpdate] check the
    new parameters first.  With parameters that pass, a caller without the
    Proposer role is rejected even when token holdings would let that
    caller queue ordinary transactions, and a proposer's call is the call
    of [queueTransactionWithThreatLevel] with the contract itself as
    target, no value, and the encoded update as payload. *)
Theorem queued_parameter_updates env s :
  _paused s = false ->
  (forall b c,
      call (queueDelayUpdate env 0 b c) s = (Reverted ZeroDelay, s))
  /\ (forall a b c, a <> 0 -> a <= b -> c <> 0 ->
        (hasRole s PROPOSER_ROLE (msg_sender env) = false ->
         call (queueDelayUpdate env a b c) s
         = (Reverted (NotAuthorized (msg_sender env) PROPOSER_ROLE), s))
        /\ (hasRole s PROPOSER_ROLE (msg_sender env) = true ->
            call (queueDelayUpdate env a b c) s
            = call (queueTransactionWithThreatLevel env (this env) 0
                      (abi_encodeWithSelector
                         (selector_of "updateDelays(uint256,uint256,uint256)")
                         [a; b; c])) s))
  /\ (forall l m h c,
        minDelay s <= l -> l <= m -> m <= h -> h <= c -> c <= maxDelay s ->
        (hasRole s PROPOSER_ROLE (msg_sender env) = false ->
         call (queueThreatLevelDelaysUpdate env l m h c) s
         = (Reverted (NotAuthorized (msg_sender env) PROPOSER_ROLE), s))
        /\ (hasRole s PROPOSER_ROLE (msg_sender env) = true ->
            call (queueThreatLevelDelaysUpdate env l m h c) s
            = call (queueTransactionWithThreatLevel env (this env) 0
                      (abi_encodeWithSelector
                         (selector_of
                            "updateThreatLevelDelays(uint256,uint256,uint256,uint256)")
                         [l; m; h; c])) s)).
Proof.
  intros Hp.
  assert (Start : forall A (k : M A),
             call (whenNotPaused k) s = call k s).
  { intros A k. unfold call, whenNotPaused. rewrite run_sload. cbn [st].
    rewrite Hp. reflexivity. }
  split; [|split].
  - intros b c. unfold queueDelayUpdate. rewrite Start. reflexivity.
  - intros a b c Na Le Nc.
    apply Z.eqb_neq in Na, Nc. apply Z.ltb_ge in Le.
    unfold queueDelayUpdate. rewrite Start.
    split; intros R; unfold call at 1;
      rewrite Na, run_revert_if_false, Le, run_revert_if_false, Nc,
        run_revert_if_false, run_sload; cbn [st]; rewrite R;
      reflexivity.
  - intros l m h c L1 L2 L3 L4 L5.
    apply Z.ltb_ge in L1, L2, L3, L4, L5.
    unfold queueThreatLevelDelaysUpdate. rewrite Start.
    split; intros R; unfold call at 1;
      rewrite run_sload; cbn [st];
      rewrite L1, run_revert_if_false, L2, run_revert_if_false, L3,
        run_revert_if_false, L4, run_revert_if_false, run_sload;
      cbn [st];
      rewrite L5, run_revert_if_false, run_sload; cbn [st]; rewrite R;
      reflexivity.
Qed.

(** ** Calls back into the timelock *)

(** X19.  [executeTransaction] marks the transaction executed before it
    makes the call, and [markTransactionAsFailed] takes no part in the
    reentrancy guard.  So a callee that holds the Admin or the Governance
    role, or has a holder call for it, can mark the transaction failed
    while it is being executed: the execution then succeeds and leaves the
    transaction both executed and marked failed, open to
    [executeFailedTransaction]. *)
Theorem callee_marks_failed env s txHash marker answers :
  operational s -> pending s txHash ->
  eta (_timelockTransactions s txHash) <= block_timestamp env ->
  block_timestamp env
  <= eta (_timelockTransactions s txHash) + gracePeriod s ->
  eta (_timelockTransactions s txHash) + gracePeriod s <= Uint256.max ->
  executor_authorized env s = true ->
  let t := _timelockTransactions s txHash in
  let r := external_call env (target t) (value t) (data t) in
  fst r = true ->
  reentrant_calls env (target t) (value t) (data t)
  = [{| caller := marker; balances := answers;
        request := Call_markTransactionAsFailed txHash |}] ->
  hasRole s ADMIN_ROLE marker || hasRole s GOVERNANCE_ROLE marker = true ->
  call (executeTransaction env txHash) s
  = (Success (snd r)
       [TransactionExecuted txHash (target t) (value t) (data t);
        ExternalCall (target t) (value t) (data t);
        TransactionExecutionFailed txHash (target t)
          (list_byte_of_string "Manually marked as failed")],
     write_failed txHash true (write_executed txHash true s))
  /\ executed
       (_timelockTransactions
          (write_failed txHash true (write_executed txHash true s)) txHash)
     = true
  /\ _failedTransactions
       (write_failed txHash true (write_executed txHash true s)) txHash
     = true.
Proof.
  intros Op Pe T1 T2 M A t r F Script Role.
  rewrite (executeTransaction_in_window env s txHash Op Pe T1 T2 M).
  cbv zeta. fold t. fold r.
  destruct (executor_authorized_cases env s A) as (byTokens & -> & ->).
  rewrite F. destruct Op as [Hp Hs]. destruct Pe as (Hq & He & Hc).
  assert (After : after_execution env s txHash
                  = {| st := write_failed txHash true
                               (write_executed txHash true
                                  (set_status ENTERED s));
                       effects :=
                         [TransactionExecuted txHash (target t) (value t)
                            (data t);
                          ExternalCall (target t) (value t) (data t);
                          TransactionExecutionFailed txHash (target t)
                            (list_byte_of_string
                               "Manually marked as failed")] |}).
  { unfold after_execution, reentered. fold t. rewrite Script.
    cbn [fold_left]. unfold reenter, with_call, at_execution.
    cbn [request nested_env dispatch_with].
    unfold markTransactionAsFailed. monad_unfold.
    cbn [st effects msg_sender caller].
    assert (Has : forall role a,
               hasRole (write_executed txHash true (set_status ENTERED s))
                 role a = hasRole s role a) by reflexivity.
    repeat (cbn; rewrite ?Has).
    destruct (hasRole s ADMIN_ROLE marker),
      (hasRole s GOVERNANCE_ROLE marker); try discriminate Role;
      repeat (cbn; rewrite ?Hq, ?Hc, ?write_hash_same); reflexivity. }
  rewrite After. cbn [st effects].
  rewrite guard_released_failed_executed by exact Hs.
  split; [reflexivity|]. cbn. now rewrite !write_hash_same.
Qed.

End Proofs.

(** * The theorems at work on the small deployment *)

Section Instances.

#[local] Existing Instance PreimageKeccak.

Lemma PreimageKeccak_collision_free : CollisionFree.
Proof. intros x y E. exact E. Qed.

Lemma sample_queued_reachable : reachable sample_queued.
Proof. exact (reachable_run queue_sample zero_storage reachable_deployed). Qed.

Lemma sample_queued_pending :
  operational sample_queued /\ pending sample_queued sample_id.
Proof. repeat split; vm_compute; reflexivity. Qed.

(** C1, counterexample to the claim as stated: the executor runs the
    pending sample transaction at its [eta] and the callee fails; the
    caller gets [CallFailed], and in the resulting storage the record has
    neither [executed] nor [failed] set. *)
Lemma executeTransaction_failure_state_counterexample :
  operational sample_queued
  /\ pending sample_queued sample_id
  /\ eta (_timelockTransactions sample_queued sample_id) = 10
  /\ gracePeriod sample_queued = 14 * days
  /\ executor_authorized (sample_env 3 10 false) sample_queued = true
  /\ fst (external_call (sample_env 3 10 false) 77 0 sample_payload) = false
  /\ fst (call (executeTransaction (sample_env 3 10 false) sample_id)
            sample_queued)
     = Reverted (CallFailed 77 sample_payload)
  /\ executed
       (_timelockTransactions
          (snd (call (executeTransaction (sample_env 3 10 false) sample_id)
                  sample_queued)) sample_id) = false
  /\ _failedTransactions
       (snd (call (executeTransaction (sample_env 3 10 false) sample_id)
               sample_queued)) sample_id = false.
Proof. repeat split; vm_compute; reflexivity. Qed.

Lemma executeTransaction_call_failure_witness :
  operational sample_queued
  /\ pending sample_queued sample_id
  /\ executor_authorized (sample_env 3 10 false) sample_queued = true
  /\ call (executeTransaction (sample_env 3 10 false) sample_id)
       sample_queued
     = (Reverted
          (CallFailed
             (target (_timelockTransactions sample_queued sample_id))
             (data (_timelockTransactions sample_queued sample_id))),
        sample_queued).
Proof.
  destruct sample_queued_pending as [Op Pe].
  split; [exact Op|]. split; [exact Pe|].
  split; [vm_compute; reflexivity|].
  refine (proj1 (executeTransaction_call_failure (sample_env 3 10 false)
                   sample_queued sample_id Op Pe _ _ _ _ _));
    vm_compute; first [reflexivity | discriminate].
Defined.

Lemma sample_long_grace_pending :
  operational sample_long_grace /\ pending sample_long_grace sample_id.
Proof. repeat split; vm_compute; reflexivity. Qed.

(** C2, counterexample to the claim as stated: with the grace period at the
    largest [uint256], a call at time 5, well before [eta + gracePeriod],
    is rejected by the overflow panic, not as unexpired. *)
Lemma executeExpiredTransaction_early_call_counterexample :
  operational sample_long_grace
  /\ pending sample_long_grace sample_id
  /\ eta (_timelockTransactions sample_long_grace sample_id) = 10
  /\ gracePeriod sample_long_grace = Uint256.max
  /\ block_timestamp (sample_env 1 5 true)
     <= eta (_timelockTransactions sample_long_grace sample_id)
        + gracePeriod sample_long_grace
  /\ fst (call (executeExpiredTransaction (sample_env 1 5 true) sample_id)
            sample_long_grace)
     = Reverted (Panic 17)
  /\ forall h a b c,
       fst (call (executeExpiredTransaction (sample_env 1 5 true) sample_id)
              sample_long_grace)
       <> Reverted (TransactionNotExpired h a b c).
Proof.
  assert (E : fst (call (executeExpiredTransaction (sample_env 1 5 true)
                           sample_id) sample_long_grace)
              = Reverted (Panic 17)) by (vm_compute; reflexivity).
  destruct sample_long_grace_pending as [Op Pe].
  split; [exact Op|]. split; [exact Pe|].
  split; [vm_compute; reflexivity|]. split; [vm_compute; reflexivity|].
  split; [vm_compute; discriminate|]. split; [exact E|].
  intros h a b c. rewrite E. discriminate.
Qed.

Lemma executeExpiredTransaction_outcomes_witness :
  reachable sample_queued
  /\ operational sample_queued
  /\ pending sample_queued sample_id
  /\ Uint256.in_range (block_timestamp (sample_env 1 1209611 false))
  /\ admin_or_governance (sample_env 1 1209611 false) sample_queued = true
  /\ exists trace s',
       call (executeExpiredTransaction (sample_env 1 1209611 false)
               sample_id) sample_queued
       = (Success [] trace, s')
       /\ executed (_timelockTransactions s' sample_id) = true
       /\ _failedTransactions s' sample_id = true.
Proof.
  destruct sample_queued_pending as [Op Pe].
  assert (In_range : Uint256.in_range
                       (block_timestamp (sample_env 1 1209611 false)))
    by (vm_compute; split; discriminate).
  split; [exact sample_queued_reachable|]. split; [exact Op|].
  split; [exact Pe|]. split; [exact In_range|].
  split; [vm_compute; reflexivity|].
  destruct (executeExpiredTransaction_outcomes (sample_env 1 1209611 false)
              sample_queued sample_id sample_queued_reachable Op Pe In_range)
    as (_ & _ & _ & _ & Run).
  destruct Run as (trace & s' & E & _ & X & Failing & _);
    [vm_compute; reflexivity | vm_compute; reflexivity |].
  destruct Failing as [F _]; [vm_compute; reflexivity|].
  exists trace, s'. split; [exact E|]. split; [exact X | exact F].
Defined.

(** C3, counterexample to the claim as stated: with the grace period at the
    largest [uint256], the executor's call at exactly [now = eta] does not
    get past the time checks; the checked addition panics. *)
Lemma executeTransaction_at_eta_counterexample :
  operational sample_long_grace
  /\ pending sample_long_grace sample_id
  /\ block_timestamp (sample_env 3 10 true)
     = eta (_timelockTransactions sample_long_grace sample_id)
  /\ gracePeriod sample_long_grace = Uint256.max
  /\ executor_authorized (sample_env 3 10 true) sample_long_grace = true
  /\ fst (external_call (sample_env 3 10 true) 77 0 sample_payload) = true
  /\ fst (call (executeTransaction (sample_env 3 10 true) sample_id)
            sample_long_grace)
     = Reverted (Panic 17).
Proof. repeat split; vm_compute; reflexivity. Qed.

Lemma executeTransaction_time_window_witness :
  operational sample_queued
  /\ pending sample_queued sample_id
  /\ Uint256.in_range (block_timestamp (sample_env 3 10 true))
  /\ 0 <= gracePeriod sample_queued
  /\ block_timestamp (sample_env 3 10 true)
     = eta (_timelockTransactions sample_queued sample_id)
  /\ executor_authorized (sample_env 3 10 true) sample_queued = true
  /\ inert (sample_env 3 10 true) 77 0 sample_payload
  /\ exists s',
       call (executeTransaction (sample_env 3 10 true) sample_id)
         sample_queued
       = (Success []
            [TransactionExecuted sample_id 77 0 sample_payload;
             ExternalCall 77 0 sample_payload], s')
       /\ executed (_timelockTransactions s' sample_id) = true.
Proof.
  destruct sample_queued_pending as [Op Pe].
  assert (In_range : Uint256.in_range
                       (block_timestamp (sample_env 3 10 true)))
    by (vm_compute; split; discriminate).
  assert (G : 0 <= gracePeriod sample_queued) by (vm_compute; discriminate).
  assert (A : executor_authorized (sample_env 3 10 true) sample_queued
              = true) by (vm_compute; reflexivity).
  assert (I0 : inert (sample_env 3 10 true) 77 0 sample_payload)
    by reflexivity.
  split; [exact Op|]. split; [exact Pe|]. split; [exact In_range|].
  split; [exact G|]. split; [vm_compute; reflexivity|].
  split; [exact A|]. split; [exact I0|].
  destruct (executeTransaction_time_window (sample_env 3 10 true)
              sample_queued sample_id Op Pe In_range G)
    as (_ & At_eta & _).
  destruct At_eta as (_ & _ & _ & _ & _ & Runs);
    [vm_compute; reflexivity | vm_compute; discriminate |].
  destruct (Runs A) as (trace & s' & E & _ & X & Exact);
    [vm_compute; reflexivity|].
  destruct Exact as [T _]; [exact I0|].
  exists s'. split; [|exact X]. rewrite E, T. reflexivity.
Defined.

Lemma queue_ids_and_collisions_witness :
  CollisionFree
  /\ valid_request (sample_env 2 0 true) sample_initial 77 10
  /\ valid_request (sample_env 2 0 true) sample_initial 77 11
  /\ keccak256 (abi_encode 77 0 sample_payload 10)
     <> keccak256 (abi_encode 77 0 sample_payload 11)
  /\ exists trace1 s1 trace2 s2,
       call (_queueTransaction (sample_env 2 0 true) 77 0 sample_payload 10
               LOW) sample_initial
       = (Success (keccak256 (abi_encode 77 0 sample_payload 10)) trace1, s1)
       /\ call (_queueTransaction (sample_env 2 0 true) 77 0 sample_payload
                  11 LOW) s1
          = (Success (keccak256 (abi_encode 77 0 sample_payload 11)) trace2,
             s2)
       /\ queuedTransactions s2 (keccak256 (abi_encode 77 0 sample_payload 10))
          = true
       /\ queuedTransactions s2 (keccak256 (abi_encode 77 0 sample_payload 11))
          = true.
Proof.
  assert (V1 : valid_request (sample_env 2 0 true) sample_initial 77 10)
    by (vm_compute; repeat split; discriminate).
  assert (V2 : valid_request (sample_env 2 0 true) sample_initial 77 11)
    by (vm_compute; repeat split; discriminate).
  assert (R : forall n, 0 <= n <= 100 -> Uint256.in_range n)
    by (intros n Hn; unfold Uint256.in_range, Uint256.max; lia).
  split; [exact PreimageKeccak_collision_free|].
  split; [exact V1|]. split; [exact V2|].
  destruct (queue_ids_and_collisions (sample_env 2 0 true)
              (sample_env 2 0 true) sample_initial
              77 0 sample_payload 10 LOW 77 0 sample_payload 11 LOW)
    as (_ & _ & Distinct).
  destruct Distinct as [D Both];
    [exact PreimageKeccak_collision_free | apply R; cbn; lia ..
    | intros E; discriminate E |].
  split; [exact D|].
  destruct Both as (trace1 & s1 & trace2 & s2 & E1 & E2 & Q1 & Q2 & _);
    [exact V1 | exact V2 | vm_compute; reflexivity | vm_compute; reflexivity
    |].
  exists trace1, s1, trace2, s2. repeat split; assumption.
Defined.

Lemma getThreatLevel_precedence_witness :
  addressThreatLevels sample_initial 77 = LOW
  /\ (4 <= length (list_byte_of_string "upgradeTo(address)"))%nat
  /\ functionThreatLevels sample_initial
       (leading_selector (list_byte_of_string "upgradeTo(address)"))
     <> LOW
  /\ getThreatLevel sample_initial 77
       (list_byte_of_string "upgradeTo(address)")
     = functionThreatLevels sample_initial
         (leading_selector (list_byte_of_string "upgradeTo(address)")).
Proof.
  assert (A : addressThreatLevels sample_initial 77 = LOW)
    by (vm_compute; reflexivity).
  assert (L : (4 <= length (list_byte_of_string "upgradeTo(address)"))%nat)
    by (vm_compute; lia).
  assert (F : functionThreatLevels sample_initial
                (leading_selector (list_byte_of_string "upgradeTo(address)"))
              <> LOW)
    by (vm_compute; discriminate).
  split; [exact A|]. split; [exact L|]. split; [exact F|].
  exact (proj1 (proj2 (getThreatLevel_precedence sample_initial 77
                         (list_byte_of_string "upgradeTo(address)")))
           A L F).
Defined.

(** C6, counterexample to the claim as stated: the admin's update breaks
    the chain at an end link; the error is [DelayTooShort] for
    [low < minDelay] and [DelayTooLong] for [critical > maxDelay], not
    [DelayHierarchyViolation]. *)
Lemma updateThreatLevelDelays_end_links_counterexample :
  config_authorized (sample_env 1 0 true) sample_initial = true
  /\ minDelay sample_initial = 1
  /\ maxDelay sample_initial = 2592000
  /\ fst (call (updateThreatLevelDelays (sample_env 1 0 true) 0 5 6 7)
            sample_initial)
     = Reverted (DelayTooShort 0 1)
  /\ fst (call (updateThreatLevelDelays (sample_env 1 0 true) 1 2 3 2592001)
            sample_initial)
     = Reverted (DelayTooLong 2592001 2592000)
  /\ Reverted (A := unit) (DelayTooShort 0 1)
     <> Reverted DelayHierarchyViolation
  /\ Reverted (A := unit) (DelayTooLong 2592001 2592000)
     <> Reverted DelayHierarchyViolation.
Proof.
  split; [vm_compute; reflexivity|]. split; [vm_compute; reflexivity|].
  split; [vm_compute; reflexivity|]. split; [vm_compute; reflexivity|].
  split; [vm_compute; reflexivity|]. split; discriminate.
Qed.

Lemma updateThreatLevelDelays_outcomes_witness :
  config_authorized (sample_env 1 0 true) sample_initial = true
  /\ exists s',
       call (updateThreatLevelDelays (sample_env 1 0 true) 2 3 4 5)
         sample_initial
       = (Success tt [ThreatLevelDelaysUpdated 2 3 4 5], s')
       /\ tier_delays s' = (2, 3, 4, 5).
Proof.
  assert (A : config_authorized (sample_env 1 0 true) sample_initial = true)
    by (vm_compute; reflexivity).
  split; [exact A|].
  destruct (updateThreatLevelDelays_outcomes (sample_env 1 0 true)
              sample_initial 2 3 4 5 A) as (_ & _ & _ & Ok4).
  destruct Ok4 as (s' & E & T & _); [vm_compute; discriminate .. |].
  exists s'. split; [exact E | exact T].
Defined.

Lemma tier_delays_monotone_witness :
  reachable sample_queued
  /\ level_lt LOW CRITICAL
  /\ getDelayForThreatLevel sample_queued LOW
     <= getDelayForThreatLevel sample_queued CRITICAL.
Proof.
  assert (L : level_lt LOW CRITICAL) by (vm_compute; reflexivity).
  split; [exact sample_queued_reachable|]. split; [exact L|].
  exact (proj1 (tier_delays_monotone sample_queued sample_queued_reachable)
           LOW CRITICAL L).
Defined.




(** C9, counterexample to the claim as stated: the sample transaction is
    cancelled at time 1, the same request is queued again with the delay
    that reaches the same [eta] and hence the same id, and the executor
    then executes that id. *)
Lemma executed_after_cancel_counterexample :
  pending sample_queued sample_id
  /\ fst (call (cancelTransaction (sample_env 2 1 true) sample_id)
            sample_queued)
     = Success tt [TransactionCanceled sample_id]
  /\ fst (call (queueTransaction (sample_env 2 1 true) 77 0 sample_payload 9)
            (snd (call (cancelTransaction (sample_env 2 1 true) sample_id)
                    sample_queued)))
     = Success sample_id
         [TransactionQueued sample_id 77 0 sample_payload 10 LOW;
          TransactionSubmitted sample_id 2]
  /\ fst (call (executeTransaction (sample_env 3 10 true) sample_id)
            (snd (call (queueTransaction (sample_env 2 1 true) 77 0
                          sample_payload 9)
                    (snd (call (cancelTransaction (sample_env 2 1 true)
                                  sample_id) sample_queued)))))
     = Success []
         [TransactionExecuted sample_id 77 0 sample_payload;
          ExternalCall 77 0 sample_payload].
Proof.
  split; [exact (proj2 sample_queued_pending)|].
  split; [vm_compute; reflexivity|]. split; vm_compute; reflexivity.
Qed.

Lemma cancelTransaction_outcomes_witness :
  _paused sample_queued = false
  /\ pending sample_queued sample_id
  /\ cancel_authorized (sample_env 2 1 true) sample_queued = true
  /\ exists s',
       call (cancelTransaction (sample_env 2 1 true) sample_id) sample_queued
       = (Success tt [TransactionCanceled sample_id], s')
       /\ canceled (_timelockTransactions s' sample_id) = true
       /\ call (executeTransaction (sample_env 3 10 true) sample_id) s'
          = (Reverted (TxNotQueued sample_id), s').
Proof.
  destruct sample_queued_pending as [[Hp Hs] Pe].
  assert (A : cancel_authorized (sample_env 2 1 true) sample_queued = true)
    by (vm_compute; reflexivity).
  split; [exact Hp|]. split; [exact Pe|]. split; [exact A|].
  destruct (proj2 (cancelTransaction_outcomes (sample_env 2 1 true)
                     sample_queued sample_id) Hp Pe A)
    as (s' & E & C & _ & Rejected & _).
  exists s'. split; [exact E|]. split; [exact C|].
  apply Rejected.
  assert (S : s' = snd (call (cancelTransaction (sample_env 2 1 true)
                            sample_id) sample_queued))
    by now rewrite E.
  subst s'. split; vm_compute; reflexivity.
Defined.

Lemma sample_update_queued_pending :
  operational sample_update_queued /\ pending sample_update_queued update_id.
Proof. repeat split; vm_compute; reflexivity. Qed.

(** The executed call of the witness below is the contract's call to its
    own [updateDelays], which lowers the grace period to 100 while
    [executeTransaction] runs; the retry is then inside the new window. *)
Lemma markFailed_then_retry_witness :
  operational sample_update_queued
  /\ pending sample_update_queued update_id
  /\ executor_authorized (self_call_env 3 259200) sample_update_queued = true
  /\ exists trace1 s1 trace2 trace3 s3,
       call (executeTransaction (self_call_env 3 259200) update_id)
         sample_update_queued
       = (Success [] trace1, s1)
       /\ gracePeriod s1 = 100
       /\ admin_or_governance (sample_env 1 259210 true) s1 = true
       /\ call (markTransactionAsFailed (sample_env 1 259210 true) update_id)
            s1
          = (Success tt trace2, write_failed update_id true s1)
       /\ call (executeFailedTransaction (sample_env 1 259250 true)
                  update_id) (write_failed update_id true s1)
          = (Success [] trace3, s3)
       /\ In (ExternalCall 1000 0 update_payload) trace3.
Proof.
  destruct sample_update_queued_pending as [Op Pe].
  assert (A : executor_authorized (self_call_env 3 259200)
                sample_update_queued = true) by (vm_compute; reflexivity).
  split; [exact Op|]. split; [exact Pe|]. split; [exact A|].
  destruct (proj2 (markFailed_then_retry (self_call_env 3 259200)
                     (sample_env 1 259210 true) (sample_env 1 259250 true)
                     sample_update_queued update_id) Op Pe)
    as (trace1 & s1 & E1 & _ & _ & _ & _ & Mark);
    [vm_compute; discriminate | vm_compute; discriminate
    | vm_compute; discriminate | exact A | vm_compute; reflexivity |].
  assert (S1 : s1 = snd (call (executeTransaction (self_call_env 3 259200)
                                 update_id) sample_update_queued))
    by now rewrite E1.
  assert (G1 : gracePeriod s1 = 100)
    by (rewrite S1; vm_compute; reflexivity).
  assert (A2 : admin_or_governance (sample_env 1 259210 true) s1 = true)
    by (rewrite S1; vm_compute; reflexivity).
  destruct (Mark A2) as (trace2 & E2 & Retry).
  destruct Retry as [_ Again];
    [rewrite S1; vm_compute; reflexivity
    | rewrite G1; vm_compute; discriminate
    | rewrite G1; vm_compute; discriminate
    | rewrite S1; vm_compute; reflexivity |].
  destruct Again as (trace3 & s3 & E3 & _ & Ev3); [vm_compute; reflexivity|].
  exists trace1, s1, trace2, trace3, s3.
  split; [exact E1|]. split; [exact G1|]. split; [exact A2|].
  split; [exact E2|]. split; [exact E3 | exact Ev3].
Defined.

(** ** The further properties on the small deployment *)

Lemma sample_states_reachable :
  reachable sample_initial /\ reachable sample_executed
  /\ reachable sample_cancelled /\ reachable sample_failed.
Proof.
  repeat split; exact (reachable_run _ zero_storage reachable_deployed).
Qed.

Lemma outcome_of {A B} (p : A * B) (a : A) : fst p = a -> p = (a, snd p).
Proof. destruct p. cbn. now intros ->. Qed.

Lemma paused_blocks_operations_witness :
  _paused sample_paused = true
  /\ call (executeTransaction (sample_env 3 10 true) sample_id) sample_paused
     = (Reverted (ErrorString "Pausable: paused"), sample_paused).
Proof.
  assert (P : _paused sample_paused = true) by (vm_compute; reflexivity).
  split; [exact P|].
  destruct (paused_blocks_operations (sample_env 3 10 true) sample_paused P)
    as (_ & _ & _ & _ & E).
  exact (proj1 (E sample_id)).
Defined.

Lemma markTransactionAsFailed_needs_execution_witness :
  admin_or_governance (sample_env 1 5 true) sample_queued = true
  /\ pending sample_queued sample_id
  /\ call (markTransactionAsFailed (sample_env 1 5 true) sample_id)
       sample_queued
     = (Reverted (ErrorString "Transaction not executed yet"), sample_queued).
Proof.
  destruct sample_queued_pending as [_ Pe].
  assert (A : admin_or_governance (sample_env 1 5 true) sample_queued = true)
    by (vm_compute; reflexivity).
  split; [exact A|]. split; [exact Pe|].
  destruct Pe as (Q & X & C).
  exact (proj1 (markTransactionAsFailed_needs_execution (sample_env 1 5 true)
                  sample_queued sample_id A Q C) X).
Defined.

Lemma executeFailedTransaction_outcomes_witness :
  operational sample_failed
  /\ _failedTransactions sample_failed sample_id = true
  /\ admin_or_governance (sample_env 1 20 true) sample_failed = true
  /\ inert (sample_env 1 20 true) 77 0 sample_payload
  /\ exists trace,
       call (executeFailedTransaction (sample_env 1 20 true) sample_id)
         sample_failed
       = (Success [] trace, write_failed sample_id false sample_failed)
       /\ call (executeFailedTransaction (sample_env 1 21 true) sample_id)
            (write_failed sample_id false sample_failed)
          = (Reverted (TransactionNotPreviouslyFailed sample_id),
             write_failed sample_id false sample_failed).
Proof.
  assert (Op : operational sample_failed)
    by (split; vm_compute; reflexivity).
  assert (F : _failedTransactions sample_failed sample_id = true)
    by (vm_compute; reflexivity).
  assert (A : admin_or_governance (sample_env 1 20 true) sample_failed = true)
    by (vm_compute; reflexivity).
  assert (I0 : inert (sample_env 1 20 true) 77 0 sample_payload)
    by reflexivity.
  split; [exact Op|]. split; [exact F|]. split; [exact A|].
  split; [exact I0|].
  pose proof (executeFailedTransaction_outcomes (sample_env 1 20 true)
                sample_failed sample_id Op) as P.
  cbv zeta in P.
  destruct P as [_ Run];
    [vm_compute; reflexivity | vm_compute; reflexivity
    | vm_compute; reflexivity | exact F | vm_compute; discriminate
    | vm_compute; discriminate | exact A |].
  destruct Run as (trace & s' & E & _ & _ & Exact);
    [vm_compute; reflexivity|].
  destruct Exact as [S Again]; [exact I0|]. subst s'.
  exists trace. split; [exact E|].
  exact (Again (sample_env 1 21 true)).
Defined.

(** The retry of the witness below comes after the admin has lowered the
    grace period. *)
Lemma expired_execution_is_not_retryable_witness :
  reachable sample_queued
  /\ operational sample_queued
  /\ pending sample_queued sample_id
  /\ fst (call (executeExpiredTransaction (sample_env 1 1209611 false)
               sample_id) sample_queued)
     = Success []
         [ExpiredTransactionExecuted sample_id 77 0 sample_payload;
          ExternalCall 77 0 sample_payload;
          TransactionExecutionFailed sample_id 77 []]
  /\ exists e,
       fst (call (executeFailedTransaction (sample_env 1 1209612 true)
                    sample_id)
              (snd (run [(sample_env 1 1209611 true,
                          Call_updateDelays 1 2592000 100)]
                      (snd (call (executeExpiredTransaction
                                    (sample_env 1 1209611 false) sample_id)
                              sample_queued)))))
       = Reverted e.
Proof.
  destruct sample_queued_pending as [Op Pe].
  assert (E : fst (call (executeExpiredTransaction
                           (sample_env 1 1209611 false) sample_id)
                     sample_queued)
              = Success []
                  [ExpiredTransactionExecuted sample_id 77 0 sample_payload;
                   ExternalCall 77 0 sample_payload;
                   TransactionExecutionFailed sample_id 77 []])
    by (vm_compute; reflexivity).
  split; [exact sample_queued_reachable|]. split; [exact Op|].
  split; [exact Pe|]. split; [exact E|].
  assert (Run : call (executeExpiredTransaction
                        (sample_env 1 1209611 false) sample_id)
                  sample_queued
                = (Success []
                     [ExpiredTransactionExecuted sample_id 77 0
                        sample_payload;
                      ExternalCall 77 0 sample_payload;
                      TransactionExecutionFailed sample_id 77 []],
                   snd (call (executeExpiredTransaction
                                (sample_env 1 1209611 false) sample_id)
                          sample_queued)))
    by exact (outcome_of _ _ E).
  assert (Later : block_timestamp (sample_env 1 1209611 false)
                  <= block_timestamp (sample_env 1 1209612 true))
    by (vm_compute; discriminate).
  destruct (expired_execution_is_not_retryable
              (sample_env 1 1209611 false) (sample_env 1 1209612 true)
              sample_queued sample_id _ _ _
              [(sample_env 1 1209611 true, Call_updateDelays 1 2592000 100)]
              sample_queued_reachable Op Pe Run Later) as [e R].
  - vm_compute. discriminate.
  - exists e. now rewrite R.
Defined.

Lemma guard_released_between_transactions_witness :
  reachable sample_executed /\ _status sample_executed = NOT_ENTERED.
Proof.
  split; [exact (proj1 (proj2 sample_states_reachable))|].
  exact (guard_released_between_transactions sample_executed
           (proj1 (proj2 sample_states_reachable))).
Defined.

Lemma executed_is_final_witness :
  reachable sample_executed
  /\ executed (_timelockTransactions sample_executed sample_id) = true
  /\ _timelockTransactions
       (snd (run [(sample_env 2 11 true, Call_cancelTransaction sample_id);
                  (sample_env 3 12 true, Call_executeTransaction sample_id)]
               sample_executed)) sample_id
     = _timelockTransactions sample_executed sample_id.
Proof.
  assert (X : executed (_timelockTransactions sample_executed sample_id)
              = true) by (vm_compute; reflexivity).
  split; [exact (proj1 (proj2 sample_states_reachable))|]. split; [exact X|].
  exact (proj1 (executed_is_final sample_executed sample_id _
                  (proj1 (proj2 sample_states_reachable)) X)).
Defined.

Lemma cancelled_is_reported_unqueued_witness :
  reachable sample_cancelled
  /\ canceled (_timelockTransactions sample_cancelled sample_id) = true
  /\ queuedTransactions sample_cancelled sample_id = false.
Proof.
  assert (C : canceled (_timelockTransactions sample_cancelled sample_id)
              = true) by (vm_compute; reflexivity).
  split; [exact (proj1 (proj2 (proj2 sample_states_reachable)))|].
  split; [exact C|].
  exact (proj1 (cancelled_is_reported_unqueued sample_cancelled
                  (proj1 (proj2 (proj2 sample_states_reachable))))
           sample_id C).
Defined.


Lemma queueTransaction_custom_delay_witness :
  _paused sample_initial = false
  /\ valid_request (sample_env 2 0 true) sample_initial 77 10
  /\ hasRole sample_initial PROPOSER_ROLE 2 = true
  /\ exists s',
       fst (call (queueTransaction (sample_env 2 0 true) 77 0 sample_payload
                    10) sample_initial)
       = Success sample_id
           [TransactionQueued sample_id 77 0 sample_payload 10 LOW;
            TransactionSubmitted sample_id 2]
       /\ snd (call (queueTransaction (sample_env 2 0 true) 77 0
                       sample_payload 10) sample_initial) = s'
       /\ pending s' sample_id.
Proof.
  assert (Hp : _paused sample_initial = false) by (vm_compute; reflexivity).
  assert (R : hasRole sample_initial PROPOSER_ROLE 2 = true)
    by (vm_compute; reflexivity).
  assert (V : valid_request (sample_env 2 0 true) sample_initial 77 10)
    by (repeat split; vm_compute; discriminate).
  split; [exact Hp|]. split; [exact V|]. split; [exact R|].
  pose proof (queueTransaction_custom_delay (sample_env 2 0 true)
                sample_initial 77 0 sample_payload 10 Hp V) as P.
  cbv zeta in P. destruct P as [_ Q].
  destruct (Q R) as (s' & E & _ & Pe); [vm_compute; reflexivity|].
  exists s'.
  change (keccak256
            (abi_encode 77 0 sample_payload
               (block_timestamp (sample_env 2 0 true) + 10)))
    with sample_id in E, Pe.
  change (block_timestamp (sample_env 2 0 true) + 10) with 10 in E.
  change (getThreatLevel sample_initial 77 sample_payload) with LOW in E.
  change (msg_sender (sample_env 2 0 true)) with 2 in E.
  rewrite E. split; [reflexivity|]. split; [reflexivity | exact Pe].
Defined.

Lemma updateDelays_outcomes_witness :
  config_authorized (sample_env 1 0 true) sample_initial = true
  /\ exists s',
       call (updateDelays (sample_env 1 0 true) (2 * days) (30 * days)
               (14 * days)) sample_initial
       = (Success tt [DelaysUpdated (2 * days) (30 * days) (14 * days)], s')
       /\ minDelay s' = 2 * days
       /\ tier_delays s' = tier_delays sample_initial
       /\ call (queueTransactionWithThreatLevel (sample_env 2 0 true) 77 0
                  sample_payload) s'
          = (Reverted (DelayTooShort (1 * days) (2 * days)), s').
Proof.
  assert (A : config_authorized (sample_env 1 0 true) sample_initial = true)
    by (vm_compute; reflexivity).
  split; [exact A|].
  destruct (updateDelays_outcomes (sample_env 1 0 true) sample_initial
              (2 * days) (30 * days) (14 * days) A) as (_ & _ & Run).
  destruct Run as (s' & E & Min & _ & _ & Tiers & Short);
    [vm_compute; discriminate | vm_compute; discriminate
    | vm_compute; discriminate |].
  exists s'. split; [exact E|]. split; [exact Min|]. split; [exact Tiers|].
  assert (S : s' = snd (call (updateDelays (sample_env 1 0 true) (2 * days)
                            (30 * days) (14 * days)) sample_initial))
    by now rewrite E.
  refine (Short (sample_env 2 0 true) 77 0 sample_payload _ _ _ _);
    [vm_compute; reflexivity | discriminate
    | subst s'; vm_compute; reflexivity
    | vm_compute; reflexivity].
Defined.

Lemma initialize_outcomes_witness :
  _initialized zero_storage = false
  /\ exists trace s',
       call (initialize (sample_env 1 0 true) 1 [2] [3] 1) zero_storage
       = (Success tt trace, s')
       /\ minDelay s' = 1
       /\ tier_delays s' = (1 * days, 3 * days, 7 * days, 14 * days)
       /\ hasRole s' PROPOSER_ROLE 2 = true
       /\ hasRole s' EXECUTOR_ROLE 2 = false
       /\ hasRole s' GUARDIAN_ROLE 1 = true.
Proof.
  split; [reflexivity|].
  destruct (proj2 (initialize_outcomes (sample_env 1 0 true) zero_storage 1
                     [2] [3] 1) eq_refl) as (_ & _ & Run).
  destruct Run as (trace & s' & E & _ & _ & Min & _ & _ & Tiers & Roles);
    [discriminate | discriminate |].
  exists trace, s'. split; [exact E|]. split; [exact Min|].
  split; [exact Tiers|].
  rewrite !Roles. repeat split; vm_compute; reflexivity.
Defined.

Lemma batch_threat_levels_witness :
  hasRole sample_initial ADMIN_ROLE 1 = true
  /\ call (setBatchFunctionThreatLevels (sample_env 1 0 true) [1; 2; 1]
             [HIGH; MEDIUM; CRITICAL]) sample_initial
     = (Success tt
          [FunctionThreatLevelSet 1 HIGH; FunctionThreatLevelSet 2 MEDIUM;
           FunctionThreatLevelSet 1 CRITICAL],
        function_levels_set [(1, HIGH); (2, MEDIUM); (1, CRITICAL)]
          sample_initial)
  /\ functionThreatLevels
       (function_levels_set [(1, HIGH); (2, MEDIUM); (1, CRITICAL)]
          sample_initial) 1 = CRITICAL.
Proof.
  assert (A : hasRole sample_initial ADMIN_ROLE 1 = true)
    by (vm_compute; reflexivity).
  split; [exact A|].
  destruct (proj2 (proj1 (batch_threat_levels (sample_env 1 0 true)
                            sample_initial A)
                     [1; 2; 1] [HIGH; MEDIUM; CRITICAL]) eq_refl)
    as [E Look].
  split; [exact E|]. exact (Look 1).
Defined.

Lemma setAddressThreatLevel_overrides_witness :
  hasRole sample_initial ADMIN_ROLE 1 = true
  /\ exists s',
       call (setAddressThreatLevel (sample_env 1 0 true) 77 HIGH)
         sample_initial
       = (Success tt [AddressThreatLevelSet 77 HIGH], s')
       /\ getThreatLevel s' 77 sample_payload = HIGH.
Proof.
  assert (A : hasRole sample_initial ADMIN_ROLE 1 = true)
    by (vm_compute; reflexivity).
  split; [exact A|].
  destruct (setAddressThreatLevel_overrides (sample_env 1 0 true)
              sample_initial 77 HIGH A) as (s' & E & Own & _).
  exists s'. split; [exact E|]. apply Own. discriminate.
Defined.

Lemma getThreatLevel_selector_only_witness :
  firstn 4 (sample_payload ++ [x05; x06]) = firstn 4 sample_payload
  /\ getThreatLevel sample_initial 77 (sample_payload ++ [x05; x06])
     = getThreatLevel sample_initial 77 sample_payload.
Proof.
  split; [reflexivity|].
  apply (proj1 (getThreatLevel_selector_only sample_initial 77));
    [cbn; lia | cbn; lia | reflexivity].
Defined.

Lemma setPaused_round_trip_witness :
  hasRole sample_queued GUARDIAN_ROLE 1 = true
  /\ _paused sample_queued = false
  /\ call (setPaused (sample_env 1 0 true) false)
       (set_paused true sample_queued)
     = (Success tt [Unpaused 1; ContractUnpaused 1], sample_queued).
Proof.
  assert (G : hasRole sample_queued GUARDIAN_ROLE 1 = true)
    by (vm_compute; reflexivity).
  assert (P : _paused sample_queued = false) by (vm_compute; reflexivity).
  split; [exact G|]. split; [exact P|].
  exact (proj2 (proj2 (proj2 (proj2 (setPaused_round_trip
                                       (sample_env 1 0 true) sample_queued)
                                G) P))).
Defined.

(** In the witness below the token is an address that gives no answer,
    and the caller of [executeTransaction] holds the Executor role. *)
Lemma token_authorization_witness :
  justToken sample_token_set <> 0
  /\ balanceOf (silent_token_env 3 10) (justToken sample_token_set) 3
     = NoAnswer
  /\ hasRole sample_token_set EXECUTOR_ROLE 3 = true
  /\ operational sample_token_set
  /\ pending sample_token_set sample_id
  /\ call (executeTransaction (silent_token_env 3 10) sample_id)
       sample_token_set
     = (Reverted RevertWithoutData, sample_token_set).
Proof.
  assert (N : justToken sample_token_set <> 0)
    by (vm_compute; discriminate).
  assert (B : balanceOf (silent_token_env 3 10) (justToken sample_token_set)
                (msg_sender (silent_token_env 3 10)) = NoAnswer)
    by reflexivity.
  assert (Op : operational sample_token_set)
    by (split; vm_compute; reflexivity).
  assert (Pe : pending sample_token_set sample_id)
    by (repeat split; vm_compute; reflexivity).
  split; [exact N|]. split; [exact B|]. split; [vm_compute; reflexivity|].
  split; [exact Op|]. split; [exact Pe|].
  destruct (token_authorization (sample_env 1 0 true) sample_token_set)
    as (_ & Silent & _).
  destruct (Silent N (silent_token_env 3 10) B) as [_ Execute].
  apply (Execute sample_id Op Pe); vm_compute; discriminate.
Defined.

Lemma grantContractRole_outcomes_witness :
  hasRole sample_initial ADMIN_ROLE 1 = true
  /\ hasRole sample_initial DEFAULT_ADMIN_ROLE 1 = true
  /\ hasRole sample_initial GOVERNANCE_ROLE 4 = false
  /\ exists trace s',
       call (grantContractRole (sample_env 1 0 true) GOVERNANCE_ROLE 4)
         sample_initial
       = (Success tt trace, s')
       /\ In (GovernanceRoleChanged 4 true) trace
       /\ hasRole s' GOVERNANCE_ROLE 4 = true.
Proof.
  assert (A : hasRole sample_initial ADMIN_ROLE 1 = true)
    by (vm_compute; reflexivity).
  assert (D : hasRole sample_initial DEFAULT_ADMIN_ROLE 1 = true)
    by (vm_compute; reflexivity).
  split; [exact A|]. split; [exact D|]. split; [vm_compute; reflexivity|].
  destruct (grantContractRole_outcomes (sample_env 1 0 true) sample_initial
              GOVERNANCE_ROLE 4 A) as (_ & _ & Run).
  destruct (Run ltac:(discriminate) D) as (trace & s' & E & _ & Ev & Roles & _).
  exists trace, s'. split; [exact E|]. split; [exact (Ev eq_refl)|].
  rewrite Roles. vm_compute. reflexivity.
Defined.

Lemma queued_parameter_updates_witness :
  _paused sample_initial = false
  /\ hasRole sample_initial PROPOSER_ROLE 3 = false
  /\ call (queueDelayUpdate (sample_env 3 0 true) 1 2 3) sample_initial
     = (Reverted (NotAuthorized 3 PROPOSER_ROLE), sample_initial).
Proof.
  assert (P : _paused sample_initial = false) by (vm_compute; reflexivity).
  assert (R : hasRole sample_initial PROPOSER_ROLE 3 = false)
    by (vm_compute; reflexivity).
  split; [exact P|]. split; [exact R|].
  destruct (queued_parameter_updates (sample_env 3 0 true) sample_initial P)
    as (_ & Delays & _).
  refine (proj1 (Delays 1 2 3 _ _ _) R); vm_compute; discriminate.
Defined.

Lemma callee_marks_failed_witness :
  operational sample_queued
  /\ pending sample_queued sample_id
  /\ executor_authorized (marking_env 3 10) sample_queued = true
  /\ hasRole sample_queued ADMIN_ROLE 1 = true
  /\ fst (call (executeTransaction (marking_env 3 10) sample_id)
            sample_queued)
     = Success []
         [TransactionExecuted sample_id 77 0 sample_payload;
          ExternalCall 77 0 sample_payload;
          TransactionExecutionFailed sample_id 77
            (list_byte_of_string "Manually marked as failed")]
  /\ _failedTransactions
       (snd (call (executeTransaction (marking_env 3 10) sample_id)
               sample_queued)) sample_id = true.
Proof.
  destruct sample_queued_pending as [Op Pe].
  assert (A : executor_authorized (marking_env 3 10) sample_queued = true)
    by (vm_compute; reflexivity).
  assert (R : hasRole sample_queued ADMIN_ROLE 1 = true)
    by (vm_compute; reflexivity).
  split; [exact Op|]. split; [exact Pe|]. split; [exact A|].
  split; [exact R|].
  pose proof (callee_marks_failed (marking_env 3 10) sample_queued sample_id
                1 (fun _ _ => CallReverts) Op Pe) as P.
  cbv zeta in P.
  destruct P as (E & _ & F);
    [vm_compute; discriminate | vm_compute; discriminate
    | vm_compute; discriminate | exact A | reflexivity | reflexivity
    | now rewrite R |].
  rewrite E. split; [|exact F]. cbn [fst].
  assert (Rec : _timelockTransactions sample_queued sample_id
                = fresh_record 77 0 sample_payload 10)
    by (vm_compute; reflexivity).
  rewrite Rec. reflexivity.
Defined.

End Instances.
